(** * AI Notes System: the note repository, its codec, search and authorization

    A shallow embedding of the note model (src/models/noteModel.js), the note
    formatter (src/utils/noteFormatter.js), the authorization table
    (src/utils/authorization.js) and the notes controller, followed by the
    properties that the specification states about them.

    Conventions of the embedding.
    - A JavaScript string is a [string]: a sequence of code units in the
      range 0..255 (the Latin-1 part of UTF-16).  On that range the line
      terminators are LF and CR, white space is 9..13, 32 and 160, and
      [toLowerCase] moves A..Z and the accented capitals 192..222 (but 215).
    - [undefined] is [None]; a JavaScript value used as a condition is
      tested with the [truthy] functions below.
    - The date of a note is any value that js-yaml may load for the key
      (a string when it is quoted, a Date when it is not), and [<] on it
      is the comparison of the language, through ToPrimitive and ToNumber.
    - The front matter that js-yaml loads is a mapping.  A block that it
      loads as [undefined], [null], a scalar or a sequence (an empty block
      is [undefined]) is not modelled; the statements on the listing are
      on the runs in which the functions return.
    - The file tree takes every name.  Where a statement depends on what
      the operating system refuses (a NUL character, a name or a path that
      is too long), it asks for [fsTakes].
    - A function that may throw returns a [result]; the asynchronous
      functions of the model run in the monad [M] over a [world], which
      holds the file tree and the log of the calls made to [fs].
    - What Node and the libraries provide (path, fs, js-yaml, RegExp) is
      modelled from their documented behaviour; js-yaml and the part of the
      regular expression syntax that is not embedded are fields of [Host]. *)

From Stdlib Require Import Strings.String Strings.Ascii Lists.List.
From Stdlib Require Import Arith.PeanoNat ZArith.ZArith Bool.Bool micromega.Lia.
From Stdlib Require Import Sorting.Permutation Sorting.Sorted.
Import ListNotations.
Set Warnings "-register-all".
Local Open Scope list_scope.
Local Open Scope string_scope.

(** ** Strings as JavaScript sees them *)

Module Str.

Definition LF : ascii := ascii_of_nat 10.
Definition CR : ascii := ascii_of_nat 13.
Definition nl : string := String LF EmptyString.

Definition code (c : ascii) : nat := nat_of_ascii c.

(** LineTerminator of ECMAScript, restricted to code units below 256. *)
Definition isLineTerminator (c : ascii) : bool :=
  ((code c =? 10) || (code c =? 13))%nat.

(** WhiteSpace and LineTerminator, what [String.prototype.trim] strips. *)
Definition isWhiteSpace (c : ascii) : bool :=
  let n := code c in
  (((9 <=? n) && (n <=? 13)) || (n =? 32) || (n =? 160))%nat.

Definition lowerChar (c : ascii) : ascii :=
  let n := code c in
  if (((65 <=? n) && (n <=? 90))
      || ((192 <=? n) && (n <=? 222) && negb (n =? 215)))%nat
  then ascii_of_nat (n + 32) else c.

Fixpoint toLowerCase (s : string) : string :=
  match s with
  | EmptyString => EmptyString
  | String c s' => String (lowerChar c) (toLowerCase s')
  end.

Fixpoint trimStart (s : string) : string :=
  match s with
  | EmptyString => EmptyString
  | String c s' => if isWhiteSpace c then trimStart s' else s
  end.

Fixpoint trimEnd (s : string) : string :=
  match s with
  | EmptyString => EmptyString
  | String c s' =>
      match trimEnd s' with
      | EmptyString => if isWhiteSpace c then EmptyString else String c EmptyString
      | t => String c t
      end
  end.

Definition trim (s : string) : string := trimEnd (trimStart s).

(** [s.startsWith(p)] *)
Definition startsWith (s p : string) : bool := String.prefix p s.

(** [s.endsWith(p)] *)
Definition endsWith (s p : string) : bool :=
  let n := String.length s in
  let m := String.length p in
  (m <=? n)%nat && String.eqb (String.substring (n - m) m s) p.

(** [s.indexOf(p)], [None] for -1. *)
Fixpoint indexOf (s p : string) : option nat :=
  if String.prefix p s then Some 0
  else match s with
       | EmptyString => None
       | String _ s' => option_map S (indexOf s' p)
       end.

(** [s.includes(p)] *)
Definition includes (s p : string) : bool :=
  match indexOf s p with Some _ => true | None => false end.

(** [s.slice(n)] *)
Fixpoint drop (n : nat) (s : string) : string :=
  match n, s with
  | O, _ => s
  | S k, String _ s' => drop k s'
  | S _, EmptyString => EmptyString
  end.

(** [s.slice(0, n)] *)
Fixpoint take (n : nat) (s : string) : string :=
  match n, s with
  | S k, String c s' => String c (take k s')
  | _, _ => EmptyString
  end.

(** [s.split(sep)] for a one-character separator. *)
Fixpoint split (sep : ascii) (s : string) : list string :=
  match s with
  | EmptyString => [EmptyString]
  | String c s' =>
      if Ascii.eqb c sep then EmptyString :: split sep s'
      else match split sep s' with
           | h :: t => String c h :: t
           | [] => [String c EmptyString]
           end
  end.

(** A string is truthy when it is not empty; [undefined] is falsy. *)
Definition truthy (s : string) : bool :=
  match s with EmptyString => false | _ => true end.

Definition truthy_opt (o : option string) : bool :=
  match o with Some s => truthy s | None => false end.

(** [a || b] on strings. *)
Definition orElse (a : option string) (b : string) : string :=
  match a with
  | Some x => if truthy x then x else b
  | None => b
  end.

(** [a < b] on two strings: code units compared left to right. *)
Definition lt (a b : string) : bool :=
  match String.compare a b with Lt => true | _ => false end.

Definition gt (a b : string) : bool := lt b a.

(** [l.includes(x)] on an array of strings. *)
Definition mem (x : string) (l : list string) : bool :=
  existsb (String.eqb x) l.

End Str.

(** ** Node's path module (POSIX flavour) *)

Module Path.

Definition sep : ascii := "/"%char.

Definition segments (p : string) : list string := Str.split sep p.

Definition isAbsolute (p : string) : bool := Str.startsWith p "/".

(** One step of [normalizeString]: the segments kept so far are held with
    the last one first. *)
Definition normStep (allowAboveRoot : bool) (st : list string) (seg : string)
  : list string :=
  if String.eqb seg EmptyString || String.eqb seg "." then st
  else if String.eqb seg ".." then
    match st with
    | top :: rest =>
        if String.eqb top ".."
        then (if allowAboveRoot then seg :: st else st)
        else rest
    | [] => if allowAboveRoot then [seg] else []
    end
  else seg :: st.

Definition normSegs (allowAboveRoot : bool) (segs : list string) : list string :=
  rev (fold_left (normStep allowAboveRoot) segs []).

(** [normalizeString(path, allowAboveRoot, '/')] *)
Definition normalizeString (p : string) (allowAboveRoot : bool) : string :=
  String.concat "/" (normSegs allowAboveRoot (segments p)).

(** [path.normalize(p)] *)
Definition normalize (p : string) : string :=
  match p with
  | EmptyString => "."
  | _ =>
      let isAbs := isAbsolute p in
      let trailing := Str.endsWith p "/" in
      let q := normalizeString p (negb isAbs) in
      match q with
      | EmptyString =>
          if isAbs then "/" else if trailing then "./" else "."
      | _ =>
          let q' := if trailing then q ++ "/" else q in
          if isAbs then "/" ++ q' else q'
      end
  end.

(** [path.join(...args)] *)
Definition join (args : list string) : string :=
  match filter Str.truthy args with
  | [] => "."
  | parts => normalize (String.concat "/" parts)
  end.

(** The segments of [path.resolve(p)] below the root, for the working
    directory [cwd] (an absolute path). *)
Definition resolveSegs (cwd p : string) : list string :=
  if isAbsolute p then normSegs false (segments p)
  else normSegs false (segments (cwd ++ "/" ++ p)).

Definition ofSegs (segs : list string) : string :=
  "/" ++ String.concat "/" segs.

(** [path.resolve(p)] *)
Definition resolve (cwd p : string) : string := ofSegs (resolveSegs cwd p).

Fixpoint stripCommon (a b : list string) : list string * list string :=
  match a, b with
  | x :: a', y :: b' => if String.eqb x y then stripCommon a' b' else (a, b)
  | _, _ => (a, b)
  end.

(** [path.relative(from, to)]: both ends are resolved, the common leading
    segments dropped, one [..] written for each segment left of [from]. *)
Definition relative (cwd from to : string) : string :=
  if String.eqb from to then EmptyString
  else
    let (f, t) := stripCommon (resolveSegs cwd from) (resolveSegs cwd to) in
    String.concat "/" (map (fun _ => "..") f ++ t)%list.

(** The last segment of [p] that is not empty. *)
Definition lastSegment (p : string) : string :=
  last (filter Str.truthy (segments p)) EmptyString.

(** [path.basename(p)] *)
Definition basename (p : string) : string := lastSegment p.

(** [path.basename(p, ext)] *)
Definition basenameExt (p ext : string) : string :=
  if String.eqb ext p then EmptyString
  else
    let b := lastSegment p in
    if Str.endsWith b ext && negb (String.eqb b ext)
    then Str.take (String.length b - String.length ext) b
    else b.

End Path.

(** ** Exceptions and results *)

Inductive errno : Set := ENOENT | EISDIR | ENOTDIR | EEXIST | ENOTEMPTY | EINVAL.

(** What a JavaScript function of this program can throw: [new Error(msg)],
    a rejected [fs] call with its [code], a TypeError, a SyntaxError. *)
Inductive exn : Set :=
| Error (message : string)
| FsError (code : errno)
| TypeError (message : string)
| SyntaxError (message : string).

Inductive result (A : Type) : Type :=
| Ok (a : A)
| Throw (e : exn).

Arguments Ok {A} a.
Arguments Throw {A} e.

Definition errno_eqb (a b : errno) : bool :=
  match a, b with
  | ENOENT, ENOENT | EISDIR, EISDIR | ENOTDIR, ENOTDIR
  | EEXIST, EEXIST | ENOTEMPTY, ENOTEMPTY | EINVAL, EINVAL => true
  | _, _ => false
  end.

(** ** Authorization (src/utils/authorization.js) *)

Module Auth.

(** What reading a property of the object literal [PERMISSIONS] gives: an
    own property holds an array of operations; a name that the literal does
    not define is looked up on [Object.prototype], whose properties are
    functions (or, for [__proto__], the prototype object itself): truthy
    values with no [includes] method; any other name gives [undefined]. *)
Inductive property : Set :=
| OwnArray (operations : list string)
| Inherited
| Undefined.

Definition objectPrototypeKeys : list string :=
  [ "constructor"; "__defineGetter__"; "__defineSetter__"; "hasOwnProperty";
    "__lookupGetter__"; "__lookupSetter__"; "isPrototypeOf";
    "propertyIsEnumerable"; "toString"; "valueOf"; "__proto__";
    "toLocaleString" ].

Definition PERMISSIONS : list (string * list string) :=
  [ ("admin", ["create"; "read"; "update"; "delete"; "search"]);
    ("research", ["create"; "read"; "update"; "search"]);
    ("writing", ["create"; "read"; "update"; "delete"; "search"]);
    ("analytics", ["read"; "search"]) ].

Fixpoint assoc {A : Type} (k : string) (l : list (string * A)) : option A :=
  match l with
  | [] => None
  | (k', v) :: l' => if String.eqb k k' then Some v else assoc k l'
  end.

(** [PERMISSIONS[role]] *)
Definition PERMISSIONS_get (role : string) : property :=
  match assoc role PERMISSIONS with
  | Some ops => OwnArray ops
  | None => if Str.mem role objectPrototypeKeys then Inherited else Undefined
  end.

(** [isAuthorized(role, operation)]; [None] is a missing argument. *)
Definition isAuthorized (role operation : option string) : result bool :=
  match role, operation with
  | Some r, Some op =>
      if negb (Str.truthy r) || negb (Str.truthy op) then Ok false
      else
        match PERMISSIONS_get r with
        | Undefined => Ok false
        | OwnArray permissions => Ok (Str.mem op permissions)
        | Inherited => Throw (TypeError "permissions.includes is not a function")
        end
  | _, _ => Ok false
  end.

Definition roles : list string := map fst PERMISSIONS.

End Auth.

(** ** Notes and their metadata *)

Module Md.

(** A Number: NaN, an infinity, or the rational that a finite double is. *)
Inductive number : Set :=
| NaN
| Infinity (negative : bool)
| Finite (numerator : Z) (denominator : positive).

(** [x < y] on two Numbers; it is false when one of them is NaN. *)
Definition numberLt (x y : number) : bool :=
  match x, y with
  | NaN, _ => false
  | _, NaN => false
  | Infinity true, Infinity true => false
  | Infinity true, _ => true
  | _, Infinity true => false
  | Infinity false, _ => false
  | Finite _ _, Infinity false => true
  | Finite a b, Finite c d => (a * Zpos d <? c * Zpos b)%Z
  end.

(** What js-yaml may load for a key, as a comparison sees it: a string; a
    number; a Date, by its time value in milliseconds (a timestamp such as
    2025-03-15 written without quotes is loaded as a Date); a boolean;
    [null]; a sequence or a mapping, by the string that its [toString]
    gives (one whose keys leave [toString] and [valueOf] alone). *)
Inductive value : Set :=
| VString (s : string)
| VNumber (x : number)
| VDate (time : Z)
| VBoolean (b : bool)
| VNull
| VObject (text : string).

(** The front matter of a note: the keys that the program reads or writes.
    A key that is absent reads as [undefined]. *)
Record t : Set := make {
  date : option value;
  tags : option (list string);
  related : option (list string);
  author : option string;
  lastModified : option string
}.

(** The mapping whose date, when there is one, is a string. *)
Definition mk (date : option string) (tags related : option (list string))
  (author lastModified : option string) : t :=
  make (option_map VString date) tags related author lastModified.

(** The object [{}]. *)
Definition empty : t := mk None None None None None.

End Md.

Module Note.

(** The object that [parseNoteContent] returns. *)
Record t : Set := mk {
  id : string;
  path : string;
  title : string;
  content : string;
  metadata : Md.t
}.

End Note.

(** ** Regular expressions built from a string *)

Module Re.

(** The patterns that are embedded: a sequence of characters that stand for
    themselves and of [.], which matches one character that is not a line
    terminator. *)
Inductive atom : Set :=
| Lit (c : ascii)
| AnyChar.

(** SyntaxCharacter of ECMAScript. *)
Definition syntaxChars : string := "^$\.*+?()[]{}|".

Fixpoint inString (c : ascii) (s : string) : bool :=
  match s with
  | EmptyString => false
  | String d s' => Ascii.eqb c d || inString c s'
  end.

Definition isSyntaxChar (c : ascii) : bool := inString c syntaxChars.

Fixpoint parse (p : string) : option (list atom) :=
  match p with
  | EmptyString => Some []
  | String c p' =>
      if Ascii.eqb c "."%char then option_map (cons AnyChar) (parse p')
      else if isSyntaxChar c then None
      else option_map (cons (Lit c)) (parse p')
  end.

Definition atomMatches (a : atom) (c : ascii) : bool :=
  match a with
  | Lit d => Ascii.eqb c d
  | AnyChar => negb (Str.isLineTerminator c)
  end.

(** The atoms match a prefix of [s]. *)
Fixpoint matchesAt (atoms : list atom) (s : string) : bool :=
  match atoms with
  | [] => true
  | a :: atoms' =>
      match s with
      | EmptyString => false
      | String c s' => atomMatches a c && matchesAt atoms' s'
      end
  end.

(** The number of matches that a global search finds from the start of
    [s], once [skip] characters have gone by: after a match the search
    goes on behind it (one character further when the match is empty). *)
Fixpoint countFrom (atoms : list atom) (s : string) (skip : nat) : nat :=
  match s with
  | EmptyString =>
      match skip with
      | O => if matchesAt atoms s then 1 else 0
      | S _ => 0
      end
  | String _ s' =>
      match skip with
      | S k => countFrom atoms s' k
      | O =>
          if matchesAt atoms s
          then S (countFrom atoms s' (List.length atoms - 1))
          else countFrom atoms s' 0
      end
  end.

(** [(s.match(re) || []).length] for a global [re] made of [atoms]. *)
Definition matchCount (atoms : list atom) (s : string) : nat :=
  countFrom atoms s 0.

End Re.

(** ** What the process gets from its surroundings *)

(** [yaml_dump] and [yaml_load] are js-yaml's [dump] and [load] on front
    matter ([None]: [load] throws).  [regexp_other p] is [new RegExp(p, 'g')]
    for a pattern outside the embedded fragment: the function that counts
    the matches in a string, or [None] when the constructor throws its
    SyntaxError.  [toNumber s] is the Number that ToNumber gives for the
    string [s]: NaN when [s] is no numeric literal, as for a date with its
    dashes.  [env_NOTES_DIR] is [process.env.NOTES_DIR], [cwd] is
    [process.cwd()], and [today] is
    [new Date().toISOString().split('T')[0]]. *)
Class Host : Type := {
  yaml_dump : Md.t -> string;
  yaml_load : string -> option Md.t;
  regexp_other : string -> option (string -> nat);
  toNumber : string -> Md.number;
  env_NOTES_DIR : option string;
  cwd : string;
  today : string
}.

(** [const NOTES_DIR = process.env.NOTES_DIR || './notes'] *)
Definition NOTES_DIR `{Host} : string := Str.orElse env_NOTES_DIR "./notes".

(** [new RegExp(pattern, 'g')], as the function counting its matches. *)
Definition RegExp_g `{Host} (pattern : string) : result (string -> nat) :=
  match Re.parse pattern with
  | Some atoms => Ok (Re.matchCount atoms)
  | None =>
      match regexp_other pattern with
      | Some re => Ok re
      | None => Throw (SyntaxError "Invalid regular expression")
      end
  end.

(** ** The note formatter (src/utils/noteFormatter.js) *)

Module Fmt.

Definition fence : string := "---" ++ Str.nl.
Definition closing : string := Str.nl ++ "---" ++ Str.nl.

(** The match of the front matter expression of [parseNoteContent]: the
    text opens with a line of three dashes, the first group runs lazily to
    the first later line of three dashes, the second group is the rest. *)
Definition metadataMatch (content : string) : option (string * string) :=
  if Str.startsWith content fence then
    let rest := Str.drop 4 content in
    match Str.indexOf rest closing with
    | Some i => Some (Str.take i rest, Str.drop (i + 5) rest)
    | None => None
    end
  else None.

(** The characters of [s] up to its first line terminator. *)
Fixpoint lineHead (s : string) : string :=
  match s with
  | EmptyString => EmptyString
  | String c s' =>
      if Str.isLineTerminator c then EmptyString else String c (lineHead s')
  end.

Fixpoint titleMatchFrom (atLineStart : bool) (s : string) : option string :=
  match s with
  | EmptyString => None
  | String c s' =>
      if atLineStart && Str.startsWith s "# "
      then Some (lineHead (Str.drop 2 s))
      else titleMatchFrom (Str.isLineTerminator c) s'
  end.

(** [s.match(/^# (.*?)$/m)]: the group of the first match. *)
Definition titleMatch (s : string) : option string := titleMatchFrom true s.

Section WithHost.
Context `{Host}.

Definition parseNoteContent (content filePath notesDir : string) : Note.t :=
  match metadataMatch content with
  | None =>
      let title :=
        match titleMatch content with
        | Some t => t
        | None => Path.basenameExt filePath ".md"
        end in
      Note.mk (Path.relative cwd notesDir filePath) filePath title content Md.empty
  | Some (yamlText, bodyContent) =>
      match yaml_load yamlText with
      | Some metadata =>
          let title :=
            match titleMatch bodyContent with
            | Some t => t
            | None => Path.basenameExt filePath ".md"
            end in
          Note.mk (Path.relative cwd notesDir filePath) filePath title
                  (Str.trim bodyContent) metadata
      | None =>
          Note.mk (Path.relative cwd notesDir filePath) filePath
                  (Path.basenameExt filePath ".md") content Md.empty
      end
  end.

Definition formatNoteContent (metadata : Md.t) (title content : string) : string :=
  let metadataYaml := yaml_dump metadata in
  if Str.startsWith (Str.trim content) "# "
  then fence ++ metadataYaml ++ "---" ++ Str.nl ++ Str.nl ++ content
  else fence ++ metadataYaml ++ "---" ++ Str.nl ++ Str.nl
       ++ "# " ++ title ++ Str.nl ++ Str.nl ++ content.

End WithHost.

End Fmt.

(** ** The file system *)

Module Fs.

(** A file tree: a regular file with its text, or a directory with its
    entries in the order in which [readdir] lists them.  There are no
    symbolic links, and every file can be read. *)
Inductive node : Set :=
| File (content : string)
| Dir (entries : list (string * node)).

Fixpoint find (name : string) (es : list (string * node)) : option node :=
  match es with
  | [] => None
  | (k, v) :: es' => if String.eqb k name then Some v else find name es'
  end.

Fixpoint setEntry (name : string) (c : node) (es : list (string * node))
  : list (string * node) :=
  match es with
  | [] => [(name, c)]
  | (k, v) :: es' =>
      if String.eqb k name then (name, c) :: es' else (k, v) :: setEntry name c es'
  end.

Fixpoint delEntry (name : string) (es : list (string * node))
  : list (string * node) :=
  match es with
  | [] => []
  | (k, v) :: es' =>
      if String.eqb k name then delEntry name es' else (k, v) :: delEntry name es'
  end.

(** The node that the segments [p] lead to, from [n]. *)
Fixpoint stat (n : node) (p : list string) : result node :=
  match p with
  | [] => Ok n
  | seg :: rest =>
      match n with
      | File _ => Throw (FsError ENOTDIR)
      | Dir es =>
          match find seg es with
          | None => Throw (FsError ENOENT)
          | Some c => stat c rest
          end
      end
  end.

(** The tree with [new] at [p]; the directory that holds [p] must exist. *)
Fixpoint put (n : node) (p : list string) (new : node) : result node :=
  match p with
  | [] => Ok new
  | seg :: rest =>
      match n with
      | File _ => Throw (FsError ENOTDIR)
      | Dir es =>
          match rest with
          | [] => Ok (Dir (setEntry seg new es))
          | _ :: _ =>
              match find seg es with
              | None => Throw (FsError ENOENT)
              | Some c =>
                  match put c rest new with
                  | Ok c' => Ok (Dir (setEntry seg c' es))
                  | Throw e => Throw e
                  end
              end
          end
      end
  end.

(** The tree without what is at [p]. *)
Fixpoint remove (n : node) (p : list string) : result node :=
  match p with
  | [] => Throw (FsError EINVAL)
  | seg :: rest =>
      match n with
      | File _ => Throw (FsError ENOTDIR)
      | Dir es =>
          match find seg es with
          | None => Throw (FsError ENOENT)
          | Some c =>
              match rest with
              | [] => Ok (Dir (delEntry seg es))
              | _ :: _ =>
                  match remove c rest with
                  | Ok c' => Ok (Dir (setEntry seg c' es))
                  | Throw e => Throw e
                  end
              end
          end
      end
  end.

(** A chain of new directories, one inside the other. *)
Fixpoint chain (p : list string) : node :=
  match p with
  | [] => Dir []
  | seg :: rest => Dir [(seg, chain rest)]
  end.

(** [mkdir -p]: the directories of [p] that are missing are made. *)
Fixpoint mkdirp (n : node) (p : list string) : result node :=
  match p with
  | [] =>
      match n with
      | Dir _ => Ok n
      | File _ => Throw (FsError EEXIST)
      end
  | seg :: rest =>
      match n with
      | File _ => Throw (FsError ENOTDIR)
      | Dir es =>
          match find seg es with
          | None => Ok (Dir (es ++ [(seg, chain rest)])%list)
          | Some c =>
              match mkdirp c rest with
              | Ok c' => Ok (Dir (setEntry seg c' es))
              | Throw e => Throw e
              end
          end
      end
  end.

Fixpoint isPrefix (a b : list string) : bool :=
  match a, b with
  | [], _ => true
  | x :: a', y :: b' => String.eqb x y && isPrefix a' b'
  | _ :: _, [] => false
  end.

Fixpoint segs_eqb (a b : list string) : bool :=
  match a, b with
  | [], [] => true
  | x :: a', y :: b' => String.eqb x y && segs_eqb a' b'
  | _, _ => false
  end.

Definition move (t : node) (a b : list string) (src : node) : result node :=
  match remove t a with
  | Ok t1 => put t1 b src
  | Throw e => Throw e
  end.

(** [rename(2)]: a file replaces a file, a directory replaces an empty
    directory, nothing moves into itself. *)
Definition renameTree (t : node) (a b : list string) : result node :=
  match stat t a with
  | Throw e => Throw e
  | Ok src =>
      if segs_eqb a b then Ok t
      else if isPrefix a b then Throw (FsError EINVAL)
      else
        match stat t b, src with
        | Ok (Dir _), File _ => Throw (FsError EISDIR)
        | Ok (Dir (_ :: _)), Dir _ => Throw (FsError ENOTEMPTY)
        | Ok (Dir []), Dir _ => move t a b src
        | Ok (File _), Dir _ => Throw (FsError ENOTDIR)
        | Ok (File _), File _ => move t a b src
        | Throw (FsError ENOENT), _ => move t a b src
        | Throw e, _ => Throw e
        end
  end.

(** The calls made to [fs], with the paths as they were passed. *)
Inductive call : Set :=
| Access (p : string)
| ReadFile (p : string)
| WriteFile (p data : string)
| Mkdir (p : string)
| Rename (a b : string)
| Unlink (p : string)
| Readdir (p : string).

Record world : Set := mkWorld {
  tree : node;
  log : list call
}.

Definition logged (c : call) (w : world) : world :=
  mkWorld (tree w) (log w ++ [c])%list.

End Fs.

(** ** The monad of the asynchronous functions *)

Definition M (A : Type) : Type := Fs.world -> result A * Fs.world.

Definition ret {A : Type} (a : A) : M A := fun w => (Ok a, w).

Definition throw {A : Type} (e : exn) : M A := fun w => (Throw e, w).

Definition bind {A B : Type} (m : M A) (k : A -> M B) : M B :=
  fun w =>
    match m w with
    | (Ok a, w') => k a w'
    | (Throw e, w') => (Throw e, w')
    end.

(** [try { m } catch (error) { handler }] *)
Definition tryCatch {A : Type} (m : M A) (handler : exn -> M A) : M A :=
  fun w =>
    match m w with
    | (Ok a, w') => (Ok a, w')
    | (Throw e, w') => handler e w'
    end.

(** A function that may throw, called from an asynchronous one. *)
Definition lift {A : Type} (r : result A) : M A := fun w => (r, w).

Declare Scope js_scope.
Delimit Scope js_scope with js.
Notation "x <- m ;; k" := (bind m (fun x => k))
  (at level 61, m at next level, right associativity) : js_scope.
Notation "m ;; k" := (bind m (fun _ => k))
  (at level 61, right associativity) : js_scope.
Local Open Scope js_scope.

(** ** [fs/promises] on the file tree *)

Module FsP.
Section WithHost.
Context `{Host}.

Definition abs (p : string) : list string := Path.resolveSegs cwd p.

(** An [fs] call: it is logged, then it reads the tree, or replaces it. *)
Definition reading {A : Type} (c : Fs.call) (f : Fs.node -> result A) : M A :=
  fun w => (f (Fs.tree w), Fs.logged c w).

Definition writing (c : Fs.call) (f : Fs.node -> result Fs.node) : M unit :=
  fun w =>
    match f (Fs.tree w) with
    | Ok t' => (Ok tt, Fs.mkWorld t' (Fs.log w ++ [c])%list)
    | Throw e => (Throw e, Fs.logged c w)
    end.

Definition access (p : string) : M unit :=
  reading (Fs.Access p) (fun t =>
    match Fs.stat t (abs p) with
    | Ok _ => Ok tt
    | Throw e => Throw e
    end).

Definition readFile (p : string) : M string :=
  reading (Fs.ReadFile p) (fun t =>
    match Fs.stat t (abs p) with
    | Ok (Fs.File content) => Ok content
    | Ok (Fs.Dir _) => Throw (FsError EISDIR)
    | Throw e => Throw e
    end).

Definition writeFile (p data : string) : M unit :=
  writing (Fs.WriteFile p data) (fun t =>
    match Fs.stat t (abs p) with
    | Ok (Fs.Dir _) => Throw (FsError EISDIR)
    | _ => Fs.put t (abs p) (Fs.File data)
    end).

(** [fs.mkdir(p, { recursive: true })] *)
Definition mkdir (p : string) : M unit :=
  writing (Fs.Mkdir p) (fun t => Fs.mkdirp t (abs p)).

Definition rename (a b : string) : M unit :=
  writing (Fs.Rename a b) (fun t => Fs.renameTree t (abs a) (abs b)).

Definition unlink (p : string) : M unit :=
  writing (Fs.Unlink p) (fun t =>
    match Fs.stat t (abs p) with
    | Ok (Fs.File _) => Fs.remove t (abs p)
    | Ok (Fs.Dir _) => Throw (FsError EISDIR)
    | Throw e => Throw e
    end).

End WithHost.
End FsP.

(** ** [Array.prototype.sort] *)

(** The sort is stable.  For a comparison that orders the elements
    consistently every stable sort gives the same array, the one computed
    here by insertion; for any other comparison the order is left to the
    engine, and this is one of the orders allowed. *)
Fixpoint insertBy {A : Type} (cmp : A -> A -> Z) (x : A) (l : list A) : list A :=
  match l with
  | [] => [x]
  | y :: l' => if (cmp x y <=? 0)%Z then x :: l else y :: insertBy cmp x l'
  end.

Fixpoint sortBy {A : Type} (cmp : A -> A -> Z) (l : list A) : list A :=
  match l with
  | [] => []
  | x :: l' => insertBy cmp x (sortBy cmp l')
  end.

(** ** The note model (src/models/noteModel.js) *)

Module Model.

Record dateRange : Set := mkRange {
  start : option string;
  end_ : option string
}.

(** The [filters] of [searchNotes]; [{}] is [noFilters]. *)
Record filters : Set := mkFilters {
  f_tags : option (list string);
  f_category : option string;
  f_dateRange : option dateRange
}.

Definition noFilters : filters := mkFilters None None None.

(** What [createNote] returns. *)
Record created : Set := mkCreated {
  c_id : string;
  c_title : string;
  c_path : string;
  c_created : string
}.

(** What [updateNote] returns. *)
Record updated : Set := mkUpdated {
  u_id : string;
  u_title : string;
  u_updated : string
}.

(** What [deleteNote] and [appendToNote] return: a message, and an id
    when there is one. *)
Record outcome : Set := mkOutcome {
  o_message : string;
  o_id : option string
}.

(** A bound of the date range, as a value. *)
Definition bound (b : option string) : option Md.value := option_map Md.VString b.

(** What ToPrimitive gives for a value in a comparison: a string, or a
    Number ([undefined] gives NaN, a Date its time value, [null] zero, a
    boolean zero or one). *)
Definition comparand (v : option Md.value) : string + Md.number :=
  match v with
  | None => inr Md.NaN
  | Some (Md.VString s) => inl s
  | Some (Md.VNumber x) => inr x
  | Some (Md.VDate time) => inr (Md.Finite time 1)
  | Some (Md.VBoolean b) => inr (Md.Finite (if b then 1 else 0) 1)
  | Some Md.VNull => inr (Md.Finite 0 1)
  | Some (Md.VObject text) => inl text
  end.

Section WithHost.
Context `{Host}.

Definition numberOf (c : string + Md.number) : Md.number :=
  match c with
  | inl s => toNumber s
  | inr x => x
  end.

(** [a < b]: two strings are compared by their code units; otherwise both
    sides are turned into Numbers, and the comparison is false when one of
    them is NaN. *)
Definition lt (a b : option Md.value) : bool :=
  match comparand a, comparand b with
  | inl x, inl y => Str.lt x y
  | x, y => Md.numberLt (numberOf x) (numberOf y)
  end.

Definition gt (a b : option Md.value) : bool := lt b a.

(** [if (!isAuthorized(role, operation)) throw new Error(...)] *)
Definition authorize (role : option string) (operation : string) : M unit :=
  authorized <- lift (Auth.isAuthorized role (Some operation)) ;;
  if negb authorized then throw (Error "Insufficient permissions") else ret tt.

(** The three lines that validate [notePath] in every function that takes
    a note id. *)
Definition validatePath (notePath : string) : M unit :=
  let resolvedPath := Path.resolve cwd notePath in
  if negb (Str.startsWith resolvedPath (Path.resolve cwd NOTES_DIR))
  then throw (Error "Invalid note path")
  else ret tt.

(** [if (error.code === 'ENOENT') return null; throw error;] *)
Definition notFoundIsNull {A : Type} (error : exn) : M (option A) :=
  match error with
  | FsError ENOENT => ret None
  | _ => throw error
  end.

Definition ensureNotesDirectory : M unit :=
  tryCatch (FsP.access NOTES_DIR)
    (fun _ =>
       FsP.mkdir NOTES_DIR ;;
       FsP.mkdir (Path.join [NOTES_DIR; "topics"]) ;;
       FsP.mkdir (Path.join [NOTES_DIR; "projects"]) ;;
       FsP.mkdir (Path.join [NOTES_DIR; "references"]) ;;
       FsP.mkdir (Path.join [NOTES_DIR; "archive"])).

(** [processDirectory]: the notes pushed and the calls made while the
    entry [name] at [fullPath] and what is below it are visited.  The walk
    goes down the tree itself; the source goes by [fullPath] at every
    step, which leads to the same entry as long as entries have the names
    that a file system gives them (plain segments). *)
Fixpoint processEntry (fullPath name : string) (n : Fs.node)
  : list Note.t * list Fs.call :=
  match n with
  | Fs.Dir entries =>
      let fix loop (es : list (string * Fs.node)) : list Note.t * list Fs.call :=
        match es with
        | [] => ([], [])
        | (entryName, c) :: es' =>
            let here := processEntry (Path.join [fullPath; entryName]) entryName c in
            let after := loop es' in
            (fst here ++ fst after, snd here ++ snd after)%list
        end in
      let r := loop entries in
      (fst r, Fs.Readdir fullPath :: snd r)
  | Fs.File content =>
      if Str.endsWith name ".md"
      then ([Fmt.parseNoteContent content fullPath NOTES_DIR], [Fs.ReadFile fullPath])
      else ([], [])
  end.

(** [processDirectory(NOTES_DIR)] *)
Definition processDirectory (dirPath : string) : M (list Note.t) :=
  fun w =>
    match Fs.stat (Fs.tree w) (FsP.abs dirPath) with
    | Ok (Fs.Dir entries) =>
        let r := processEntry dirPath EmptyString (Fs.Dir entries) in
        (Ok (fst r), Fs.mkWorld (Fs.tree w) (Fs.log w ++ snd r)%list)
    | Ok (Fs.File _) => (Throw (FsError ENOTDIR), Fs.logged (Fs.Readdir dirPath) w)
    | Throw e => (Throw e, Fs.logged (Fs.Readdir dirPath) w)
    end.

(** The comparison of [getAllNotesInternal]: newest first. *)
Definition byDate (a b : Note.t) : Z :=
  if gt (Md.date (Note.metadata a)) (Md.date (Note.metadata b)) then (-1)%Z
  else if lt (Md.date (Note.metadata a)) (Md.date (Note.metadata b)) then 1%Z
  else 0%Z.

Definition getAllNotesInternal : M (list Note.t) :=
  ensureNotesDirectory ;;
  notes <- processDirectory NOTES_DIR ;;
  ret (sortBy byDate notes).

Definition hasTag (note : Note.t) (tag : string) : bool :=
  match Md.tags (Note.metadata note) with
  | Some ts => Str.mem tag ts
  | None => false
  end.

(** [note.path.includes(`/${category}/`)] *)
Definition inCategory (category : string) (note : Note.t) : bool :=
  Str.includes (Note.path note) ("/" ++ category ++ "/").

Definition matchesText (text : string) (note : Note.t) : bool :=
  Str.includes (Str.toLowerCase (Note.content note)) (Str.toLowerCase text)
  || Str.includes (Str.toLowerCase (Note.title note)) (Str.toLowerCase text).

Definition getAllNotes (role tags category keyword : option string)
  : M (list Note.t) :=
  authorize role "read" ;;
  ensureNotesDirectory ;;
  allNotes <- getAllNotesInternal ;;
  let filteredNotes := allNotes in
  let filteredNotes :=
    match tags with
    | Some ts =>
        if Str.truthy ts then
          let tagList := Str.split ","%char ts in
          filter (fun note => existsb (hasTag note) tagList) filteredNotes
        else filteredNotes
    | None => filteredNotes
    end in
  let filteredNotes :=
    match category with
    | Some c => if Str.truthy c then filter (inCategory c) filteredNotes
                else filteredNotes
    | None => filteredNotes
    end in
  let filteredNotes :=
    match keyword with
    | Some k => if Str.truthy k then filter (matchesText k) filteredNotes
                else filteredNotes
    | None => filteredNotes
    end in
  ret filteredNotes.

Definition getNoteById (role : option string) (noteId : string)
  : M (option Note.t) :=
  authorize role "read" ;;
  let notePath := Path.join [NOTES_DIR; noteId] in
  validatePath notePath ;;
  tryCatch
    (content <- FsP.readFile notePath ;;
     ret (Some (Fmt.parseNoteContent content notePath NOTES_DIR)))
    notFoundIsNull.

(** [title.toLowerCase().replace(/[^a-z0-9]+/g, '_')] *)
Definition isSlugChar (c : ascii) : bool :=
  let n := Str.code c in
  (((97 <=? n) && (n <=? 122)) || ((48 <=? n) && (n <=? 57)))%nat.

Fixpoint collapse (inRun : bool) (s : string) : string :=
  match s with
  | EmptyString => EmptyString
  | String c s' =>
      if isSlugChar c then String c (collapse false s')
      else if inRun then collapse true s'
      else String "_"%char (collapse true s')
  end.

Definition slugOf (title : string) : string :=
  collapse false (Str.toLowerCase title).

Definition createNote (role : option string) (title content : string)
  (tags : list string) (category author : string) : M created :=
  authorize role "create" ;;
  ensureNotesDirectory ;;
  let dateStr := today in
  let slug := slugOf title in
  let filename := dateStr ++ "_" ++ slug ++ ".md" in
  let categoryDir := Path.join [NOTES_DIR; category] in
  FsP.mkdir categoryDir ;;
  let filePath := Path.join [categoryDir; filename] in
  let metadata := Md.mk (Some dateStr) (Some tags) (Some []) (Some author) None in
  let fullContent := Fmt.formatNoteContent metadata title content in
  FsP.writeFile filePath fullContent ;;
  ret (mkCreated (Path.relative cwd NOTES_DIR filePath) title filePath dateStr).

Definition withLastModified (m : Md.t) (d : string) : Md.t :=
  Md.make (Md.date m) (Md.tags m) (Md.related m) (Md.author m) (Some d).

Definition withTags (m : Md.t) (ts : list string) : Md.t :=
  Md.make (Md.date m) (Some ts) (Md.related m) (Md.author m) (Md.lastModified m).

Definition updateNote (role : option string) (noteId : string)
  (title content : option string) (tags : option (list string))
  : M (option updated) :=
  authorize role "update" ;;
  let notePath := Path.join [NOTES_DIR; noteId] in
  validatePath notePath ;;
  tryCatch
    (FsP.access notePath ;;
     existingContent <- FsP.readFile notePath ;;
     let note := Fmt.parseNoteContent existingContent notePath NOTES_DIR in
     let updatedMetadata := withLastModified (Note.metadata note) today in
     let updatedMetadata :=
       match tags with
       | Some ts => withTags updatedMetadata ts
       | None => updatedMetadata
       end in
     let updatedTitle := Str.orElse title (Note.title note) in
     let updatedContent := Str.orElse content (Note.content note) in
     let fullContent :=
       Fmt.formatNoteContent updatedMetadata updatedTitle updatedContent in
     FsP.writeFile notePath fullContent ;;
     ret (Some (mkUpdated noteId updatedTitle today)))
    notFoundIsNull.

Definition deleteNote (role : option string) (noteId : string)
  (shouldArchive : bool) : M (option outcome) :=
  authorize role "delete" ;;
  let notePath := Path.join [NOTES_DIR; noteId] in
  validatePath notePath ;;
  tryCatch
    (FsP.access notePath ;;
     if shouldArchive then
       let fileName := Path.basename notePath in
       let archivePath := Path.join [NOTES_DIR; "archive"; fileName] in
       FsP.mkdir (Path.join [NOTES_DIR; "archive"]) ;;
       FsP.rename notePath archivePath ;;
       ret (Some (mkOutcome "Note archived"
                    (Some (Path.relative cwd NOTES_DIR archivePath))))
     else
       FsP.unlink notePath ;;
       ret (Some (mkOutcome "Note deleted" None)))
    notFoundIsNull.

Definition appendToNote (role : option string) (noteId content : string)
  : M (option outcome) :=
  authorize role "update" ;;
  let notePath := Path.join [NOTES_DIR; noteId] in
  validatePath notePath ;;
  tryCatch
    (FsP.access notePath ;;
     existingContent <- FsP.readFile notePath ;;
     let note := Fmt.parseNoteContent existingContent notePath NOTES_DIR in
     let updatedMetadata := withLastModified (Note.metadata note) today in
     let updatedContent := Note.content note ++ Str.nl ++ Str.nl ++ content in
     let fullContent :=
       Fmt.formatNoteContent updatedMetadata (Note.title note) updatedContent in
     FsP.writeFile notePath fullContent ;;
     ret (Some (mkOutcome "Content appended successfully" (Some noteId))))
    notFoundIsNull.

(** The callback of [allNotes.filter] in [searchNotes]. *)
Definition keeps (query : string) (fs : filters) (note : Note.t) : bool :=
  let matchesQuery :=
    Str.includes (Str.toLowerCase (Note.title note)) (Str.toLowerCase query)
    || Str.includes (Str.toLowerCase (Note.content note)) (Str.toLowerCase query) in
  if negb matchesQuery then false
  else if match f_tags fs with
          | Some (t :: ts) =>
              match Md.tags (Note.metadata note) with
              | None => true
              | Some noteTags =>
                  negb (existsb (fun tag => Str.mem tag noteTags) (t :: ts))
              end
          | _ => false
          end then false
  else if match f_category fs with
          | Some c => Str.truthy c && negb (inCategory c note)
          | None => false
          end then false
  else
    match f_dateRange fs with
    | Some range =>
        let noteDate := Md.date (Note.metadata note) in
        if Str.truthy_opt (start range) && lt noteDate (bound (start range))
        then false
        else if Str.truthy_opt (end_ range) && gt noteDate (bound (end_ range))
        then false
        else true
    | None => true
    end.

(** The count of the sort callback, for the expression [re]. *)
Definition relevance (re : string -> nat) (note : Note.t) : nat :=
  re (Str.toLowerCase (Note.title note))
  + re (Str.toLowerCase (Note.content note)).

Definition byRelevance (re : string -> nat) (a b : Note.t) : Z :=
  (Z.of_nat (relevance re b) - Z.of_nat (relevance re a))%Z.

(** [results.sort(...)]: the callback runs when there are two notes or
    more, and its first step builds the expression from the query. *)
Definition rank (query : string) (results : list Note.t) : result (list Note.t) :=
  match results with
  | [] | [_] => Ok results
  | _ =>
      match RegExp_g (Str.toLowerCase query) with
      | Ok re => Ok (sortBy (byRelevance re) results)
      | Throw e => Throw e
      end
  end.

Definition searchNotes (role : option string) (query : string) (fs : filters)
  : M (list Note.t) :=
  authorize role "read" ;;
  allNotes <- getAllNotesInternal ;;
  let results := filter (keeps query fs) allNotes in
  lift (rank query results).

End WithHost.
End Model.

(** ** The notes controller (src/controllers/notesController.js) *)

Module Controller.

Record agent : Set := mkAgent {
  role : string;
  name : option string
}.

(** The body of a request to create a note. *)
Record createBody : Set := mkBody {
  b_title : option string;
  b_content : option string;
  b_tags : option (list string);
  b_category : option string
}.

Record request : Set := mkRequest {
  req_agent : agent;
  req_body : createBody
}.

(** What the handler does with the request: a response with its status
    and its JSON body, or the error passed on with [next]. *)
Inductive response : Set :=
| JsonError (status : nat) (error : string)
| JsonCreated (status : nat) (result : Model.created)
| Next (error : exn).

Section WithHost.
Context `{Host}.

Definition createNote (req : request) : M response :=
  tryCatch
    (let title := b_title (req_body req) in
     let content := b_content (req_body req) in
     let tags := match b_tags (req_body req) with Some ts => ts | None => [] end in
     let category :=
       match b_category (req_body req) with Some c => c | None => "topics" end in
     match title, content with
     | Some t, Some c =>
         if negb (Str.truthy t) || negb (Str.truthy c)
         then ret (JsonError 400 "Title and content are required")
         else
           result <- Model.createNote (Some (role (req_agent req)))
                       t c tags category
                       (Str.orElse (name (req_agent req)) (role (req_agent req))) ;;
           ret (JsonCreated 201 result)
     | _, _ => ret (JsonError 400 "Title and content are required")
     end)
    (fun error => ret (Next error)).

End WithHost.
End Controller.

(** ** The other functions of the notes controller *)

Module Handlers.

(** The parts of a request that the handlers read: the agent set by the
    authentication, [req.params.id], the query string and the body. *)
Record request : Set := mkRequest {
  agent : Controller.agent;
  id : string;
  q_tags : option string;
  q_category : option string;
  q_keyword : option string;
  q_archive : option string;
  b_title : option string;
  b_content : option string;
  b_tags : option (list string);
  b_query : option string;
  b_filters : option Model.filters
}.

(** What a handler does with the request: a JSON response with its status
    (200 when the handler sets none), or the error passed on with [next]. *)
Inductive reply : Set :=
| Notes (status : nat) (notes : list Note.t)
| OneNote (status : nat) (note : Note.t)
| Updated (status : nat) (result : Model.updated)
| Done (status : nat) (result : Model.outcome)
| Failure (status : nat) (error : string)
| Next (error : exn).

Section WithHost.
Context `{Host}.

Definition role (req : request) : option string :=
  Some (Controller.role (agent req)).

Definition getAllNotes (req : request) : M reply :=
  tryCatch
    (notes <- Model.getAllNotes (role req) (q_tags req) (q_category req)
                (q_keyword req) ;;
     ret (Notes 200 notes))
    (fun error => ret (Next error)).

Definition getNoteById (req : request) : M reply :=
  tryCatch
    (let noteId := id req in
     note <- Model.getNoteById (role req) noteId ;;
     match note with
     | None => ret (Failure 404 "Note not found")
     | Some n => ret (OneNote 200 n)
     end)
    (fun error => ret (Next error)).

Definition updateNote (req : request) : M reply :=
  tryCatch
    (let noteId := id req in
     if negb (Str.truthy_opt (b_title req))
        && negb (Str.truthy_opt (b_content req))
        && negb (match b_tags req with Some _ => true | None => false end)
     then ret (Failure 400 "At least one field to update is required")
     else
       result <- Model.updateNote (role req) noteId (b_title req)
                   (b_content req) (b_tags req) ;;
       match result with
       | None => ret (Failure 404 "Note not found")
       | Some r => ret (Updated 200 r)
       end)
    (fun error => ret (Next error)).

Definition deleteNote (req : request) : M reply :=
  tryCatch
    (let noteId := id req in
     let shouldArchive :=
       match q_archive req with
       | Some a => String.eqb a "true"
       | None => false
       end in
     result <- Model.deleteNote (role req) noteId shouldArchive ;;
     match result with
     | None => ret (Failure 404 "Note not found")
     | Some r => ret (Done 200 r)
     end)
    (fun error => ret (Next error)).

Definition appendToNote (req : request) : M reply :=
  tryCatch
    (let noteId := id req in
     match b_content req with
     | Some content =>
         if negb (Str.truthy content) then ret (Failure 400 "Content is required")
         else
           result <- Model.appendToNote (role req) noteId content ;;
           match result with
           | None => ret (Failure 404 "Note not found")
           | Some r => ret (Done 200 r)
           end
     | None => ret (Failure 400 "Content is required")
     end)
    (fun error => ret (Next error)).

Definition searchNotes (req : request) : M reply :=
  tryCatch
    (let filters :=
       match b_filters req with Some f => f | None => Model.noFilters end in
     match b_query req with
     | Some query =>
         if negb (Str.truthy query) then ret (Failure 400 "Search query is required")
         else
           results <- Model.searchNotes (role req) query filters ;;
           ret (Notes 200 results)
     | None => ret (Failure 400 "Search query is required")
     end)
    (fun error => ret (Next error)).

End WithHost.
End Handlers.

(** ** The middleware (src/middleware/auth.js, errorHandler.js) *)

Module Middleware.

(** [ROLES] *)
Definition ALL : list string := ["admin"; "research"; "writing"; "analytics"].
Definition CREATORS : list string := ["admin"; "research"; "writing"].
Definition EDITORS : list string := ["admin"; "research"; "writing"].
Definition DELETERS : list string := ["admin"; "writing"].
Definition READERS : list string := ["admin"; "research"; "writing"; "analytics"].

(** What a middleware does: it calls [next()], or it answers. *)
Inductive verdict : Set :=
| Continue
| Refuse (status : nat) (error : string).

(** [authorize(allowedRoles)], on [req.agent]. *)
Definition authorize (allowedRoles : list string)
  (agent : option Controller.agent) : verdict :=
  match agent with
  | None => Refuse 401 "Authentication required"
  | Some a =>
      if negb (Str.truthy (Controller.role a))
      then Refuse 401 "Authentication required"
      else if negb (Str.mem (Controller.role a) allowedRoles)
              && negb (Str.mem "*" allowedRoles)
      then Refuse 403 "Insufficient permissions"
      else Continue
  end.

(** The fields of an error object that [errorHandler] reads. *)
Record jsError : Set := mkError {
  e_message : string;
  e_statusCode : option nat
}.

(** [new Error(message)]: it has no status code. *)
Definition thrown (message : string) : jsError := mkError message None.

(** [err.statusCode || 500] *)
Definition statusOf (err : jsError) : nat :=
  match e_statusCode err with
  | Some (S n) => S n
  | _ => 500
  end.

(** [errorHandler]: the response it sends. *)
Definition errorHandler (err : jsError) : Handlers.reply :=
  Handlers.Failure (statusOf err)
    (if Str.truthy (e_message err) then e_message err
     else "Internal server error").

(** [notFound]: the error it passes on for [req.originalUrl]. *)
Definition notFound (originalUrl : string) : jsError :=
  mkError ("Not Found - " ++ originalUrl) (Some 404).

End Middleware.

(** ** The routes (src/routes/notesRoutes.js) *)

Module Routes.

Inductive route : Set :=
| GetAll | GetOne | Create | Update | Delete | Append | Search.

(** The roles given to [authorize] on each route. *)
Definition allowed (r : route) : list string :=
  match r with
  | GetAll | GetOne | Search => Middleware.READERS
  | Create => Middleware.CREATORS
  | Update | Append => Middleware.EDITORS
  | Delete => Middleware.DELETERS
  end.

(** A request as it reaches a route, authenticated or not. *)
Record request : Set := mkRequest {
  agent : option Controller.agent;
  id : string;
  q_tags : option string;
  q_category : option string;
  q_keyword : option string;
  q_archive : option string;
  b_title : option string;
  b_content : option string;
  b_tags : option (list string);
  b_category : option string;
  b_query : option string;
  b_filters : option Model.filters
}.

Definition forHandler (a : Controller.agent) (req : request) : Handlers.request :=
  Handlers.mkRequest a (id req) (q_tags req) (q_category req) (q_keyword req)
    (q_archive req) (b_title req) (b_content req) (b_tags req) (b_query req)
    (b_filters req).

Definition forCreate (a : Controller.agent) (req : request) : Controller.request :=
  Controller.mkRequest a
    (Controller.mkBody (b_title req) (b_content req) (b_tags req) (b_category req)).

(** The answer of the handler of [createNote], in the replies of the
    other handlers. *)
Inductive answer : Set :=
| Reply (r : Handlers.reply)
| CreateReply (r : Controller.response).

Section WithHost.
Context `{Host}.

(** A route: [authorize] with the roles of the route, then the handler. *)
Definition dispatch (r : route) (req : request) : M answer :=
  match Middleware.authorize (allowed r) (agent req) with
  | Middleware.Refuse status error => ret (Reply (Handlers.Failure status error))
  | Middleware.Continue =>
      match agent req with
      | None => ret (Reply (Handlers.Failure 401 "Authentication required"))
      | Some a =>
          match r with
          | GetAll => x <- Handlers.getAllNotes (forHandler a req) ;; ret (Reply x)
          | GetOne => x <- Handlers.getNoteById (forHandler a req) ;; ret (Reply x)
          | Update => x <- Handlers.updateNote (forHandler a req) ;; ret (Reply x)
          | Delete => x <- Handlers.deleteNote (forHandler a req) ;; ret (Reply x)
          | Append => x <- Handlers.appendToNote (forHandler a req) ;; ret (Reply x)
          | Search => x <- Handlers.searchNotes (forHandler a req) ;; ret (Reply x)
          | Create => x <- Controller.createNote (forCreate a req) ;; ret (CreateReply x)
          end
      end
  end.

End WithHost.
End Routes.

(** ** A host to run the model on *)

(** A YAML codec for front matter, for the examples below.  It writes what
    js-yaml reads back as the same mapping: the empty mapping in flow
    style, otherwise one line for each key that is present, every string
    between single quotes (a quote inside is written twice), a sequence as
    indented items or, when empty, in flow style.  It reads these
    texts, and a date written without quotes as year, month and day, which
    is a Date; every other text is refused.  A date that is a Date, a
    boolean or [null] is written as js-yaml writes it; the other dates
    that are not strings, which no example has, are written as [null]. *)
Module RefYaml.

Definition quote : ascii := "'"%char.

(** [n] in decimal, on [width] digits. *)
Fixpoint digits (width n : nat) : string :=
  match width with
  | O => EmptyString
  | S w => digits w (n / 10) ++ String (ascii_of_nat (48 + n mod 10)) EmptyString
  end.

(** The days from 1970-01-01 to the first day of the month [month]
    (1 to 12) of the year [year], in the Gregorian calendar. *)
Definition daysToMonth (year month : Z) : Z :=
  let y := if (month <=? 2)%Z then (year - 1)%Z else year in
  let era := (y / 400)%Z in
  let yoe := (y - era * 400)%Z in
  let mp := if (2 <? month)%Z then (month - 3)%Z else (month + 9)%Z in
  let doy := ((153 * mp + 2) / 5)%Z in
  let doe := (yoe * 365 + yoe / 4 - yoe / 100 + doy)%Z in
  (era * 146097 + doe - 719468)%Z.

(** [Date.UTC(year, month, day)], the month counted from zero. *)
Definition dateUTC (year month day : Z) : Z :=
  let year := if ((0 <=? year) && (year <=? 99))%Z then (1900 + year)%Z else year in
  let ym := (year + month / 12)%Z in
  let mn := (month mod 12)%Z in
  ((daysToMonth ym (mn + 1) + (day - 1)) * 86400000)%Z.

(** The year, the month (1 to 12) and the day of the day [z], counted
    from 1970-01-01. *)
Definition civil (z : Z) : Z * Z * Z :=
  let z := (z + 719468)%Z in
  let era := (z / 146097)%Z in
  let doe := (z - era * 146097)%Z in
  let yoe := ((doe - doe / 1460 + doe / 36524 - doe / 146096) / 365)%Z in
  let doy := (doe - (365 * yoe + yoe / 4 - yoe / 100))%Z in
  let mp := ((5 * doy + 2) / 153)%Z in
  let d := (doy - (153 * mp + 2) / 5 + 1)%Z in
  let m := if (mp <? 10)%Z then (mp + 3)%Z else (mp - 9)%Z in
  let y := (yoe + era * 400)%Z in
  (if (m <=? 2)%Z then (y + 1)%Z else y, m, d).

(** [toISOString] of the Date with the time value [time]. *)
Definition toISOString (time : Z) : string :=
  let '(y, m, d) := civil (time / 86400000)%Z in
  let ms := (time mod 86400000)%Z in
  let two (x : Z) := digits 2 (Z.to_nat x) in
  (if ((0 <=? y) && (y <=? 9999))%Z then digits 4 (Z.to_nat y)
   else (if (y <? 0)%Z then "-" else "+") ++ digits 6 (Z.to_nat (Z.abs y)))
  ++ "-" ++ two m ++ "-" ++ two d ++ "T" ++ two (ms / 3600000)%Z
  ++ ":" ++ two (ms / 60000 mod 60)%Z ++ ":" ++ two (ms / 1000 mod 60)%Z
  ++ "." ++ digits 3 (Z.to_nat (ms mod 1000)%Z) ++ "Z".

Definition isDigit (c : ascii) : bool :=
  ((48 <=? Str.code c) && (Str.code c <=? 57))%nat.

(** The number that the decimal digits of [s] write, read from [acc]. *)
Fixpoint decimalFrom (acc : Z) (s : string) : option Z :=
  match s with
  | EmptyString => Some acc
  | String c s' =>
      if isDigit c then decimalFrom (acc * 10 + Z.of_nat (Str.code c - 48))%Z s'
      else None
  end.

Definition decimal (s : string) : option Z :=
  match s with
  | EmptyString => None
  | _ => decimalFrom 0 s
  end.

(** A plain scalar of four digits, two digits and two digits between
    dashes: the Date that js-yaml makes of it. *)
Definition plainDate (s : string) : option Z :=
  if ((String.length s =? 10)%nat
      && String.eqb (Str.take 1 (Str.drop 4 s)) "-"
      && String.eqb (Str.take 1 (Str.drop 7 s)) "-")
  then
    match decimal (Str.take 4 s), decimal (Str.take 2 (Str.drop 5 s)),
          decimal (Str.drop 8 s) with
    | Some year, Some month, Some day => Some (dateUTC year (month - 1)%Z day)
    | _, _, _ => None
    end
  else None.

Fixpoint escape (s : string) : string :=
  match s with
  | EmptyString => EmptyString
  | String c s' =>
      if Ascii.eqb c quote then String quote (String quote (escape s'))
      else String c (escape s')
  end.

Definition scalar (s : string) : string :=
  String quote (escape s ++ String quote EmptyString).

Definition scalarLine (key : string) (v : option string) : string :=
  match v with
  | Some x => key ++ ": " ++ scalar x ++ Str.nl
  | None => EmptyString
  end.

Definition seqLines (key : string) (v : option (list string)) : string :=
  match v with
  | Some [] => key ++ ": []" ++ Str.nl
  | Some l =>
      key ++ ":" ++ Str.nl
      ++ String.concat EmptyString (map (fun x => "  - " ++ scalar x ++ Str.nl) l)
  | None => EmptyString
  end.

Definition dateLine (v : option Md.value) : string :=
  match v with
  | Some (Md.VString x) => "date: " ++ scalar x ++ Str.nl
  | Some (Md.VDate time) => "date: " ++ toISOString time ++ Str.nl
  | Some (Md.VBoolean b) => "date: " ++ (if b then "true" else "false") ++ Str.nl
  | Some _ => "date: null" ++ Str.nl
  | None => EmptyString
  end.

Definition dump (m : Md.t) : string :=
  match dateLine (Md.date m) ++ seqLines "tags" (Md.tags m)
        ++ seqLines "related" (Md.related m) ++ scalarLine "author" (Md.author m)
        ++ scalarLine "lastModified" (Md.lastModified m) with
  | EmptyString => "{}" ++ Str.nl
  | text => text
  end.

(** The string that ends with the closing quote of [s], the opening quote
    having been read: two quotes in a row stand for one. *)
Fixpoint unquoteFrom (s : string) : option string :=
  match s with
  | EmptyString => None
  | String c s' =>
      if Ascii.eqb c quote then
        match s' with
        | EmptyString => Some EmptyString
        | String d s'' =>
            if Ascii.eqb d quote
            then option_map (String quote) (unquoteFrom s'')
            else None
        end
      else if Str.isLineTerminator c then None
      else option_map (String c) (unquoteFrom s')
  end.

Definition unquote (s : string) : option string :=
  match s with
  | String c s' => if Ascii.eqb c quote then unquoteFrom s' else None
  | EmptyString => None
  end.

(** The reader goes line by line; it keeps the mapping read so far and
    the sequence that is open, with its key and its items. *)
Record state : Set := mkState {
  acc : Md.t;
  open : option (string * list string)
}.

Definition setDate (v : Md.value) (m : Md.t) : option Md.t :=
  match Md.date m with
  | None =>
      Some (Md.make (Some v) (Md.tags m) (Md.related m) (Md.author m)
              (Md.lastModified m))
  | Some _ => None
  end.

Definition setScalar (key v : string) (m : Md.t) : option Md.t :=
  if String.eqb key "date" then setDate (Md.VString v) m
  else if String.eqb key "author" then
    match Md.author m with
    | None => Some (Md.make (Md.date m) (Md.tags m) (Md.related m) (Some v) (Md.lastModified m))
    | Some _ => None
    end
  else if String.eqb key "lastModified" then
    match Md.lastModified m with
    | None => Some (Md.make (Md.date m) (Md.tags m) (Md.related m) (Md.author m) (Some v))
    | Some _ => None
    end
  else None.

Definition setSeq (key : string) (l : list string) (m : Md.t) : option Md.t :=
  if String.eqb key "tags" then
    match Md.tags m with
    | None => Some (Md.make (Md.date m) (Some l) (Md.related m) (Md.author m) (Md.lastModified m))
    | Some _ => None
    end
  else if String.eqb key "related" then
    match Md.related m with
    | None => Some (Md.make (Md.date m) (Md.tags m) (Some l) (Md.author m) (Md.lastModified m))
    | Some _ => None
    end
  else None.

(** The open sequence, if any, is closed: it must have an item. *)
Definition close (st : state) : option Md.t :=
  match open st with
  | None => Some (acc st)
  | Some (_, []) => None
  | Some (key, items) => setSeq key items (acc st)
  end.

Definition keyLine (line : string) (m : Md.t) : option state :=
  match Str.indexOf line ":" with
  | None => None
  | Some i =>
      let key := Str.take i line in
      let rest := Str.drop (S i) line in
      if String.eqb rest EmptyString then Some (mkState m (Some (key, [])))
      else if String.eqb rest " []" then
        option_map (fun m' => mkState m' None) (setSeq key [] m)
      else if Str.startsWith rest " " then
        match unquote (Str.drop 1 rest) with
        | Some v => option_map (fun m' => mkState m' None) (setScalar key v m)
        | None =>
            match plainDate (Str.drop 1 rest) with
            | Some time =>
                if String.eqb key "date"
                then option_map (fun m' => mkState m' None)
                       (setDate (Md.VDate time) m)
                else None
            | None => None
            end
        end
      else None
  end.

Definition step (st : option state) (line : string) : option state :=
  match st with
  | None => None
  | Some st =>
      if Str.startsWith line "  - " then
        match open st, unquote (Str.drop 4 line) with
        | Some (key, items), Some v =>
            Some (mkState (acc st) (Some (key, items ++ [v])%list))
        | _, _ => None
        end
      else
        match close st with
        | Some m => keyLine line m
        | None => None
        end
  end.

Definition load (text : string) : option Md.t :=
  if String.eqb text "{}" then Some Md.empty
  else
    match fold_left step (Str.split Str.LF text) (Some (mkState Md.empty None)) with
    | Some st => close st
    | None => None
    end.

End RefYaml.

(** ToNumber on the strings of the examples: white space around the text
    is dropped; nothing is zero, decimal digits are the integer they
    write, and a text with any other character is NaN (the other numeric
    literals, which no example has, are not read). *)
Definition refToNumber (s : string) : Md.number :=
  match Str.trim s with
  | EmptyString => Md.Finite 0 1
  | text =>
      match RefYaml.decimal text with
      | Some n => Md.Finite n 1
      | None => Md.NaN
      end
  end.

(** The host of the examples: the default notes directory, a process
    started in [/app], on 2025-03-15.  It builds no regular expression
    beyond the embedded fragment. *)
Definition refHost : Host := {|
  yaml_dump := RefYaml.dump;
  yaml_load := RefYaml.load;
  regexp_other := fun _ => None;
  toNumber := refToNumber;
  env_NOTES_DIR := None;
  cwd := "/app";
  today := "2025-03-15"
|}.

(** ** Notions used to state the properties *)

(** The error of a failed authorization, and of a rejected path. *)
Definition permissionDenied : exn := Error "Insufficient permissions".
Definition invalidPath : exn := Error "Invalid note path".

(** Every exception that [m] throws satisfies [P]. *)
Definition throwsOnly {A : Type} (P : exn -> Prop) (m : M A) : Prop :=
  forall w e w', m w = (Throw e, w') -> P e.

Definition isFsError (e : exn) : Prop :=
  match e with FsError _ => True | _ => False end.

(** An exception of the platform: of [fs], or of the RegExp constructor. *)
Definition isPlatformError (e : exn) : Prop :=
  match e with FsError _ | SyntaxError _ => True | _ => False end.

(** Once the role is authorized, the three reading functions throw
    nothing but what [fs] and the RegExp constructor throw, and the error
    of a rejected path. *)
Definition onceAuthorized (e : exn) : Prop := isPlatformError e \/ e = invalidPath.

(** A segment holds no separator. *)
Definition sepFree (s : string) : Prop := Re.inString Path.sep s = false.

(** The segments that normalization keeps as they are. *)
Definition kept (s : string) : Prop :=
  s <> EmptyString /\ s <> "." /\ s <> "..".

(** The segments that normalization may leave on its stack. *)
Definition pushed (s : string) : Prop := s <> EmptyString /\ s <> ".".

(** Where the path [q] leads from the directory with segments [base]. *)
Definition resolveFrom (base : list string) (q : string) : list string :=
  rev (fold_left (Path.normStep false) (Path.segments q) (rev base)).

(** Every value that [m] returns satisfies [Q]. *)
Definition returnsOnly {A : Type} (Q : A -> Prop) (m : M A) : Prop :=
  forall w a w', m w = (Ok a, w') -> Q a.

(** A reply that is a response, not an error passed on. *)
Definition isResponse (r : Handlers.reply) : Prop :=
  match r with Handlers.Next _ => False | _ => True end.

(** The error that a route passed on with [next], if it did. *)
Definition passedOn (a : Routes.answer) : option exn :=
  match a with
  | Routes.Reply (Handlers.Next e) => Some e
  | Routes.CreateReply (Controller.Next e) => Some e
  | _ => None
  end.

(** A route ended without throwing, and the error it passed on, if any,
    is not the permission error of the model. *)
Definition endsPastPermission (x : result Routes.answer) : Prop :=
  match x with
  | Ok a =>
      match passedOn a with
      | Some e => e <> permissionDenied
      | None => True
      end
  | Throw _ => False
  end.

(** The length of a string in UTF-8: one byte for a code unit below 128,
    two for the others. *)
Fixpoint byteLength (s : string) : nat :=
  match s with
  | EmptyString => 0
  | String c s' => (if Str.code c <? 128 then 1 else 2)%nat + byteLength s'
  end.

(** A path that the operating system takes, whatever is there: it holds
    no NUL character, none of its names is longer than 255 bytes, and the
    whole is shorter than 4096 bytes. *)
Definition fsTakes (p : string) : bool :=
  negb (Re.inString Ascii.zero p)
  && forallb (fun name => byteLength name <=? 255)%nat (Path.segments p)
  && (byteLength p <? 4096)%nat.

(** A path segment that names an entry: not empty, not [.] or [..], and
    without a separator. *)
Definition plainSegment (s : string) : bool :=
  negb (String.eqb s EmptyString) && negb (String.eqb s ".")
  && negb (String.eqb s "..") && negb (Re.inString Path.sep s).

(** [a <= b] on two strings, by code units. *)
Definition leStr (a b : string) : bool := String.leb a b.

(** The date [d] is within the bounds of [range] that are given: a bound
    that is missing or empty does not bind. *)
Definition withinRange (range : Model.dateRange) (d : string) : bool :=
  match Model.start range with
  | Some s => negb (Str.truthy s) || leStr s d
  | None => true
  end
  && match Model.end_ range with
     | Some e => negb (Str.truthy e) || leStr d e
     | None => true
     end.

(** A date that a comparison takes as a Number: a number, a Date, a
    boolean or [null]. *)
Definition numeric (v : Md.value) : Prop :=
  exists x, Model.comparand (Some v) = inr x.

(** A bound that is missing or empty, or whose text is no numeric
    literal, as the text of a day with its dashes. *)
Definition notNumber `{Host} (b : option string) : Prop :=
  forall s, b = Some s -> Str.truthy s = true -> toNumber s = Md.NaN.

(** The two tests of the date range, for the date [v] of a note. *)
Definition dateTest `{Host} (range : Model.dateRange) (v : option Md.value)
  : bool :=
  if Str.truthy_opt (Model.start range)
     && Model.lt v (Model.bound (Model.start range)) then false
  else if Str.truthy_opt (Model.end_ range)
          && Model.gt v (Model.bound (Model.end_ range)) then false
  else true.

(** The relevance of the specification: [occurrences q s] counts the
    occurrences of [q] as a substring of [s], from the left and without
    overlap; the relevance of a note for a query adds the counts in the
    title and in the content, letter case set aside. *)
Module Spec.

Fixpoint occurrencesFrom (q s : string) (skip : nat) : nat :=
  match s with
  | EmptyString => 0
  | String _ s' =>
      match skip with
      | S k => occurrencesFrom q s' k
      | O =>
          if String.prefix q s
          then S (occurrencesFrom q s' (String.length q - 1))
          else occurrencesFrom q s' 0
      end
  end.

Definition occurrences (q s : string) : nat := occurrencesFrom q s 0.

Definition relevance (query : string) (note : Note.t) : nat :=
  occurrences (Str.toLowerCase query) (Str.toLowerCase (Note.title note))
  + occurrences (Str.toLowerCase query) (Str.toLowerCase (Note.content note)).

End Spec.

(** The slug of the specification: [Collapsed s t] when [t] is [s] with
    every maximal run of characters outside a-z and 0-9 replaced by one
    underscore. *)
Definition allOutside (run : string) : Prop :=
  forall c, Re.inString c run = true -> Model.isSlugChar c = false.

Definition startsInside (s : string) : Prop :=
  match s with
  | EmptyString => True
  | String c _ => Model.isSlugChar c = true
  end.

Inductive Collapsed : string -> string -> Prop :=
| Collapsed_nil : Collapsed EmptyString EmptyString
| Collapsed_char (c : ascii) (s t : string) :
    Model.isSlugChar c = true -> Collapsed s t ->
    Collapsed (String c s) (String c t)
| Collapsed_run (run s t : string) :
    run <> EmptyString -> allOutside run -> startsInside s ->
    Collapsed s t -> Collapsed (run ++ s) (String "_" t).

(** A query that the RegExp constructor reads letter by letter: it is not
    empty and has no syntax character. *)
Definition literalQuery (q : string) : Prop :=
  q <> EmptyString
  /\ forall c, Re.inString c q = true -> Re.isSyntaxChar c = false.

(** The notes of [l] are in descending order of [key]. *)
Definition descending {A : Type} (key : A -> nat) (l : list A) : Prop :=
  Sorted (fun a b => key b <= key a) l.

(** [l'] holds the notes of [l] with, for every value of [key], the notes
    of that value in the order they have in [l]. *)
Definition keepsTies {A : Type} (key : A -> nat) (l l' : list A) : Prop :=
  forall k, filter (fun x => key x =? k)%nat l' = filter (fun x => key x =? k)%nat l.

(** A string without a line terminator. *)
Definition singleLine (s : string) : Prop := Fmt.lineHead s = s.

(** The metadata that js-yaml takes there and back: the text of [dump]
    ends with a line feed, holds no line of three dashes, and [load] reads
    the mapping back from it. *)
Definition yamlRoundTrips `{Host} (m : Md.t) : Prop :=
  exists y0,
    yaml_dump m = (y0 ++ Str.nl)%string
    /\ Str.indexOf (y0 ++ Fmt.closing) Fmt.closing = Some (String.length y0)
    /\ yaml_load y0 = Some m.

(** The metadata that [updateNote] writes: the ones of the note with the
    day of the change, and with the new tags when there are some. *)
Definition updatedMetadata `{Host} (m : Md.t) (tags : option (list string)) : Md.t :=
  match tags with
  | Some ts => Model.withTags (Model.withLastModified m today) ts
  | None => Model.withLastModified m today
  end.

(** The title of the heading that [content] begins with. *)
Definition headingOf (content : string) : string :=
  Fmt.lineHead (Str.drop 2 content).

(** The path that [processDirectory] has built when it has gone down the
    entries [l] from [dirPath]: one [path.join] for each entry. *)
Definition walked (dirPath : string) (l : list string) : string :=
  fold_left (fun fullPath entryName => Path.join [fullPath; entryName]) l dirPath.

(** The date of the note when its metadata have one and it is a string,
    as [createNote] writes it. *)
Definition textDate (n : Note.t) : option string :=
  match Md.date (Note.metadata n) with
  | Some (Md.VString d) => Some d
  | _ => None
  end.

(** The note has a date in its metadata, and it is a string. *)
Definition dated (n : Note.t) : Prop := textDate n <> None.

(** Both notes have a string for a date, and the date of [a] is not before
    the date of [b], as strings. *)
Definition notOlder (a b : Note.t) : Prop :=
  match textDate a, textDate b with
  | Some x, Some y => Str.lt x y = false
  | _, _ => False
  end.

(** No note of [l] comes before a note of a later date. *)
Definition newestFirst (l : list Note.t) : Prop := StronglySorted notOlder l.

(** The text of the regular file at [p] in the tree [t], if there is one. *)
Definition fileAt (t : Fs.node) (p : list string) : option string :=
  match Fs.stat t p with
  | Ok (Fs.File content) => Some content
  | _ => None
  end.

(** Whatever [m] does, and whether it returns or throws, the regular
    files are afterwards what they were before, apart from the ones at a
    path in [Q]: none is made, none is removed, none has another text. *)
Definition keepsFilesBut {A : Type} (Q : list string -> Prop) (m : M A) : Prop :=
  forall w p, ~ Q p -> fileAt (Fs.tree (snd (m w))) p = fileAt (Fs.tree w) p.

Definition nowhere (p : list string) : Prop := False.

(** ** Worlds for the examples *)

Module Ex.

(** A machine where only the working directory exists. *)
Definition fresh : Fs.world := Fs.mkWorld (Fs.Dir [("app", Fs.Dir [])]) [].

Definition heading (title : string) : string := "# " ++ title.

Definition dated (d title : string) : string :=
  "---" ++ Str.nl ++ "date: '" ++ d ++ "'" ++ Str.nl ++ "---" ++ Str.nl
  ++ Str.nl ++ heading title.

(** Two notes on alpha: one without front matter, one of 2024. *)
Definition dates : Fs.world :=
  Fs.mkWorld
    (Fs.Dir [("app", Fs.Dir [("notes", Fs.Dir [("topics", Fs.Dir
       [ ("undated.md", Fs.File (heading "alpha undated"));
         ("old.md", Fs.File (dated "2024-12-31" "alpha old")) ])])])])
    [].

Definition from2025 : Model.filters :=
  Model.mkFilters None None (Some (Model.mkRange (Some "2025-01-01") None)).

Definition until2024 : Model.dateRange := Model.mkRange None (Some "2024-12-31").

Definition undatedNote : Note.t :=
  Note.mk "topics/undated.md" "notes/topics/undated.md" "alpha undated"
    "# alpha undated" Md.empty.

Definition oldNote : Note.t :=
  Note.mk "topics/old.md" "notes/topics/old.md" "alpha old" "# alpha old"
    (Md.mk (Some "2024-12-31") None None None None).

(** A note as the documentation writes it, the date without quotes. *)
Definition plainDated (d title : string) : string :=
  "---" ++ Str.nl ++ "date: " ++ d ++ Str.nl ++ "---" ++ Str.nl
  ++ Str.nl ++ heading title.

(** Two notes on alpha, both of 2024-12-31: the date of the first without
    quotes, the date of the second between quotes. *)
Definition documented : Fs.world :=
  Fs.mkWorld
    (Fs.Dir [("app", Fs.Dir [("notes", Fs.Dir [("topics", Fs.Dir
       [ ("plain.md", Fs.File (plainDated "2024-12-31" "alpha plain"));
         ("old.md", Fs.File (dated "2024-12-31" "alpha old")) ])])])])
    [].

(** 2024-12-31 at midnight, UTC. *)
Definition endOf2024 : Z := 1735603200000%Z.

Definition plainNote : Note.t :=
  Note.mk "topics/plain.md" "notes/topics/plain.md" "alpha plain" "# alpha plain"
    (Md.make (Some (Md.VDate endOf2024)) None None None None).

(** The notes directory with one note, topics/x.md, and an empty archive. *)
Definition xText : string := dated "2025-03-01" "X" ++ Str.nl ++ Str.nl ++ "body of x".

Definition notesOfX : Fs.node :=
  Fs.Dir [("topics", Fs.Dir [("x.md", Fs.File xText)]); ("archive", Fs.Dir [])].

Definition withX : Fs.world :=
  Fs.mkWorld (Fs.Dir [("app", Fs.Dir [("notes", notesOfX)])]) [].

(** The metadata that [createNote] writes for the tag q and the author bob. *)
Definition mdOfBob : Md.t :=
  Md.mk (Some "2025-03-15") (Some ["q"]) (Some []) (Some "bob") None.

Definition yamlOfBob : string :=
  "date: '2025-03-15'" ++ Str.nl ++ "tags:" ++ Str.nl ++ "  - 'q'" ++ Str.nl
  ++ "related: []" ++ Str.nl ++ "author: 'bob'".

(** A machine where the notes directory exists, and is empty. *)
Definition emptyNotes : Fs.world :=
  Fs.mkWorld (Fs.Dir [("app", Fs.Dir [("notes", Fs.Dir [])])]) [].

(** Next to the notes directory, a directory whose name begins like it. *)
Definition sibling : Fs.world :=
  Fs.mkWorld
    (Fs.Dir [("app", Fs.Dir
       [ ("notes", Fs.Dir [("topics", Fs.Dir [("a.md", Fs.File (heading "A"))])]);
         ("notes-private", Fs.Dir [("secret.md", Fs.File (heading "Secret"))]) ])])
    [].

(** A note two directories down, in a directory named like a category. *)
Definition nested : Fs.world :=
  Fs.mkWorld
    (Fs.Dir [("app", Fs.Dir [("notes", Fs.Dir
       [ ("topics", Fs.Dir [("top.md", Fs.File (heading "Top"))]);
         ("projects", Fs.Dir
            [("topics", Fs.Dir [("deep.md", Fs.File (heading "Deep"))])]) ])])])
    [].

(** Two notes that hold the query [.]: the first once, in a long
    sentence; the second three times, and nothing else. *)
Definition dots : Fs.world :=
  Fs.mkWorld
    (Fs.Dir [("app", Fs.Dir [("notes", Fs.Dir
       [ ("a.md", Fs.File "one long sentence.");
         ("b.md", Fs.File "...") ])])])
    [].

Definition noteA : Note.t :=
  Note.mk "a.md" "notes/a.md" "a" "one long sentence." Md.empty.

(** A request of the agent [role] for the note [id], with nothing else. *)
Definition requestOf (role id : string) : Routes.request :=
  Routes.mkRequest (Some (Controller.mkAgent role None)) id
    None None None None None None None None None None.

Definition handlerRequestOf (role id : string) : Handlers.request :=
  Routes.forHandler (Controller.mkAgent role None) (requestOf role id).

Definition noteB : Note.t := Note.mk "b.md" "notes/b.md" "b" "..." Md.empty.

(** Two dated notes, the older one first in its directory. *)
Definition twoDated : Fs.world :=
  Fs.mkWorld
    (Fs.Dir [("app", Fs.Dir [("notes", Fs.Dir [("topics", Fs.Dir
       [ ("old.md", Fs.File (dated "2024-12-31" "alpha old"));
         ("new.md", Fs.File (dated "2025-03-01" "alpha new")) ])])])])
    [].

Definition newNote : Note.t :=
  Note.mk "topics/new.md" "notes/topics/new.md" "alpha new" "# alpha new"
    (Md.mk (Some "2025-03-01") None None None None).

(** Two dated notes, the older one first in its directory and with its
    date without quotes. *)
Definition mixed : Fs.world :=
  Fs.mkWorld
    (Fs.Dir [("app", Fs.Dir [("notes", Fs.Dir [("topics", Fs.Dir
       [ ("plain.md", Fs.File (plainDated "2024-12-31" "alpha plain"));
         ("new.md", Fs.File (dated "2025-03-01" "alpha new")) ])])])])
    [].

(** The front matter of topics/x.md once it was updated with the tag t,
    and once something was appended to it. *)
Definition yamlOfTaggedX : string :=
  "date: '2025-03-01'" ++ Str.nl ++ "tags:" ++ Str.nl ++ "  - 't'" ++ Str.nl
  ++ "lastModified: '2025-03-15'".

Definition yamlOfModifiedX : string :=
  "date: '2025-03-01'" ++ Str.nl ++ "lastModified: '2025-03-15'".

(** A request of the agent [role] for the note [id] that asks for the
    archive and brings a text and a tag in its body. *)
Definition deleteRequest (role id archive : string) : Handlers.request :=
  Handlers.mkRequest (Controller.mkAgent role None) id None None None
    (Some archive) None None None None None.

Definition archiveRequest (role id : string) : Handlers.request :=
  Handlers.mkRequest (Controller.mkAgent role None) id None None None
    (Some "true") None (Some "more") (Some ["t"]) None None.

End Ex.

(** * Properties *)

(** ** The path functions on examples *)

Example path_join_default :
  Path.join ["./notes"; "topics"] = "notes/topics".
Proof. reflexivity. Qed.

Example path_join_up :
  Path.join ["./notes"; "../notes-old/x.md"] = "notes-old/x.md".
Proof. reflexivity. Qed.

Example path_resolve_default :
  Path.resolve "/app" "./notes" = "/app/notes".
Proof. reflexivity. Qed.

Example path_relative_default :
  Path.relative "/app" "./notes" "notes/topics/a.md" = "topics/a.md".
Proof. reflexivity. Qed.

Example path_basename_ext :
  Path.basenameExt "notes/topics/a.md" ".md" = "a".
Proof. reflexivity. Qed.


(** ** Authorization *)

Lemma mem_false_of_not_in (x : string) (l : list string) :
  ~ In x l -> Str.mem x l = false.
Proof.
  induction l as [|y l IH]; simpl; intros Hn; [reflexivity|].
  destruct (String.eqb_spec x y) as [->|Hxy].
  - exfalso. apply Hn. now left.
  - simpl. apply IH. intros Hin. apply Hn. now right.
Qed.

Lemma mem_true_iff (x : string) (l : list string) :
  Str.mem x l = true <-> In x l.
Proof.
  unfold Str.mem. rewrite existsb_exists. split.
  - intros (y & Hy & Heq). apply String.eqb_eq in Heq. now subst.
  - intros Hin. exists x. split; [assumption|apply String.eqb_refl].
Qed.

(** The table denies by default every role that is neither one of its own
    keys nor a property name of [Object.prototype]. *)
Lemma isAuthorized_unknown_role (r : string) (operation : option string) :
  ~ In r Auth.roles -> ~ In r Auth.objectPrototypeKeys ->
  Auth.isAuthorized (Some r) operation = Ok false.
Proof.
  intros Hr Hp. destruct operation as [op|]; [|reflexivity].
  unfold Auth.isAuthorized.
  destruct (negb (Str.truthy r) || negb (Str.truthy op)); [reflexivity|].
  unfold Auth.PERMISSIONS_get.
  assert (Hassoc : Auth.assoc r Auth.PERMISSIONS = None).
  { unfold Auth.roles, Auth.PERMISSIONS in *. simpl in *.
    repeat match goal with
    | |- context [String.eqb r ?k] =>
        destruct (String.eqb_spec r k) as [->|_]; [exfalso; apply Hr; tauto|]
    end. reflexivity. }
  rewrite Hassoc. now rewrite (mem_false_of_not_in _ _ Hp).
Qed.

(** For a role of the table the answer is the membership of the operation
    in the role's list. *)
Lemma isAuthorized_listed_role (r op : string) (ops : list string) :
  Auth.assoc r Auth.PERMISSIONS = Some ops -> Str.truthy op = true ->
  Auth.isAuthorized (Some r) (Some op) = Ok (Str.mem op ops).
Proof.
  intros Hr Hop. unfold Auth.isAuthorized, Auth.PERMISSIONS_get.
  rewrite Hr, Hop.
  destruct r; [discriminate|]. reflexivity.
Qed.

(** A missing or empty role or operation is refused. *)
Lemma isAuthorized_missing (role operation : option string) :
  Str.truthy_opt role = false \/ Str.truthy_opt operation = false ->
  Auth.isAuthorized role operation = Ok false.
Proof.
  destruct role as [r|], operation as [op|]; simpl; try reflexivity.
  intros [H|H]; unfold Auth.isAuthorized; rewrite H; simpl;
    [reflexivity|now rewrite orb_true_r].
Qed.

(** C10 (the code departs from the claim).  A role named after a property
    of [Object.prototype] is outside the four roles of the table, yet
    [isAuthorized] does not return false for it: it throws a TypeError. *)
Theorem C10_isAuthorized_throws_on_inherited_key :
  ~ In "constructor" Auth.roles /\
  Auth.isAuthorized (Some "constructor") (Some "read")
  = Throw (TypeError "permissions.includes is not a function").
Proof.
  split; [|reflexivity].
  simpl. intros H. repeat (destruct H as [H|H]; [discriminate|]). exact H.
Qed.

(** ** What the asynchronous functions can throw *)

Lemma throwsOnly_ret {A : Type} (P : exn -> Prop) (a : A) : throwsOnly P (ret a).
Proof. intros w e w' Heq. discriminate. Qed.

Lemma throwsOnly_throw {A : Type} (P : exn -> Prop) (e : exn) :
  P e -> throwsOnly P (@throw A e).
Proof. intros He w e' w' Heq. injection Heq as <- _. exact He. Qed.

Lemma throwsOnly_lift {A : Type} (P : exn -> Prop) (r : result A) :
  (forall e, r = Throw e -> P e) -> throwsOnly P (lift r).
Proof. intros Hr w e w' Heq. injection Heq as Heq _. now apply Hr. Qed.

Lemma throwsOnly_bind {A B : Type} (P : exn -> Prop) (m : M A) (k : A -> M B) :
  throwsOnly P m -> (forall a, throwsOnly P (k a)) -> throwsOnly P (bind m k).
Proof.
  intros Hm Hk w e w' Heq. unfold bind in Heq.
  destruct (m w) as [[a|e1] w1] eqn:Hmw.
  - now apply (Hk a w1 e w').
  - injection Heq as <- _. now apply (Hm w e1 w1).
Qed.

Lemma throwsOnly_tryCatch {A : Type} (P Q : exn -> Prop) (m : M A)
  (handler : exn -> M A) :
  throwsOnly P m -> (forall e, P e -> throwsOnly Q (handler e)) ->
  throwsOnly Q (tryCatch m handler).
Proof.
  intros Hm Hh w e w' Heq. unfold tryCatch in Heq.
  destruct (m w) as [[a|e1] w1] eqn:Hmw; [discriminate|].
  apply (Hh e1 (Hm _ _ _ Hmw) w1 e w' Heq).
Qed.

Lemma throwsOnly_weaken {A : Type} (P Q : exn -> Prop) (m : M A) :
  (forall e, P e -> Q e) -> throwsOnly P m -> throwsOnly Q m.
Proof. intros HPQ Hm w e w' Heq. apply HPQ. now apply (Hm w e w'). Qed.

Lemma stat_throws (p : list string) :
  forall t e, Fs.stat t p = Throw e -> isFsError e.
Proof.
  induction p as [|seg rest IH]; intros t e; simpl; [discriminate|].
  destruct t as [c|es]; [intros [= <-]; exact I|].
  destruct (Fs.find seg es) as [c|]; [apply IH|intros [= <-]; exact I].
Qed.

Lemma put_throws (p : list string) :
  forall t n e, Fs.put t p n = Throw e -> isFsError e.
Proof.
  induction p as [|seg rest IH]; intros t n e; simpl; [discriminate|].
  destruct t as [c|es]; [intros [= <-]; exact I|].
  destruct rest as [|s2 rest]; [discriminate|].
  destruct (Fs.find seg es) as [c|]; [|intros [= <-]; exact I].
  destruct (Fs.put c (s2 :: rest) n) as [c'|e'] eqn:Hput; [discriminate|].
  intros [= <-]. now apply (IH c n).
Qed.

Lemma remove_throws (p : list string) :
  forall t e, Fs.remove t p = Throw e -> isFsError e.
Proof.
  induction p as [|seg rest IH]; intros t e; simpl; [intros [= <-]; exact I|].
  destruct t as [c|es]; [intros [= <-]; exact I|].
  destruct (Fs.find seg es) as [c|]; [|intros [= <-]; exact I].
  destruct rest as [|s2 rest]; [discriminate|].
  destruct (Fs.remove c (s2 :: rest)) as [c'|e'] eqn:Hrm; [discriminate|].
  intros [= <-]. now apply (IH c).
Qed.

Lemma mkdirp_throws (p : list string) :
  forall t e, Fs.mkdirp t p = Throw e -> isFsError e.
Proof.
  induction p as [|seg rest IH]; intros t e; simpl.
  - destruct t; [intros [= <-]; exact I|discriminate].
  - destruct t as [c|es]; [intros [= <-]; exact I|].
    destruct (Fs.find seg es) as [c|]; [|discriminate].
    destruct (Fs.mkdirp c rest) as [c'|e'] eqn:Hmk; [discriminate|].
    intros [= <-]. now apply (IH c).
Qed.

Lemma move_throws (t : Fs.node) (a b : list string) (src : Fs.node) (e : exn) :
  Fs.move t a b src = Throw e -> isFsError e.
Proof.
  unfold Fs.move. destruct (Fs.remove t a) as [t1|e1] eqn:Hrm.
  - apply put_throws.
  - intros [= <-]. now apply (remove_throws a t).
Qed.

Lemma renameTree_throws (t : Fs.node) (a b : list string) (e : exn) :
  Fs.renameTree t a b = Throw e -> isFsError e.
Proof.
  unfold Fs.renameTree.
  destruct (Fs.stat t a) as [src|e1] eqn:Ha;
    [|intros [= <-]; now apply (stat_throws a t)].
  destruct (Fs.segs_eqb a b); [discriminate|].
  destruct (Fs.isPrefix a b); [intros [= <-]; exact I|].
  destruct (Fs.stat t b) as [[c|[|x es]]|e1] eqn:Hb; destruct src;
    try (intros [= <-]; exact I); try apply move_throws.
  - pose proof (stat_throws b t e1 Hb) as He1.
    destruct e1 as [m|[]|m|m]; try contradiction;
      try (intros [= <-]; exact I); apply move_throws.
  - pose proof (stat_throws b t e1 Hb) as He1.
    destruct e1 as [m|[]|m|m]; try contradiction;
      try (intros [= <-]; exact I); apply move_throws.
Qed.

Section Throws.
Context `{Host}.

Lemma reading_throws {A : Type} (c : Fs.call) (f : Fs.node -> result A) :
  (forall t e, f t = Throw e -> isFsError e) ->
  throwsOnly isFsError (FsP.reading c f).
Proof.
  intros Hf w e w'. unfold FsP.reading. intros [= Heq _]. now apply (Hf (Fs.tree w)).
Qed.

Lemma writing_throws (c : Fs.call) (f : Fs.node -> result Fs.node) :
  (forall t e, f t = Throw e -> isFsError e) ->
  throwsOnly isFsError (FsP.writing c f).
Proof.
  intros Hf w e w'. unfold FsP.writing.
  destruct (f (Fs.tree w)) as [t'|e1] eqn:Hft; [discriminate|].
  intros [= <- _]. now apply (Hf (Fs.tree w)).
Qed.

Lemma access_throws (p : string) : throwsOnly isFsError (FsP.access p).
Proof.
  apply reading_throws. intros t e.
  destruct (Fs.stat t (FsP.abs p)) eqn:Hs; [discriminate|].
  intros [= <-]. now apply (stat_throws _ _ _ Hs).
Qed.

Lemma readFile_throws (p : string) : throwsOnly isFsError (FsP.readFile p).
Proof.
  apply reading_throws. intros t e.
  destruct (Fs.stat t (FsP.abs p)) as [[c|es]|e1] eqn:Hs; [discriminate| |].
  - intros [= <-]. exact I.
  - intros [= <-]. now apply (stat_throws _ _ _ Hs).
Qed.

Lemma writeFile_throws (p data : string) :
  throwsOnly isFsError (FsP.writeFile p data).
Proof.
  apply writing_throws. intros t e.
  destruct (Fs.stat t (FsP.abs p)) as [[c|es]|e1] eqn:Hs;
    try apply put_throws.
  intros [= <-]. exact I.
Qed.

Lemma mkdir_throws (p : string) : throwsOnly isFsError (FsP.mkdir p).
Proof. apply writing_throws. intros t e. apply mkdirp_throws. Qed.

Lemma rename_throws (a b : string) : throwsOnly isFsError (FsP.rename a b).
Proof. apply writing_throws. intros t e. apply renameTree_throws. Qed.

Lemma unlink_throws (p : string) : throwsOnly isFsError (FsP.unlink p).
Proof.
  apply writing_throws. intros t e.
  destruct (Fs.stat t (FsP.abs p)) as [[c|es]|e1] eqn:Hs.
  - apply remove_throws.
  - intros [= <-]. exact I.
  - intros [= <-]. now apply (stat_throws _ _ _ Hs).
Qed.

Lemma ensureNotesDirectory_throws :
  throwsOnly isFsError Model.ensureNotesDirectory.
Proof.
  unfold Model.ensureNotesDirectory.
  apply (throwsOnly_tryCatch isFsError); [apply access_throws|].
  intros e _. repeat (apply throwsOnly_bind; [apply mkdir_throws|intros _]).
  apply mkdir_throws.
Qed.

Lemma processDirectory_throws (dirPath : string) :
  throwsOnly isFsError (Model.processDirectory dirPath).
Proof.
  intros w e w'. unfold Model.processDirectory.
  destruct (Fs.stat (Fs.tree w) (FsP.abs dirPath)) as [[c|es]|e1] eqn:Hs.
  - intros [= <- _]. exact I.
  - discriminate.
  - intros [= <- _]. now apply (stat_throws _ _ _ Hs).
Qed.

Lemma getAllNotesInternal_throws :
  throwsOnly isFsError Model.getAllNotesInternal.
Proof.
  unfold Model.getAllNotesInternal.
  apply throwsOnly_bind; [apply ensureNotesDirectory_throws|intros _].
  apply throwsOnly_bind; [apply processDirectory_throws|intros notes].
  apply throwsOnly_ret.
Qed.

Lemma notFoundIsNull_rethrows {A : Type} (P : exn -> Prop) (e : exn) :
  P e -> throwsOnly P (@Model.notFoundIsNull A e).
Proof.
  intros He. destruct e as [m|[]|m|m]; simpl;
    try (apply throwsOnly_throw; exact He).
  apply throwsOnly_ret.
Qed.

Lemma RegExp_g_throws (pattern : string) (e : exn) :
  RegExp_g pattern = Throw e -> isPlatformError e.
Proof.
  unfold RegExp_g. destruct (Re.parse pattern); [discriminate|].
  destruct (regexp_other pattern); [discriminate|].
  intros [= <-]. exact I.
Qed.

Lemma rank_throws (query : string) (results : list Note.t) (e : exn) :
  Model.rank query results = Throw e -> isPlatformError e.
Proof.
  unfold Model.rank. destruct results as [|a [|b l]]; try discriminate.
  destruct (RegExp_g (Str.toLowerCase query)) eqn:Hre; [discriminate|].
  intros [= <-]. now apply (RegExp_g_throws _ _ Hre).
Qed.

Lemma fs_is_platform (e : exn) : isFsError e -> isPlatformError e.
Proof. destruct e; simpl; tauto. Qed.

Lemma platform_not_denied (e : exn) : isPlatformError e -> e <> permissionDenied.
Proof. destruct e; simpl; intros He; try contradiction; discriminate. Qed.

Lemma onceAuthorized_not_denied (e : exn) : onceAuthorized e -> e <> permissionDenied.
Proof.
  intros [He| ->]; [now apply platform_not_denied|discriminate].
Qed.

Lemma validatePath_throws (notePath : string) :
  throwsOnly onceAuthorized (Model.validatePath notePath).
Proof.
  unfold Model.validatePath.
  destruct (negb _).
  - apply throwsOnly_throw. now right.
  - apply throwsOnly_ret.
Qed.

End Throws.

(** ** The permission matrix of the analytics role *)

Section Analytics.
Context `{Host}.

Lemma authorize_when_allowed (role : option string) (operation : string) :
  Auth.isAuthorized role (Some operation) = Ok true ->
  Model.authorize role operation = ret tt.
Proof. intros Hauth. unfold Model.authorize. now rewrite Hauth. Qed.

Lemma authorize_when_refused (role : option string) (operation : string) :
  Auth.isAuthorized role (Some operation) = Ok false ->
  Model.authorize role operation = throw permissionDenied.
Proof. intros Hauth. unfold Model.authorize. now rewrite Hauth. Qed.

Lemma bind_ret_l {A B : Type} (a : A) (k : A -> M B) : bind (ret a) k = k a.
Proof. reflexivity. Qed.

Lemma bind_throw_l {A B : Type} (e : exn) (k : A -> M B) (w : Fs.world) :
  bind (throw e) k w = (Throw e, w).
Proof. reflexivity. Qed.

Lemma getAllNotes_once_authorized (role tags category keyword : option string) :
  Auth.isAuthorized role (Some "read") = Ok true ->
  throwsOnly onceAuthorized (Model.getAllNotes role tags category keyword).
Proof.
  intros Hauth. unfold Model.getAllNotes.
  rewrite (authorize_when_allowed _ _ Hauth), bind_ret_l.
  apply (throwsOnly_weaken isFsError); [intros e He; left; now apply fs_is_platform|].
  apply throwsOnly_bind; [apply ensureNotesDirectory_throws|intros _].
  apply throwsOnly_bind; [apply getAllNotesInternal_throws|intros notes].
  apply throwsOnly_ret.
Qed.

Lemma getNoteById_once_authorized (role : option string) (noteId : string) :
  Auth.isAuthorized role (Some "read") = Ok true ->
  throwsOnly onceAuthorized (Model.getNoteById role noteId).
Proof.
  intros Hauth. unfold Model.getNoteById.
  rewrite (authorize_when_allowed _ _ Hauth), bind_ret_l.
  apply throwsOnly_bind; [apply validatePath_throws|intros _].
  apply (throwsOnly_tryCatch isFsError).
  - apply throwsOnly_bind; [apply readFile_throws|intros c; apply throwsOnly_ret].
  - intros e He. apply notFoundIsNull_rethrows. left. now apply fs_is_platform.
Qed.

Lemma searchNotes_once_authorized (role : option string) (query : string)
  (fs : Model.filters) :
  Auth.isAuthorized role (Some "read") = Ok true ->
  throwsOnly onceAuthorized (Model.searchNotes role query fs).
Proof.
  intros Hauth. unfold Model.searchNotes.
  rewrite (authorize_when_allowed _ _ Hauth), bind_ret_l.
  apply throwsOnly_bind.
  - apply (throwsOnly_weaken isFsError);
      [intros e He; left; now apply fs_is_platform|].
    apply getAllNotesInternal_throws.
  - intros notes. apply throwsOnly_lift. intros e He. left.
    now apply (rank_throws _ _ _ He).
Qed.

(** C3.  The role analytics passes the authorization check of the three
    reading functions, whatever their arguments and the state of the file
    system: they never end with the permission error.  The four functions
    that change notes end with that error for analytics, and the file
    system has then neither changed nor been called. *)
Theorem C3_analytics_permission_matrix :
  (forall w, Model.authorize (Some "analytics") "read" w = (Ok tt, w)) /\
  (forall tags category keyword w,
      fst (Model.getAllNotes (Some "analytics") tags category keyword w)
      <> Throw permissionDenied) /\
  (forall noteId w,
      fst (Model.getNoteById (Some "analytics") noteId w)
      <> Throw permissionDenied) /\
  (forall query fs w,
      fst (Model.searchNotes (Some "analytics") query fs w)
      <> Throw permissionDenied) /\
  (forall title content tags category author w,
      Model.createNote (Some "analytics") title content tags category author w
      = (Throw permissionDenied, w)) /\
  (forall noteId title content tags w,
      Model.updateNote (Some "analytics") noteId title content tags w
      = (Throw permissionDenied, w)) /\
  (forall noteId content w,
      Model.appendToNote (Some "analytics") noteId content w
      = (Throw permissionDenied, w)) /\
  (forall noteId shouldArchive w,
      Model.deleteNote (Some "analytics") noteId shouldArchive w
      = (Throw permissionDenied, w)).
Proof.
  assert (Hread : Auth.isAuthorized (Some "analytics") (Some "read") = Ok true)
    by reflexivity.
  assert (Hnot : forall (A : Type) (m : M A) w,
             throwsOnly onceAuthorized m -> fst (m w) <> Throw permissionDenied).
  { intros A m w Hm Heq. destruct (m w) as [r w'] eqn:Hmw. simpl in Heq. subst r.
    exact (onceAuthorized_not_denied _ (Hm _ _ _ Hmw) eq_refl). }
  split; [reflexivity|].
  split; [intros; apply Hnot, getAllNotes_once_authorized, Hread|].
  split; [intros; apply Hnot, getNoteById_once_authorized, Hread|].
  split; [intros; apply Hnot, searchNotes_once_authorized, Hread|].
  repeat split; reflexivity.
Qed.

End Analytics.

(** ** Sorting *)

Lemma insertBy_perm {A : Type} (cmp : A -> A -> Z) (x : A) (l : list A) :
  Permutation (x :: l) (insertBy cmp x l).
Proof.
  induction l as [|y l IH]; simpl; [apply Permutation_refl|].
  destruct (cmp x y <=? 0)%Z; [apply Permutation_refl|].
  eapply perm_trans; [apply perm_swap|]. now apply perm_skip.
Qed.

Lemma sortBy_perm {A : Type} (cmp : A -> A -> Z) (l : list A) :
  Permutation l (sortBy cmp l).
Proof.
  induction l as [|x l IH]; simpl; [apply perm_nil|].
  eapply perm_trans; [apply perm_skip, IH|apply insertBy_perm].
Qed.

Lemma sortBy_In {A : Type} (cmp : A -> A -> Z) (l : list A) (x : A) :
  In x (sortBy cmp l) <-> In x l.
Proof.
  split; apply Permutation_in;
    [apply Permutation_sym|]; apply sortBy_perm.
Qed.

(** ** Creating a note: validation *)

Section Validation.
Context `{Host}.

(** C9 (amended).  The empty title or content is refused by the
    controller's [createNote], which answers 400 without calling the model:
    the file system is neither changed nor called.  The model's
    [createNote] checks the permission, and nothing else, before it goes to
    the file system. *)
Theorem C9_validation_is_in_the_controller
  (req : Controller.request) (role : option string) (title content : string)
  (tags : list string) (category author : string) (w : Fs.world) :
  (Str.truthy_opt (Controller.b_title (Controller.req_body req)) = false
   \/ Str.truthy_opt (Controller.b_content (Controller.req_body req)) = false ->
   Controller.createNote req w
   = (Ok (Controller.JsonError 400 "Title and content are required"), w))
  /\ (Auth.isAuthorized role (Some "create") = Ok false ->
      Model.createNote role title content tags category author w
      = (Throw permissionDenied, w)).
Proof.
  split.
  - intros Hfalsy. unfold Controller.createNote, tryCatch.
    destruct (Controller.b_title (Controller.req_body req)) as [t|];
      destruct (Controller.b_content (Controller.req_body req)) as [c|];
      try reflexivity.
    simpl in Hfalsy. destruct Hfalsy as [Ht|Hc].
    + rewrite Ht. reflexivity.
    + rewrite Hc, orb_true_r. reflexivity.
  - intros Hauth. unfold Model.createNote.
    rewrite (authorize_when_refused _ _ Hauth). reflexivity.
Qed.

End Validation.

Lemma C9_validation_witness :
  (false = false \/ Str.truthy_opt (Some "body") = false ->
   Controller.createNote (H := refHost)
     (Controller.mkRequest (Controller.mkAgent "admin" None)
        (Controller.mkBody (Some EmptyString) (Some "body") None None)) Ex.fresh
   = (Ok (Controller.JsonError 400 "Title and content are required"), Ex.fresh))
  /\ (Auth.isAuthorized (Some "analytics") (Some "create") = Ok false ->
      Model.createNote (H := refHost) (Some "analytics") "t" "c" [] "topics" "bob"
        Ex.fresh
      = (Throw permissionDenied, Ex.fresh)).
Proof.
  exact (C9_validation_is_in_the_controller (H := refHost)
           (Controller.mkRequest (Controller.mkAgent "admin" None)
              (Controller.mkBody (Some EmptyString) (Some "body") None None))
           (Some "analytics") "t" "c" [] "topics" "bob" Ex.fresh).
Defined.

(** The model's [createNote], called with an empty title by a role that
    may create, does not fail: it makes the directories and writes a file
    whose name has an empty slug. *)
Lemma C9_model_createNote_does_not_validate :
  fst (Model.createNote (H := refHost) (Some "admin") EmptyString "body" []
         "topics" "bob" Ex.fresh)
  = Ok (Model.mkCreated "topics/2025-03-15_.md" EmptyString
          "notes/topics/2025-03-15_.md" "2025-03-15")
  /\ Fs.log (snd (Model.createNote (H := refHost) (Some "admin") EmptyString
                    "body" [] "topics" "bob" Ex.fresh))
     = [ Fs.Access "./notes"; Fs.Mkdir "./notes"; Fs.Mkdir "notes/topics";
         Fs.Mkdir "notes/projects"; Fs.Mkdir "notes/references";
         Fs.Mkdir "notes/archive"; Fs.Mkdir "notes/topics";
         Fs.WriteFile "notes/topics/2025-03-15_.md"
           (Fmt.formatNoteContent (H := refHost)
              (Md.mk (Some "2025-03-15") (Some []) (Some []) (Some "bob") None)
              EmptyString "body") ].
Proof. split; vm_compute; reflexivity. Qed.

(** ** Search: the date range *)

Lemma lt_is_not_leb (a b : string) : Str.lt a b = negb (String.leb b a).
Proof.
  unfold Str.lt, String.leb. rewrite (String.compare_antisym a b).
  destruct (String.compare b a); reflexivity.
Qed.

Lemma numberLt_NaN_r (x : Md.number) : Md.numberLt x Md.NaN = false.
Proof. destruct x as [|[]|a b]; reflexivity. Qed.

Section Search.
Context `{Host}.

Lemma dateTest_dated (range : Model.dateRange) (d : string) :
  dateTest range (Some (Md.VString d)) = withinRange range d.
Proof.
  unfold dateTest, withinRange, leStr, Model.gt, Model.lt.
  destruct range as [[s|] [e|]]; simpl; rewrite ?lt_is_not_leb;
    repeat match goal with
    | |- context [Str.truthy ?x] => destruct (Str.truthy x)
    | |- context [String.leb ?x ?y] => destruct (String.leb x y)
    end; reflexivity.
Qed.

Lemma dateTest_undated (range : Model.dateRange) : dateTest range None = true.
Proof.
  unfold dateTest, Model.gt, Model.lt.
  destruct range as [[s|] [e|]]; simpl;
    rewrite ?numberLt_NaN_r, ?andb_false_r; reflexivity.
Qed.

Lemma dateTest_numeric (range : Model.dateRange) (v : Md.value) :
  numeric v -> notNumber (Model.start range) -> notNumber (Model.end_ range) ->
  dateTest range (Some v) = true.
Proof.
  intros [x Hx] Hs He. unfold dateTest, Model.gt, Model.lt. rewrite Hx.
  destruct range as [[s|] [e|]]; cbn [Model.start Model.end_] in *;
    cbn [Str.truthy_opt Model.bound option_map Model.comparand Model.numberOf
         andb];
    repeat match goal with
    | |- context [Str.truthy ?b] =>
        let Hb := fresh "Hb" in
        destruct (Str.truthy b) eqn:Hb; cbn [andb]
    end;
    rewrite ?(Hs _ eq_refl) by assumption;
    rewrite ?(He _ eq_refl) by assumption;
    cbn [Md.numberLt]; rewrite ?numberLt_NaN_r; reflexivity.
Qed.

Lemma bound_test (b : option string) (f : option Md.value -> bool) :
  Str.truthy_opt b && f (Model.bound b) = false
  <-> forall s, b = Some s -> Str.truthy s = true ->
        f (Some (Md.VString s)) = false.
Proof.
  destruct b as [s|]; simpl.
  - split.
    + intros Ht s' [= <-] Hts. now rewrite Hts in Ht.
    + intros Hb. destruct (Str.truthy s) eqn:Hts; [|reflexivity].
      now apply Hb.
  - split; [discriminate|reflexivity].
Qed.

Lemma dateTest_iff (range : Model.dateRange) (v : option Md.value) :
  dateTest range v = true
  <-> (forall s, Model.start range = Some s -> Str.truthy s = true ->
         Model.lt v (Some (Md.VString s)) = false)
      /\ (forall e, Model.end_ range = Some e -> Str.truthy e = true ->
            Model.gt v (Some (Md.VString e)) = false).
Proof.
  rewrite <- (bound_test (Model.start range) (Model.lt v)).
  rewrite <- (bound_test (Model.end_ range) (Model.gt v)).
  unfold dateTest.
  destruct (Str.truthy_opt (Model.start range)
            && Model.lt v (Model.bound (Model.start range)));
    destruct (Str.truthy_opt (Model.end_ range)
              && Model.gt v (Model.bound (Model.end_ range)));
    intuition congruence.
Qed.

(** What the date range adds to the other tests of the search filter. *)
Lemma keeps_dateRange (query : string) (tags : option (list string))
  (category : option string) (range : Model.dateRange) (n : Note.t) :
  Model.keeps query (Model.mkFilters tags category (Some range)) n
  = Model.keeps query (Model.mkFilters tags category None) n
    && dateTest range (Md.date (Note.metadata n)).
Proof.
  unfold Model.keeps, dateTest.
  cbn [Model.f_tags Model.f_category Model.f_dateRange].
  repeat match goal with
  | |- context [if ?c then false else _] =>
      destruct c; [reflexivity|]
  end. reflexivity.
Qed.

Lemma rank_In (query : string) (results ranked : list Note.t) (n : Note.t) :
  Model.rank query results = Ok ranked -> (In n ranked <-> In n results).
Proof.
  unfold Model.rank. destruct results as [|a [|b l]].
  - intros [= <-]. tauto.
  - intros [= <-]. tauto.
  - destruct (RegExp_g (Str.toLowerCase query)) as [re|e]; [|discriminate].
    intros [= <-]. exact (sortBy_In (Model.byRelevance re) (a :: b :: l) n).
Qed.

(** The notes that [searchNotes] returns are the notes of the directory
    that pass the filter. *)
Lemma searchNotes_exactly (role : option string) (query : string)
  (fs : Model.filters) (w w' : Fs.world) (notes : list Note.t) :
  Model.searchNotes role query fs w = (Ok notes, w') ->
  exists allNotes w0,
    Model.getAllNotesInternal w = (Ok allNotes, w0)
    /\ forall n, In n notes <-> In n allNotes /\ Model.keeps query fs n = true.
Proof.
  unfold Model.searchNotes. intros Hs.
  destruct (Auth.isAuthorized role (Some "read")) as [[|]|e] eqn:Hauth.
  - rewrite (authorize_when_allowed _ _ Hauth), bind_ret_l in Hs.
    unfold bind, lift in Hs.
    destruct (Model.getAllNotesInternal w) as [[allNotes|e] w0]; [|discriminate].
    destruct (Model.rank query (filter (Model.keeps query fs) allNotes))
      as [ranked|e] eqn:Hrank; [|discriminate].
    injection Hs as <- _. exists allNotes, w0. split; [reflexivity|].
    intros n. rewrite (rank_In _ _ _ n Hrank). apply filter_In.
  - rewrite (authorize_when_refused _ _ Hauth) in Hs. discriminate.
  - unfold Model.authorize, bind, lift in Hs. rewrite Hauth in Hs. discriminate.
Qed.

(** Every note that [searchNotes] returns passed the filter. *)
Lemma searchNotes_keeps (role : option string) (query : string)
  (fs : Model.filters) (w w' : Fs.world) (notes : list Note.t) (n : Note.t) :
  Model.searchNotes role query fs w = (Ok notes, w') ->
  In n notes -> Model.keeps query fs n = true.
Proof.
  intros Hs Hin. destruct (searchNotes_exactly _ _ _ _ _ _ Hs) as (l & w0 & _ & Hl).
  now apply Hl in Hin.
Qed.

(** C7 (amended).  With a date range among the filters, the bounds being
    strings, [searchNotes] returns exactly the notes of the directory that
    the other tests retain and that pass the two comparisons of the range
    with the bounds that are given, an empty bound being none.  For a note
    whose date is a string this is: the date lies within the bounds, both
    inclusive, strings compared by code units.  A note without a date is
    not touched by the range: it is returned exactly when the other tests
    retain it.  So is a note whose date is a Date (as js-yaml loads a day
    written without quotes), a number, a boolean or [null], when no bound
    reads as a number: the comparison is then one of Numbers, with NaN. *)
Theorem C7_dateRange_filter
  (role : option string) (query : string) (tags : option (list string))
  (category : option string) (range : Model.dateRange)
  (w w' : Fs.world) (notes : list Note.t) :
  Model.searchNotes role query (Model.mkFilters tags category (Some range)) w
  = (Ok notes, w') ->
  exists allNotes w0,
    Model.getAllNotesInternal w = (Ok allNotes, w0)
    /\ forall n,
         let date := Md.date (Note.metadata n) in
         let otherwise :=
           In n allNotes
           /\ Model.keeps query (Model.mkFilters tags category None) n = true in
         (In n notes <->
            otherwise
            /\ (forall s, Model.start range = Some s -> Str.truthy s = true ->
                  Model.lt date (Some (Md.VString s)) = false)
            /\ (forall e, Model.end_ range = Some e -> Str.truthy e = true ->
                  Model.gt date (Some (Md.VString e)) = false))
         /\ (forall d, date = Some (Md.VString d) ->
               (In n notes <-> otherwise /\ withinRange range d = true))
         /\ (date = None -> (In n notes <-> otherwise))
         /\ (forall v, date = Some v -> numeric v ->
               notNumber (Model.start range) -> notNumber (Model.end_ range) ->
               (In n notes <-> otherwise)).
Proof.
  intros Hs.
  destruct (searchNotes_exactly _ _ _ _ _ _ Hs) as (allNotes & w0 & Hall & Hn).
  exists allNotes, w0. split; [exact Hall|]. intros n. cbv zeta.
  assert (Hiff : In n notes <->
            (In n allNotes
             /\ Model.keeps query (Model.mkFilters tags category None) n = true)
            /\ dateTest range (Md.date (Note.metadata n)) = true).
  { rewrite Hn, keeps_dateRange, andb_true_iff. tauto. }
  split; [|split; [|split]].
  - rewrite Hiff. apply and_iff_compat_l. apply dateTest_iff.
  - intros d Hd. rewrite Hiff, Hd, dateTest_dated. tauto.
  - intros Hd. rewrite Hiff, Hd, dateTest_undated. tauto.
  - intros v Hd Hv Hstart Hend.
    rewrite Hiff, Hd, (dateTest_numeric _ _ Hv Hstart Hend). tauto.
Qed.

End Search.

(** Two notes match the query, one of 2024 and one without a date.  A
    range that starts in 2025 drops the first and retains the second: the
    claim has it excluded. *)
Lemma C7_undated_note_is_retained :
  fst (Model.searchNotes (H := refHost) (Some "admin") "alpha" Model.noFilters
         Ex.dates)
  = Ok [Ex.undatedNote; Ex.oldNote]
  /\ fst (Model.searchNotes (H := refHost) (Some "admin") "alpha" Ex.from2025
            Ex.dates)
     = Ok [Ex.undatedNote].
Proof. split; vm_compute; reflexivity. Qed.

(** Two notes of 2024-12-31 match the query; the first has its date
    without quotes, as the documentation writes it, and js-yaml makes a
    Date of it.  A range that starts in 2025 drops the second and retains
    the first. *)
Lemma C7_date_without_quotes_is_retained :
  fst (Model.searchNotes (H := refHost) (Some "admin") "alpha" Model.noFilters
         Ex.documented)
  = Ok [Ex.plainNote; Ex.oldNote]
  /\ fst (Model.searchNotes (H := refHost) (Some "admin") "alpha" Ex.from2025
            Ex.documented)
     = Ok [Ex.plainNote].
Proof. split; vm_compute; reflexivity. Qed.

Lemma C7_dateRange_witness :
  exists allNotes w0,
    Model.getAllNotesInternal (H := refHost) Ex.dates = (Ok allNotes, w0)
    /\ (In Ex.oldNote [Ex.undatedNote; Ex.oldNote] <->
          (In Ex.oldNote allNotes
           /\ Model.keeps (H := refHost) "alpha" (Model.mkFilters None None None)
                Ex.oldNote = true)
          /\ withinRange Ex.until2024 "2024-12-31" = true)
    /\ (In Ex.undatedNote [Ex.undatedNote; Ex.oldNote] <->
          In Ex.undatedNote allNotes
          /\ Model.keeps (H := refHost) "alpha" (Model.mkFilters None None None)
               Ex.undatedNote = true).
Proof.
  destruct (C7_dateRange_filter (H := refHost) (Some "admin") "alpha" None None
              Ex.until2024 Ex.dates
              (snd (Model.searchNotes (H := refHost) (Some "admin") "alpha"
                      (Model.mkFilters None None (Some Ex.until2024)) Ex.dates))
              [Ex.undatedNote; Ex.oldNote])
    as (allNotes & w0 & Hall & Hn).
  - vm_compute. reflexivity.
  - exists allNotes, w0. split; [exact Hall|]. split.
    + destruct (Hn Ex.oldNote) as (_ & Hd & _). apply Hd. reflexivity.
    + destruct (Hn Ex.undatedNote) as (_ & _ & Hd & _). apply Hd. reflexivity.
Defined.

(** ** Strings: append, prefix, slices *)

Lemma sapp_assoc (a b c : string) : ((a ++ b) ++ c = a ++ (b ++ c))%string.
Proof. induction a as [|x a IH]; simpl; [reflexivity|now rewrite IH]. Qed.

Lemma sapp_nil_r (a : string) : (a ++ EmptyString)%string = a.
Proof. induction a as [|x a IH]; simpl; [reflexivity|now rewrite IH]. Qed.

Lemma slength_app (a b : string) :
  String.length (a ++ b) = String.length a + String.length b.
Proof. induction a as [|x a IH]; simpl; [reflexivity|now rewrite IH]. Qed.

Lemma prefix_nil (x : string) : String.prefix EmptyString x = true.
Proof. now destruct x. Qed.

Lemma prefix_app (p x : string) : String.prefix p (p ++ x) = true.
Proof.
  induction p as [|c p IH]; simpl; [apply prefix_nil|].
  destruct (ascii_dec c c) as [_|Hn]; [exact IH|now elim Hn].
Qed.

Lemma prefix_app_long (p : string) :
  forall s x, String.length p <= String.length s ->
              String.prefix p (s ++ x) = String.prefix p s.
Proof.
  induction p as [|c p IH]; intros s x Hlen; [now rewrite !prefix_nil|].
  destruct s as [|d s]; simpl in *; [lia|].
  destruct (ascii_dec c d); [apply IH; lia|reflexivity].
Qed.

Lemma prefix_length (p : string) :
  forall s, String.prefix p s = true -> String.length p <= String.length s.
Proof.
  induction p as [|c p IH]; intros s; [simpl; lia|].
  destruct s as [|d s]; [discriminate|]. simpl.
  destruct (ascii_dec c d); [|discriminate].
  intros Hp. apply IH in Hp. lia.
Qed.

Lemma take_app (a b : string) : Str.take (String.length a) (a ++ b) = a.
Proof. induction a as [|x a IH]; simpl; [now destruct b|now rewrite IH]. Qed.

Lemma drop_app (a b : string) (n : nat) :
  Str.drop (String.length a + n) (a ++ b) = Str.drop n b.
Proof. induction a as [|x a IH]; simpl; [reflexivity|exact IH]. Qed.

Lemma indexOf_prefix (s p : string) :
  String.prefix p s = true -> Str.indexOf s p = Some 0.
Proof. intros Hp. destruct s; cbn [Str.indexOf]; now rewrite Hp. Qed.

(** The first place where [p] occurs in [a ++ p] is still the first when
    more text follows. *)
Lemma indexOf_app_stable (p : string) :
  forall a x, Str.indexOf (a ++ p) p = Some (String.length a) ->
              Str.indexOf (a ++ p ++ x) p = Some (String.length a).
Proof.
  induction a as [|c a IH]; intros x Hidx.
  - simpl. apply indexOf_prefix, prefix_app.
  - cbn [append Str.indexOf String.length] in *.
    destruct (String.prefix p (String c (a ++ p))) eqn:Hpre; [discriminate|].
    assert (Hlong : String.prefix p (String c (a ++ p ++ x)) = false).
    { destruct (String.prefix p (String c (a ++ p ++ x))) eqn:Hpre2;
        [|reflexivity].
      rewrite <- Hpre.
      change (String c (a ++ p ++ x)) with (String c a ++ p ++ x)%string in Hpre2.
      rewrite <- sapp_assoc in Hpre2.
      rewrite prefix_app_long in Hpre2; [symmetry; exact Hpre2|].
      rewrite slength_app. lia. }
    rewrite Hlong.
    destruct (Str.indexOf (a ++ p) p) as [i|] eqn:Hi; [|discriminate].
    injection Hidx as ->. now rewrite (IH x eq_refl).
Qed.

(** ** Paths: segments *)

Lemma split_nonempty (sep : ascii) (s : string) : Str.split sep s <> [].
Proof.
  destruct s as [|c s]; simpl; [discriminate|].
  destruct (Ascii.eqb c sep); [discriminate|].
  destruct (Str.split sep s); discriminate.
Qed.

Lemma split_app (sep : ascii) (a b : string) :
  Str.split sep (a ++ String sep b) = (Str.split sep a ++ Str.split sep b)%list.
Proof.
  induction a as [|c a IH]; simpl.
  - now rewrite Ascii.eqb_refl.
  - destruct (Ascii.eqb c sep); [now rewrite IH|].
    rewrite IH. pose proof (split_nonempty sep a) as Hne.
    destruct (Str.split sep a) as [|h t]; [now elim Hne|reflexivity].
Qed.

Lemma split_without_sep (sep : ascii) (s : string) :
  Re.inString sep s = false -> Str.split sep s = [s].
Proof.
  induction s as [|c s IH]; simpl; [reflexivity|].
  intros Hs. apply orb_false_iff in Hs. destruct Hs as [Hc Hs].
  rewrite Ascii.eqb_sym, Hc. now rewrite (IH Hs).
Qed.

Lemma split_elements_without_sep (sep : ascii) (s : string) :
  Forall (fun x => Re.inString sep x = false) (Str.split sep s).
Proof.
  induction s as [|c s IH]; simpl.
  - constructor; [reflexivity|constructor].
  - destruct (Ascii.eqb c sep) eqn:Hc.
    + constructor; [reflexivity|exact IH].
    + destruct (Str.split sep s) as [|h t]; inversion IH; subst.
      * constructor; [|constructor]. simpl. now rewrite Ascii.eqb_sym, Hc.
      * constructor; [|assumption]. simpl. now rewrite Ascii.eqb_sym, Hc.
Qed.

Lemma split_sepFree (s : string) : sepFree s -> Str.split Path.sep s = [s].
Proof. apply split_without_sep. Qed.

Lemma split_elements_sepFree (s : string) :
  Forall sepFree (Str.split Path.sep s).
Proof. apply split_elements_without_sep. Qed.

Lemma concat_cons2 (x y : string) (l : list string) :
  String.concat "/" (x :: y :: l)
  = (x ++ String Path.sep (String.concat "/" (y :: l)))%string.
Proof. reflexivity. Qed.

Lemma segments_concat (l : list string) :
  l <> [] -> Forall sepFree l -> Path.segments (String.concat "/" l) = l.
Proof.
  unfold Path.segments. induction l as [|x l IH]; intros Hne Hall; [now elim Hne|].
  inversion Hall as [|? ? Hx Hl]; subst.
  destruct l as [|y l].
  - now apply split_sepFree.
  - rewrite concat_cons2, split_app, (split_sepFree x Hx), IH;
      [reflexivity|discriminate|exact Hl].
Qed.

Lemma segments_slash (a b : string) :
  Path.segments (a ++ "/" ++ b) = (Path.segments a ++ Path.segments b)%list.
Proof. apply split_app. Qed.

(** ** Paths: normalization *)

Lemma normStep_skip (aa : bool) (st : list string) (s : string) :
  s = EmptyString \/ s = "." -> Path.normStep aa st s = st.
Proof. intros [->| ->]; reflexivity. Qed.

Lemma normStep_kept (aa : bool) (st : list string) (s : string) :
  kept s -> Path.normStep aa st s = s :: st.
Proof.
  intros (H1 & H2 & H3). unfold Path.normStep.
  apply String.eqb_neq in H1, H2, H3. now rewrite H1, H2, H3.
Qed.

Lemma normStep_pop (aa : bool) (st : list string) (top : string) :
  top <> ".." -> Path.normStep aa (top :: st) ".." = st.
Proof.
  intros Ht. unfold Path.normStep. simpl.
  apply String.eqb_neq in Ht. now rewrite Ht.
Qed.

Lemma normStep_cases (s : string) :
  (s = EmptyString \/ s = ".") \/ s = ".." \/ kept s.
Proof.
  destruct (String.eqb_spec s EmptyString); [tauto|].
  destruct (String.eqb_spec s "."); [tauto|].
  destruct (String.eqb_spec s ".."); [tauto|].
  right. right. repeat split; assumption.
Qed.

Lemma fold_kept (aa : bool) (l : list string) :
  forall st, Forall kept l ->
             fold_left (Path.normStep aa) l st = (rev l ++ st)%list.
Proof.
  induction l as [|x l IH]; intros st Hall; [reflexivity|].
  inversion Hall; subst. simpl.
  rewrite normStep_kept by assumption. rewrite IH by assumption.
  now rewrite <- app_assoc.
Qed.

Lemma normStep_false_kept (st : list string) (s : string) :
  Forall kept st -> Forall kept (Path.normStep false st s).
Proof.
  intros Hst. destruct (normStep_cases s) as [Hs|[->|Hs]].
  - now rewrite normStep_skip.
  - destruct st as [|top rest]; [constructor|].
    inversion Hst as [|? ? (_ & _ & Htop) Hrest]; subst.
    now rewrite normStep_pop.
  - rewrite normStep_kept by assumption. now constructor.
Qed.

Lemma fold_false_kept (l : list string) :
  forall st, Forall kept st -> Forall kept (fold_left (Path.normStep false) l st).
Proof.
  induction l as [|x l IH]; intros st Hst; [exact Hst|].
  simpl. apply IH. now apply normStep_false_kept.
Qed.

Lemma normStep_pushed (aa : bool) (st : list string) (s : string) :
  Forall pushed st -> Forall pushed (Path.normStep aa st s).
Proof.
  intros Hst. destruct (normStep_cases s) as [Hs|[->|Hs]].
  - now rewrite normStep_skip.
  - unfold Path.normStep. simpl.
    destruct st as [|top rest].
    + destruct aa; constructor; [split; discriminate|constructor].
    + inversion Hst; subst.
      destruct (String.eqb top ".."); [|assumption].
      destruct aa; [|assumption].
      constructor; [split; discriminate|assumption].
  - rewrite normStep_kept by assumption. constructor; [|assumption].
    destruct Hs as (H1 & H2 & _). now split.
Qed.

Lemma fold_pushed (aa : bool) (l : list string) :
  forall st, Forall pushed st -> Forall pushed (fold_left (Path.normStep aa) l st).
Proof.
  induction l as [|x l IH]; intros st Hst; [exact Hst|].
  simpl. apply IH. now apply normStep_pushed.
Qed.

Lemma normStep_sepFree (aa : bool) (st : list string) (s : string) :
  sepFree s -> Forall sepFree st -> Forall sepFree (Path.normStep aa st s).
Proof.
  intros Hs Hst. unfold Path.normStep.
  destruct (_ || _); [assumption|].
  destruct (String.eqb s "..").
  - destruct st as [|top rest].
    + destruct aa; [constructor; [assumption|constructor]|constructor].
    + inversion Hst; subst.
      destruct (String.eqb top ".."); [|assumption].
      destruct aa; [now constructor|assumption].
  - now constructor.
Qed.

Lemma fold_sepFree (aa : bool) (l : list string) :
  forall st, Forall sepFree l -> Forall sepFree st ->
             Forall sepFree (fold_left (Path.normStep aa) l st).
Proof.
  induction l as [|x l IH]; intros st Hl Hst; [exact Hst|].
  inversion Hl; subst. simpl. apply IH; [assumption|].
  now apply normStep_sepFree.
Qed.

(** Normalizing a relative path first, with leading [..] allowed, does not
    change where it leads from a directory. *)
Lemma fold_renormalize (l : list string) :
  forall st,
    fold_left (Path.normStep false)
      (rev (fold_left (Path.normStep true) l [])) st
    = fold_left (Path.normStep false) l st.
Proof.
  induction l as [|y l IH] using rev_ind; intros st; [reflexivity|].
  rewrite !fold_left_app. simpl.
  rewrite <- IH.
  pose proof (fold_pushed true l [] (Forall_nil _)) as Hinv.
  set (T := fold_left (Path.normStep true) l []) in *.
  destruct (normStep_cases y) as [Hy|[->|Hy]].
  - now rewrite !normStep_skip.
  - destruct T as [|top rest] eqn:HT.
    + reflexivity.
    + destruct (String.eqb_spec top "..") as [->|Htop].
      * change (Path.normStep true (".." :: rest) "..")
          with (".." :: ".." :: rest).
        change (rev (".." :: ".." :: rest))
          with (rev (".." :: rest) ++ [".."])%list.
        now rewrite fold_left_app.
      * rewrite normStep_pop by assumption.
        simpl. rewrite fold_left_app. simpl.
        inversion Hinv as [|? ? (Ht1 & Ht2) _]; subst.
        rewrite (normStep_kept false _ top) by (repeat split; assumption).
        now rewrite normStep_pop.
  - rewrite !normStep_kept by assumption.
    simpl. rewrite fold_left_app. simpl.
    now rewrite normStep_kept.
Qed.

(** ** Paths: resolve, join, relative *)

Lemma isAbsolute_cons (c : ascii) (s : string) :
  Path.isAbsolute (String c s) = Ascii.eqb c Path.sep.
Proof.
  unfold Path.isAbsolute, Str.startsWith. cbn [String.prefix].
  rewrite prefix_nil.
  destruct (ascii_dec "/" c) as [<-|Hn]; [reflexivity|].
  symmetry. apply Ascii.eqb_neq. intros ->. now apply Hn.
Qed.

Lemma isAbsolute_slash (q : string) : Path.isAbsolute ("/" ++ q) = true.
Proof. cbn [append]. now rewrite isAbsolute_cons. Qed.

Lemma isAbsolute_app (p q : string) :
  Str.truthy p = true -> Path.isAbsolute (p ++ q) = Path.isAbsolute p.
Proof.
  destruct p as [|c p]; [discriminate|]. intros _.
  cbn [append]. now rewrite !isAbsolute_cons.
Qed.

Lemma normSegs_kept_false (l : list string) : Forall kept (Path.normSegs false l).
Proof.
  unfold Path.normSegs. apply Forall_rev, fold_false_kept. constructor.
Qed.

Lemma normSegs_pushed (aa : bool) (l : list string) :
  Forall pushed (Path.normSegs aa l).
Proof.
  unfold Path.normSegs. apply Forall_rev, fold_pushed. constructor.
Qed.

Lemma normSegs_sepFree (aa : bool) (l : list string) :
  Forall sepFree l -> Forall sepFree (Path.normSegs aa l).
Proof.
  intros Hl. unfold Path.normSegs. apply Forall_rev, fold_sepFree;
    [assumption|constructor].
Qed.

Lemma normSegs_of_kept (aa : bool) (l : list string) :
  Forall kept l -> Path.normSegs aa l = l.
Proof.
  intros Hl. unfold Path.normSegs. rewrite fold_kept by assumption.
  now rewrite app_nil_r, rev_involutive.
Qed.

Lemma normSegs_app (aa : bool) (a b : list string) :
  Path.normSegs aa (a ++ b)
  = rev (fold_left (Path.normStep aa) b (rev (Path.normSegs aa a))).
Proof.
  unfold Path.normSegs. now rewrite fold_left_app, rev_involutive.
Qed.

Lemma normSegs_snoc_skip (aa : bool) (a : list string) (s : string) :
  s = EmptyString \/ s = "." ->
  Path.normSegs aa (a ++ [s]) = Path.normSegs aa a.
Proof.
  intros Hs. rewrite normSegs_app. simpl.
  rewrite normStep_skip by assumption. apply rev_involutive.
Qed.

Lemma normSegs_cons_skip (aa : bool) (a : list string) (s : string) :
  s = EmptyString \/ s = "." ->
  Path.normSegs aa (s :: a) = Path.normSegs aa a.
Proof.
  intros Hs. unfold Path.normSegs. simpl. now rewrite normStep_skip.
Qed.

Section Resolve.
Variable cwd : string.

Lemma resolveSegs_absolute (p : string) :
  Path.isAbsolute p = true ->
  Path.resolveSegs cwd p = Path.normSegs false (Path.segments p).
Proof. intros Hp. unfold Path.resolveSegs. now rewrite Hp. Qed.

Lemma resolveSegs_relative (p : string) :
  Path.isAbsolute p = false ->
  Path.resolveSegs cwd p
  = rev (fold_left (Path.normStep false) (Path.segments p)
           (rev (Path.normSegs false (Path.segments cwd)))).
Proof.
  intros Hp. unfold Path.resolveSegs. rewrite Hp.
  now rewrite segments_slash, normSegs_app.
Qed.

Lemma resolveSegs_kept (p : string) : Forall kept (Path.resolveSegs cwd p).
Proof.
  unfold Path.resolveSegs. destruct (Path.isAbsolute p); apply normSegs_kept_false.
Qed.

Lemma resolveSegs_sepFree (p : string) : Forall sepFree (Path.resolveSegs cwd p).
Proof.
  unfold Path.resolveSegs.
  destruct (Path.isAbsolute p); apply normSegs_sepFree, split_elements_sepFree.
Qed.

Lemma concat_head (h : string) (t : list string) :
  h <> EmptyString ->
  exists c r, String.concat "/" (h :: t) = String c r
              /\ exists h', h = String c h'.
Proof.
  intros Hh. destruct h as [|c h']; [now elim Hh|].
  destruct t as [|y t]; simpl; eauto.
Qed.

Lemma sepFree_head (c : ascii) (h : string) :
  sepFree (String c h) -> Ascii.eqb c Path.sep = false.
Proof.
  unfold sepFree. cbn [Re.inString]. intros Hs.
  apply orb_false_iff in Hs. rewrite Ascii.eqb_sym. tauto.
Qed.

Lemma segments_trailing (q : string) (trailing : bool) :
  Path.segments (if trailing then q ++ "/" else q)
  = (Path.segments q ++ (if trailing then [EmptyString] else []))%list.
Proof.
  destruct trailing; [|now rewrite app_nil_r].
  change (q ++ "/")%string with (q ++ "/" ++ EmptyString)%string.
  now rewrite segments_slash.
Qed.

Lemma fold_trailing (aa trailing : bool) (l st : list string) :
  fold_left (Path.normStep aa)
    (l ++ (if trailing then [EmptyString] else []))%list st
  = fold_left (Path.normStep aa) l st.
Proof.
  destruct trailing; [|now rewrite app_nil_r].
  rewrite fold_left_app. reflexivity.
Qed.

Lemma normalize_truthy (P : string) :
  Str.truthy P = true ->
  Path.normalize P
  = match Path.normalizeString P (negb (Path.isAbsolute P)) with
    | EmptyString =>
        if Path.isAbsolute P then "/"
        else if Str.endsWith P "/" then "./" else "."
    | String _ _ =>
        if Path.isAbsolute P
        then ("/" ++ (if Str.endsWith P "/"
                      then Path.normalizeString P (negb (Path.isAbsolute P)) ++ "/"
                      else Path.normalizeString P (negb (Path.isAbsolute P))))%string
        else (if Str.endsWith P "/"
              then Path.normalizeString P (negb (Path.isAbsolute P)) ++ "/"
              else Path.normalizeString P (negb (Path.isAbsolute P)))%string
    end.
Proof. destruct P; [discriminate|reflexivity]. Qed.

(** [path.resolve] does not see whether its argument was normalized. *)
Lemma resolve_normalize (p : string) :
  Path.resolveSegs cwd (Path.normalize p) = Path.resolveSegs cwd p.
Proof.
  destruct p as [|c0 p0].
  - unfold Path.normalize.
    rewrite !resolveSegs_relative by reflexivity. reflexivity.
  - rewrite normalize_truthy by reflexivity.
    set (P := String c0 p0).
    unfold Path.normalizeString.
    pose proof (normSegs_pushed (negb (Path.isAbsolute P)) (Path.segments P)) as Hpushed.
    pose proof (normSegs_sepFree (negb (Path.isAbsolute P)) (Path.segments P)
                  (split_elements_sepFree P)) as Hfree.
    destruct (Path.isAbsolute P) eqn:Habs; cbn [negb] in *.
    + rewrite (resolveSegs_absolute P Habs).
      pose proof (normSegs_kept_false (Path.segments P)) as Hkept.
      destruct (Path.normSegs false (Path.segments P)) as [|h t] eqn:HN.
      * reflexivity.
      * inversion Hpushed as [|? ? (Hh & _) _]; subst.
        destruct (concat_head h t Hh) as (c & r & Hq & _). rewrite Hq, <- Hq.
        rewrite resolveSegs_absolute by apply isAbsolute_slash.
        change ("/" ++ (if Str.endsWith P "/"
                        then String.concat "/" (h :: t) ++ "/"
                        else String.concat "/" (h :: t)))%string
          with (EmptyString ++ "/" ++ (if Str.endsWith P "/"
                        then String.concat "/" (h :: t) ++ "/"
                        else String.concat "/" (h :: t)))%string.
        rewrite segments_slash, segments_trailing.
        rewrite segments_concat by (assumption || discriminate).
        change (Path.segments EmptyString) with [EmptyString].
        change ([EmptyString] ++ ?l)%list with (EmptyString :: l).
        rewrite normSegs_cons_skip by (now left).
        unfold Path.normSegs. rewrite fold_trailing.
        rewrite fold_kept by assumption. now rewrite app_nil_r, rev_involutive.
    + rewrite (resolveSegs_relative P Habs).
      rewrite <- fold_renormalize.
      fold (Path.normSegs true (Path.segments P)).
      destruct (Path.normSegs true (Path.segments P)) as [|h t] eqn:HN.
      * cbn [String.concat].
        destruct (Str.endsWith P "/");
          rewrite resolveSegs_relative by reflexivity; reflexivity.
      * inversion Hpushed as [|? ? (Hh & _) _]; subst.
        inversion Hfree as [|? ? Hhf _]; subst.
        destruct (concat_head h t Hh) as (c & r & Hq & h' & ->).
        rewrite Hq, <- Hq.
        rewrite resolveSegs_relative.
        -- rewrite segments_trailing, fold_trailing.
           now rewrite segments_concat by (assumption || discriminate).
        -- destruct (Str.endsWith P "/"); rewrite Hq; cbn [append];
             rewrite isAbsolute_cons; now apply (sepFree_head c h').
Qed.

End Resolve.

Section ResolveJoin.
Variable cwd : string.

Lemma resolve_slash (p q : string) :
  Str.truthy p = true ->
  Path.resolveSegs cwd (p ++ "/" ++ q) = resolveFrom (Path.resolveSegs cwd p) q.
Proof.
  intros Hp. unfold resolveFrom.
  destruct (Path.isAbsolute p) eqn:Habs.
  - rewrite resolveSegs_absolute by (now rewrite isAbsolute_app).
    rewrite (resolveSegs_absolute cwd p Habs).
    now rewrite segments_slash, normSegs_app.
  - rewrite resolveSegs_relative by (now rewrite isAbsolute_app).
    rewrite (resolveSegs_relative cwd p Habs).
    now rewrite segments_slash, fold_left_app, rev_involutive.
Qed.

Lemma resolveFrom_empty (base : list string) :
  resolveFrom base EmptyString = base.
Proof. unfold resolveFrom. simpl. apply rev_involutive. Qed.

Lemma resolve_join2 (a b : string) :
  Str.truthy a = true ->
  Path.resolveSegs cwd (Path.join [a; b]) = resolveFrom (Path.resolveSegs cwd a) b.
Proof.
  intros Ha. unfold Path.join. cbn [filter]. rewrite Ha.
  destruct b as [|c b].
  - cbn [Str.truthy String.concat]. rewrite resolve_normalize.
    now rewrite resolveFrom_empty.
  - cbn [Str.truthy String.concat]. rewrite resolve_normalize.
    now apply resolve_slash.
Qed.

Lemma resolve_join3 (a b c : string) :
  Str.truthy a = true -> Str.truthy b = true -> Str.truthy c = true ->
  Path.resolveSegs cwd (Path.join [a; b; c])
  = resolveFrom (resolveFrom (Path.resolveSegs cwd a) b) c.
Proof.
  intros Ha Hb Hc. unfold Path.join. cbn [filter]. rewrite Ha, Hb, Hc.
  cbn [String.concat]. rewrite resolve_normalize.
  replace (a ++ "/" ++ b ++ "/" ++ c)%string
    with ((a ++ "/" ++ b) ++ "/" ++ c)%string
    by (now rewrite !sapp_assoc).
  rewrite resolve_slash; [|destruct a; [discriminate|reflexivity]].
  now rewrite resolve_slash.
Qed.

End ResolveJoin.

Lemma plainSegment_kept (s : string) : plainSegment s = true -> kept s.
Proof.
  unfold plainSegment. rewrite !andb_true_iff, !negb_true_iff.
  intros (((H1 & H2) & H3) & _).
  apply String.eqb_neq in H1, H2, H3. repeat split; assumption.
Qed.

Lemma plainSegment_sepFree (s : string) : plainSegment s = true -> sepFree s.
Proof.
  unfold plainSegment. rewrite !andb_true_iff, !negb_true_iff. now intros (_ & H).
Qed.

Lemma plainSegment_truthy (s : string) : plainSegment s = true -> Str.truthy s = true.
Proof.
  intros Hs. apply plainSegment_kept in Hs. destruct Hs as (H & _).
  destruct s; [now elim H|reflexivity].
Qed.

Lemma resolveFrom_plain (base : list string) (s : string) :
  plainSegment s = true -> resolveFrom base s = (base ++ [s])%list.
Proof.
  intros Hs. unfold resolveFrom, Path.segments.
  rewrite (split_sepFree s (plainSegment_sepFree s Hs)). simpl.
  rewrite (normStep_kept false _ s (plainSegment_kept s Hs)).
  simpl. now rewrite rev_involutive.
Qed.

Lemma resolveFrom_kept_segments (base l : list string) (q : string) :
  Path.segments q = l -> Forall kept l -> resolveFrom base q = (base ++ l)%list.
Proof.
  intros Hq Hl. unfold resolveFrom. rewrite Hq, fold_kept by assumption.
  now rewrite rev_app_distr, !rev_involutive.
Qed.

Lemma concat_app (a b : list string) :
  a <> [] -> b <> [] ->
  String.concat "/" (a ++ b)
  = (String.concat "/" a ++ "/" ++ String.concat "/" b)%string.
Proof.
  induction a as [|x a IH]; intros Ha Hb; [now elim Ha|].
  destruct a as [|y a].
  - destruct b as [|z b]; [now elim Hb|reflexivity].
  - change ((x :: y :: a) ++ b)%list with (x :: (y :: a) ++ b)%list.
    change ((y :: a) ++ b)%list with (y :: a ++ b)%list at 1.
    rewrite concat_cons2.
    change (y :: a ++ b)%list with ((y :: a) ++ b)%list.
    rewrite IH by (assumption || discriminate).
    rewrite concat_cons2. now rewrite !sapp_assoc.
Qed.

Lemma ofSegs_prefix (R e : list string) :
  Str.startsWith (Path.ofSegs (R ++ e)) (Path.ofSegs R) = true.
Proof.
  unfold Str.startsWith, Path.ofSegs.
  destruct e as [|z e].
  { rewrite app_nil_r.
    pose proof (prefix_app ("/" ++ String.concat "/" R) EmptyString) as Hp.
    now rewrite sapp_nil_r in Hp. }
  destruct R as [|x R].
  - apply (prefix_app "/").
  - rewrite concat_app by discriminate.
    rewrite <- sapp_assoc. apply prefix_app.
Qed.

Lemma stripCommon_app (R e : list string) :
  Path.stripCommon R (R ++ e) = ([], e).
Proof.
  induction R as [|x R IH]; simpl; [now destruct e|].
  now rewrite String.eqb_refl.
Qed.

Section Relative.
Variable cwd : string.

(** When [to] resolves below [from], the relative path is what was added. *)
Lemma relative_below (from to : string) (e : list string) :
  Path.resolveSegs cwd to = (Path.resolveSegs cwd from ++ e)%list ->
  e <> [] ->
  Path.relative cwd from to = String.concat "/" e.
Proof.
  intros Hto He. unfold Path.relative.
  destruct (String.eqb_spec from to) as [->|_].
  - exfalso. apply He.
    apply (app_inv_head (Path.resolveSegs cwd to)). now rewrite app_nil_r.
  - now rewrite Hto, stripCommon_app.
Qed.

End Relative.

(** ** The file tree: entries *)

Lemma find_setEntry_same (k : string) (c : Fs.node) (es : list (string * Fs.node)) :
  Fs.find k (Fs.setEntry k c es) = Some c.
Proof.
  induction es as [|[k' v] es IH]; simpl.
  - now rewrite String.eqb_refl.
  - destruct (String.eqb k' k) eqn:Hk; simpl.
    + now rewrite String.eqb_refl.
    + now rewrite Hk.
Qed.

Lemma find_setEntry_other (k k' : string) (c : Fs.node)
  (es : list (string * Fs.node)) :
  k <> k' -> Fs.find k' (Fs.setEntry k c es) = Fs.find k' es.
Proof.
  intros Hne. induction es as [|[k0 v] es IH]; simpl.
  - apply String.eqb_neq in Hne. now rewrite Hne.
  - destruct (String.eqb_spec k0 k) as [->|Hk0]; simpl.
    + apply String.eqb_neq in Hne. now rewrite Hne.
    + now rewrite IH.
Qed.

Lemma find_delEntry_same (k : string) (es : list (string * Fs.node)) :
  Fs.find k (Fs.delEntry k es) = None.
Proof.
  induction es as [|[k' v] es IH]; simpl; [reflexivity|].
  destruct (String.eqb k' k) eqn:Hk; simpl; [exact IH|now rewrite Hk].
Qed.

Lemma find_delEntry_other (k k' : string) (es : list (string * Fs.node)) :
  k <> k' -> Fs.find k' (Fs.delEntry k es) = Fs.find k' es.
Proof.
  intros Hne. induction es as [|[k0 v] es IH]; simpl; [reflexivity|].
  destruct (String.eqb_spec k0 k) as [->|Hk0]; simpl.
  - apply String.eqb_neq in Hne. now rewrite Hne.
  - now rewrite IH.
Qed.

Lemma find_app (k : string) (es es' : list (string * Fs.node)) :
  Fs.find k (es ++ es')
  = match Fs.find k es with Some v => Some v | None => Fs.find k es' end.
Proof.
  induction es as [|[k0 v] es IH]; simpl; [reflexivity|].
  now destruct (String.eqb k0 k).
Qed.

(** ** The file tree: what happens below a directory *)

Lemma stat_app (R p : list string) :
  forall t, Fs.stat t (R ++ p)
            = match Fs.stat t R with
              | Ok r => Fs.stat r p
              | Throw e => Throw e
              end.
Proof.
  induction R as [|seg R IH]; intros t; [reflexivity|].
  simpl. destruct t as [c|es]; [reflexivity|].
  destruct (Fs.find seg es); [apply IH|reflexivity].
Qed.

Lemma put_step (es : list (string * Fs.node)) (seg s2 : string)
  (R : list string) (n : Fs.node) :
  Fs.put (Fs.Dir es) (seg :: s2 :: R) n
  = match Fs.find seg es with
    | None => Throw (FsError ENOENT)
    | Some c =>
        match Fs.put c (s2 :: R) n with
        | Ok c' => Ok (Fs.Dir (Fs.setEntry seg c' es))
        | Throw e => Throw e
        end
    end.
Proof. reflexivity. Qed.

Lemma remove_step (es : list (string * Fs.node)) (seg s2 : string)
  (R : list string) :
  Fs.remove (Fs.Dir es) (seg :: s2 :: R)
  = match Fs.find seg es with
    | None => Throw (FsError ENOENT)
    | Some c =>
        match Fs.remove c (s2 :: R) with
        | Ok c' => Ok (Fs.Dir (Fs.setEntry seg c' es))
        | Throw e => Throw e
        end
    end.
Proof. reflexivity. Qed.

Lemma mkdirp_step (es : list (string * Fs.node)) (seg : string)
  (R : list string) :
  Fs.mkdirp (Fs.Dir es) (seg :: R)
  = match Fs.find seg es with
    | None => Ok (Fs.Dir (es ++ [(seg, Fs.chain R)])%list)
    | Some c =>
        match Fs.mkdirp c R with
        | Ok c' => Ok (Fs.Dir (Fs.setEntry seg c' es))
        | Throw e => Throw e
        end
    end.
Proof. reflexivity. Qed.

(** Replacing the node at [R], which exists. *)
Lemma put_root (R : list string) :
  forall t r r', Fs.stat t R = Ok r ->
                 exists t', Fs.put t R r' = Ok t' /\ Fs.stat t' R = Ok r'.
Proof.
  induction R as [|seg R IH]; intros t r r' Hst.
  - exists r'. now split.
  - simpl in Hst. destruct t as [c|es]; [discriminate|].
    destruct (Fs.find seg es) as [c|] eqn:Hf; [|discriminate].
    destruct R as [|s2 R].
    + exists (Fs.Dir (Fs.setEntry seg r' es)). split; [reflexivity|].
      simpl. now rewrite find_setEntry_same.
    + destruct (IH c r r' Hst) as (c' & Hput & Hst').
      exists (Fs.Dir (Fs.setEntry seg c' es)). split.
      * now rewrite put_step, Hf, Hput.
      * cbn [Fs.stat]. now rewrite find_setEntry_same.
Qed.

Lemma put_app (R p : list string) (n : Fs.node) :
  p <> [] ->
  forall t r, Fs.stat t R = Ok r ->
    Fs.put t (R ++ p) n
    = match Fs.put r p n with
      | Ok r' => Fs.put t R r'
      | Throw e => Throw e
      end.
Proof.
  intros Hp. induction R as [|seg R IH]; intros t r Hst.
  - injection Hst as ->. simpl. now destruct (Fs.put r p n).
  - simpl in Hst. destruct t as [c|es]; [discriminate|].
    destruct (Fs.find seg es) as [c|] eqn:Hf; [|discriminate].
    change ((seg :: R) ++ p)%list with (seg :: (R ++ p))%list.
    destruct (R ++ p)%list as [|s2 l] eqn:Happ.
    { apply app_eq_nil in Happ. now elim Hp. }
    rewrite put_step, Hf, (IH c r Hst).
    destruct R as [|s3 R].
    + injection Hst as ->. simpl. now destruct (Fs.put r p n).
    + destruct (Fs.put r p n) as [r'|e]; [|reflexivity].
      now rewrite put_step, Hf.
Qed.

Lemma remove_app (R p : list string) :
  p <> [] ->
  forall t r, Fs.stat t R = Ok r ->
    Fs.remove t (R ++ p)
    = match Fs.remove r p with
      | Ok r' => Fs.put t R r'
      | Throw e => Throw e
      end.
Proof.
  intros Hp. induction R as [|seg R IH]; intros t r Hst.
  - injection Hst as ->. simpl. now destruct (Fs.remove r p).
  - simpl in Hst. destruct t as [c|es]; [discriminate|].
    destruct (Fs.find seg es) as [c|] eqn:Hf; [|discriminate].
    change ((seg :: R) ++ p)%list with (seg :: (R ++ p))%list.
    destruct (R ++ p)%list as [|s2 l] eqn:Happ.
    { apply app_eq_nil in Happ. now elim Hp. }
    rewrite remove_step, Hf, (IH c r Hst).
    destruct R as [|s3 R].
    + injection Hst as ->. simpl. now destruct (Fs.remove r p).
    + destruct (Fs.remove r p) as [r'|e]; [|reflexivity].
      now rewrite put_step, Hf.
Qed.

Lemma setEntry_same (k : string) (c : Fs.node) (es : list (string * Fs.node)) :
  Fs.find k es = Some c -> Fs.setEntry k c es = es.
Proof.
  induction es as [|[k0 v] es IH]; simpl; [discriminate|].
  destruct (String.eqb_spec k0 k) as [->|Hk0].
  - now intros [= ->].
  - intros Hf. now rewrite IH.
Qed.

Lemma put_same (R : list string) :
  forall t r, Fs.stat t R = Ok r -> Fs.put t R r = Ok t.
Proof.
  induction R as [|seg R IH]; intros t r Hst.
  - now injection Hst as ->.
  - simpl in Hst. destruct t as [c|es]; [discriminate|].
    destruct (Fs.find seg es) as [c|] eqn:Hf; [|discriminate].
    destruct R as [|s2 R].
    + injection Hst as ->. simpl. now rewrite setEntry_same.
    + rewrite put_step, Hf, (IH c r Hst). now rewrite setEntry_same.
Qed.

Lemma mkdirp_app (R p : list string) :
  forall t r, Fs.stat t R = Ok r ->
    Fs.mkdirp t (R ++ p)
    = match Fs.mkdirp r p with
      | Ok r' => Fs.put t R r'
      | Throw e => Throw e
      end.
Proof.
  induction R as [|seg R IH]; intros t r Hst.
  - injection Hst as ->. simpl. now destruct (Fs.mkdirp r p).
  - simpl in Hst. destruct t as [c|es]; [discriminate|].
    destruct (Fs.find seg es) as [c|] eqn:Hf; [|discriminate].
    change ((seg :: R) ++ p)%list with (seg :: (R ++ p))%list.
    rewrite mkdirp_step, Hf, (IH c r Hst).
    destruct R as [|s3 R].
    + injection Hst as ->. simpl. now destruct (Fs.mkdirp r p).
    + destruct (Fs.mkdirp r p) as [r'|e]; [|reflexivity].
      now rewrite put_step, Hf.
Qed.

Lemma segs_eqb_app (R a b : list string) :
  Fs.segs_eqb (R ++ a) (R ++ b) = Fs.segs_eqb a b.
Proof.
  induction R as [|x R IH]; simpl; [reflexivity|].
  now rewrite String.eqb_refl.
Qed.

Lemma isPrefix_app (R a b : list string) :
  Fs.isPrefix (R ++ a) (R ++ b) = Fs.isPrefix a b.
Proof.
  induction R as [|x R IH]; simpl; [reflexivity|].
  now rewrite String.eqb_refl.
Qed.

(** ** Moving a file from one directory of a node to another *)

Section MoveLocal.
Variables (T A X : string) (content : string).
Hypothesis T_not_A : T <> A.

Lemma move_local (es1 ts al : list (string * Fs.node)) :
  Fs.find T es1 = Some (Fs.Dir ts) ->
  Fs.find X ts = Some (Fs.File content) ->
  Fs.find A es1 = Some (Fs.Dir al) ->
  exists r2 r3,
    Fs.remove (Fs.Dir es1) [T; X] = Ok r2
    /\ Fs.put r2 [A; X] (Fs.File content) = Ok r3
    /\ Fs.stat r3 [A; X] = Ok (Fs.File content)
    /\ Fs.stat r3 [T; X] = Throw (FsError ENOENT).
Proof.
  intros HT HX HA.
  exists (Fs.Dir (Fs.setEntry T (Fs.Dir (Fs.delEntry X ts)) es1)).
  exists (Fs.Dir (Fs.setEntry A (Fs.Dir (Fs.setEntry X (Fs.File content) al))
                    (Fs.setEntry T (Fs.Dir (Fs.delEntry X ts)) es1))).
  assert (HA2 : Fs.find A (Fs.setEntry T (Fs.Dir (Fs.delEntry X ts)) es1)
                = Some (Fs.Dir al))
    by (now rewrite find_setEntry_other).
  repeat split.
  - rewrite remove_step, HT. simpl. now rewrite HX.
  - rewrite put_step, HA2. reflexivity.
  - simpl. rewrite find_setEntry_same. now rewrite find_setEntry_same.
  - simpl. rewrite find_setEntry_other by (intros Heq; now apply T_not_A).
    rewrite find_setEntry_same. now rewrite find_delEntry_same.
Qed.

(** The archive directory is made, unless it is there, and the file moves
    into it. *)
Lemma archive_local (root : Fs.node) :
  Fs.stat root [T; X] = Ok (Fs.File content) ->
  (forall c, Fs.stat root [A] <> Ok (Fs.File c)) ->
  (forall l, Fs.stat root [A; X] <> Ok (Fs.Dir l)) ->
  exists r1 r2 r3,
    Fs.mkdirp root [A] = Ok r1
    /\ Fs.stat r1 [T; X] = Ok (Fs.File content)
    /\ (Fs.stat r1 [A; X] = Throw (FsError ENOENT)
        \/ exists c, Fs.stat r1 [A; X] = Ok (Fs.File c))
    /\ Fs.remove r1 [T; X] = Ok r2
    /\ Fs.put r2 [A; X] (Fs.File content) = Ok r3
    /\ Fs.stat r3 [A; X] = Ok (Fs.File content)
    /\ Fs.stat r3 [T; X] = Throw (FsError ENOENT).
Proof.
  intros Hnote Harch Htarget.
  destruct root as [c|es]; [discriminate|].
  simpl in Hnote, Harch, Htarget.
  destruct (Fs.find T es) as [[c|ts]|] eqn:HT; try discriminate.
  destruct (Fs.find X ts) as [[c|l]|] eqn:HX; try discriminate.
  injection Hnote as ->.
  assert (Hgo : forall es1 al,
             Fs.find T es1 = Some (Fs.Dir ts) ->
             Fs.find A es1 = Some (Fs.Dir al) ->
             (forall l, Fs.find X al <> Some (Fs.Dir l)) ->
             Fs.mkdirp (Fs.Dir es) [A] = Ok (Fs.Dir es1) ->
             exists r1 r2 r3,
               Fs.mkdirp (Fs.Dir es) [A] = Ok r1
               /\ Fs.stat r1 [T; X] = Ok (Fs.File content)
               /\ (Fs.stat r1 [A; X] = Throw (FsError ENOENT)
                   \/ exists c, Fs.stat r1 [A; X] = Ok (Fs.File c))
               /\ Fs.remove r1 [T; X] = Ok r2
               /\ Fs.put r2 [A; X] (Fs.File content) = Ok r3
               /\ Fs.stat r3 [A; X] = Ok (Fs.File content)
               /\ Fs.stat r3 [T; X] = Throw (FsError ENOENT)).
  { intros es1 al HT1 HA1 Hal Hmk.
    destruct (move_local es1 ts al HT1 HX HA1) as (r2 & r3 & Hrm & Hput & Hs1 & Hs2).
    exists (Fs.Dir es1), r2, r3. repeat split; try assumption.
    - simpl. now rewrite HT1, HX.
    - simpl. rewrite HA1. destruct (Fs.find X al) as [[c|l]|] eqn:HXa.
      + right. now exists c.
      + now elim (Hal l).
      + now left. }
  destruct (Fs.find A es) as [[c|al]|] eqn:HA.
  - now elim (Harch c).
  - apply (Hgo (Fs.setEntry A (Fs.Dir al) es) al).
    + now rewrite find_setEntry_other by (intros Heq; now apply T_not_A).
    + apply find_setEntry_same.
    + intros l Hl. apply (Htarget l). now rewrite Hl.
    + rewrite mkdirp_step, HA. reflexivity.
  - apply (Hgo (es ++ [(A, Fs.Dir [])])%list []).
    + now rewrite find_app, HT.
    + rewrite find_app, HA. simpl. now rewrite String.eqb_refl.
    + discriminate.
    + rewrite mkdirp_step, HA. reflexivity.
Qed.

End MoveLocal.

(** ** Paths: the last segment of a joined path *)

Lemma pushed_truthy (s : string) : pushed s -> Str.truthy s = true.
Proof. intros (Hs & _). destruct s; [now elim Hs|reflexivity]. Qed.

Lemma kept_pushed (s : string) : kept s -> pushed s.
Proof. intros (H1 & H2 & _). now split. Qed.

Lemma filter_truthy_pushed (l : list string) :
  Forall pushed l -> filter Str.truthy l = l.
Proof.
  induction 1 as [|x l Hx Hl IH]; simpl; [reflexivity|].
  now rewrite (pushed_truthy x Hx), IH.
Qed.

Lemma normSegs_app_kept (aa : bool) (a l : list string) :
  Forall kept l ->
  Path.normSegs aa (a ++ l) = (Path.normSegs aa a ++ l)%list.
Proof.
  intros Hl. rewrite normSegs_app, fold_kept by assumption.
  now rewrite rev_app_distr, !rev_involutive.
Qed.

Lemma segments_normalize (P : string) :
  Str.truthy P = true ->
  Path.normSegs (negb (Path.isAbsolute P)) (Path.segments P) <> [] ->
  filter Str.truthy (Path.segments (Path.normalize P))
  = Path.normSegs (negb (Path.isAbsolute P)) (Path.segments P).
Proof.
  intros HP HN. rewrite normalize_truthy by assumption.
  unfold Path.normalizeString.
  pose proof (normSegs_pushed (negb (Path.isAbsolute P)) (Path.segments P)) as Hpushed.
  pose proof (normSegs_sepFree (negb (Path.isAbsolute P)) (Path.segments P)
                (split_elements_sepFree P)) as Hfree.
  destruct (Path.normSegs (negb (Path.isAbsolute P)) (Path.segments P))
    as [|h t] eqn:HNeq; [now elim HN|].
  inversion Hpushed as [|? ? (Hh & _) _]; subst.
  destruct (concat_head h t Hh) as (c & r & Hq & _). rewrite Hq, <- Hq.
  destruct (Path.isAbsolute P).
  - change ("/" ++ ?x)%string with (EmptyString ++ "/" ++ x)%string.
    rewrite segments_slash, segments_trailing.
    rewrite segments_concat by (assumption || discriminate).
    change (Path.segments EmptyString) with [EmptyString].
    rewrite !filter_app, (filter_truthy_pushed (h :: t) Hpushed).
    change (filter Str.truthy [EmptyString]) with (@nil string).
    destruct (Str.endsWith P "/"); cbn [filter Str.truthy app];
      now rewrite app_nil_r.
  - rewrite segments_trailing.
    rewrite segments_concat by (assumption || discriminate).
    rewrite filter_app, (filter_truthy_pushed (h :: t) Hpushed).
    destruct (Str.endsWith P "/"); cbn [filter Str.truthy]; now rewrite app_nil_r.
Qed.

Lemma last_app_nonempty (a l : list string) (d : string) :
  l <> [] -> last (a ++ l) d = last l d.
Proof.
  intros Hl. induction a as [|x a IH]; [reflexivity|].
  simpl. destruct (a ++ l)%list eqn:Happ; [|exact IH].
  apply app_eq_nil in Happ. destruct Happ as [_ ->]. now elim Hl.
Qed.

(** The base name of a path that ends with segments kept as they are. *)
Lemma basename_normalize_slash (a q : string) (l : list string) :
  Str.truthy a = true -> Path.segments q = l -> Forall kept l -> l <> [] ->
  Path.basename (Path.normalize (a ++ "/" ++ q)) = last l EmptyString.
Proof.
  intros Ha Hq Hl Hne. unfold Path.basename, Path.lastSegment.
  assert (HN : Path.normSegs (negb (Path.isAbsolute (a ++ "/" ++ q)))
                 (Path.segments (a ++ "/" ++ q))
               = (Path.normSegs (negb (Path.isAbsolute (a ++ "/" ++ q)))
                    (Path.segments a) ++ l)%list).
  { now rewrite segments_slash, Hq, normSegs_app_kept. }
  rewrite segments_normalize.
  - rewrite HN. now apply last_app_nonempty.
  - destruct a; [discriminate|reflexivity].
  - rewrite HN. intros Happ. apply app_eq_nil in Happ. now elim Hne.
Qed.

Lemma join2_unfold (a q : string) :
  Str.truthy a = true -> Str.truthy q = true ->
  Path.join [a; q] = Path.normalize (a ++ "/" ++ q).
Proof. intros Ha Hq. unfold Path.join. cbn [filter]. now rewrite Ha, Hq. Qed.

Lemma join3_unfold (a b c : string) :
  Str.truthy a = true -> Str.truthy b = true -> Str.truthy c = true ->
  Path.join [a; b; c] = Path.normalize (a ++ "/" ++ b ++ "/" ++ c).
Proof.
  intros Ha Hb Hc. unfold Path.join. cbn [filter]. now rewrite Ha, Hb, Hc.
Qed.

Lemma basenameExt_x_md (p : string) :
  Path.basename p = "x.md" -> Path.basenameExt p ".md" = "x".
Proof.
  unfold Path.basename, Path.basenameExt. intros Hb.
  destruct (String.eqb_spec ".md" p) as [<-|_]; [discriminate|].
  now rewrite Hb.
Qed.

(** ** What the [fs] calls return *)

Section Calls.
Context `{Host}.

Lemma access_ok (p : string) (w : Fs.world) (n : Fs.node) :
  Fs.stat (Fs.tree w) (FsP.abs p) = Ok n ->
  FsP.access p w = (Ok tt, Fs.logged (Fs.Access p) w).
Proof. intros Hs. unfold FsP.access, FsP.reading. now rewrite Hs. Qed.

Lemma readFile_ok (p : string) (w : Fs.world) (content : string) :
  Fs.stat (Fs.tree w) (FsP.abs p) = Ok (Fs.File content) ->
  FsP.readFile p w = (Ok content, Fs.logged (Fs.ReadFile p) w).
Proof. intros Hs. unfold FsP.readFile, FsP.reading. now rewrite Hs. Qed.

Lemma readFile_missing (p : string) (w : Fs.world) :
  Fs.stat (Fs.tree w) (FsP.abs p) = Throw (FsError ENOENT) ->
  FsP.readFile p w = (Throw (FsError ENOENT), Fs.logged (Fs.ReadFile p) w).
Proof. intros Hs. unfold FsP.readFile, FsP.reading. now rewrite Hs. Qed.

Lemma mkdir_ok (p : string) (w : Fs.world) (t' : Fs.node) :
  Fs.mkdirp (Fs.tree w) (FsP.abs p) = Ok t' ->
  FsP.mkdir p w = (Ok tt, Fs.mkWorld t' (Fs.log w ++ [Fs.Mkdir p])%list).
Proof. intros Hm. unfold FsP.mkdir, FsP.writing. now rewrite Hm. Qed.

Lemma rename_ok (a b : string) (w : Fs.world) (t' : Fs.node) :
  Fs.renameTree (Fs.tree w) (FsP.abs a) (FsP.abs b) = Ok t' ->
  FsP.rename a b w = (Ok tt, Fs.mkWorld t' (Fs.log w ++ [Fs.Rename a b])%list).
Proof. intros Hm. unfold FsP.rename, FsP.writing. now rewrite Hm. Qed.

Lemma writeFile_ok (p data : string) (w : Fs.world) (t' : Fs.node) :
  (forall l, Fs.stat (Fs.tree w) (FsP.abs p) <> Ok (Fs.Dir l)) ->
  Fs.put (Fs.tree w) (FsP.abs p) (Fs.File data) = Ok t' ->
  FsP.writeFile p data w
  = (Ok tt, Fs.mkWorld t' (Fs.log w ++ [Fs.WriteFile p data])%list).
Proof.
  intros Hnd Hput. unfold FsP.writeFile, FsP.writing.
  destruct (Fs.stat (Fs.tree w) (FsP.abs p)) as [[c|l]|e] eqn:Hs;
    try (now rewrite Hput).
  now elim (Hnd l).
Qed.

(** A path that resolves at or below the notes directory is accepted. *)
Lemma validatePath_below (notePath : string) (e : list string) :
  Path.resolveSegs cwd notePath = (Path.resolveSegs cwd NOTES_DIR ++ e)%list ->
  Model.validatePath notePath = ret tt.
Proof.
  intros Hp. unfold Model.validatePath, Path.resolve.
  now rewrite Hp, ofSegs_prefix.
Qed.

End Calls.

(** ** Archiving a note *)

Section Archive.
Context `{Host}.

Lemma NOTES_DIR_truthy : Str.truthy NOTES_DIR = true.
Proof.
  unfold NOTES_DIR, Str.orElse. destruct env_NOTES_DIR as [d|]; [|reflexivity].
  destruct (Str.truthy d) eqn:Hd; [exact Hd|reflexivity].
Qed.

Lemma abs_join_segments (q : string) (l : list string) :
  Path.segments q = l -> Forall kept l ->
  FsP.abs (Path.join [NOTES_DIR; q])
  = (Path.resolveSegs cwd NOTES_DIR ++ l)%list.
Proof.
  intros Hq Hl. unfold FsP.abs.
  rewrite resolve_join2 by apply NOTES_DIR_truthy.
  now apply resolveFrom_kept_segments.
Qed.

Lemma abs_join_plain2 (a b : string) :
  plainSegment a = true -> plainSegment b = true ->
  FsP.abs (Path.join [NOTES_DIR; a; b])
  = (Path.resolveSegs cwd NOTES_DIR ++ [a; b])%list.
Proof.
  intros Ha Hb. unfold FsP.abs.
  rewrite resolve_join3
    by (apply NOTES_DIR_truthy || now apply plainSegment_truthy).
  rewrite !resolveFrom_plain by assumption. now rewrite <- app_assoc.
Qed.

Lemma kept_literal (s : string) : plainSegment s = true -> kept s.
Proof. apply plainSegment_kept. Qed.

Lemma basename_join_segments (q : string) (l : list string) :
  Path.segments q = l -> Forall kept l -> l <> [] ->
  Path.basename (Path.join [NOTES_DIR; q]) = last l EmptyString.
Proof.
  intros Hq Hl Hne.
  assert (Htq : Str.truthy q = true).
  { destruct q; [|reflexivity]. subst l.
    inversion Hl as [|? ? (Hk & _) _]. now elim Hk. }
  rewrite join2_unfold by (apply NOTES_DIR_truthy || assumption).
  now apply basename_normalize_slash; [apply NOTES_DIR_truthy| | |].
Qed.

(** The fields that decoding reads from the text alone are the same for
    two paths with the same base name. *)
Lemma parse_decoded_same (content p1 p2 dir : string) :
  Path.basenameExt p1 ".md" = Path.basenameExt p2 ".md" ->
  Note.title (Fmt.parseNoteContent content p1 dir)
  = Note.title (Fmt.parseNoteContent content p2 dir)
  /\ Note.content (Fmt.parseNoteContent content p1 dir)
     = Note.content (Fmt.parseNoteContent content p2 dir)
  /\ Note.metadata (Fmt.parseNoteContent content p1 dir)
     = Note.metadata (Fmt.parseNoteContent content p2 dir).
Proof.
  intros Hb. unfold Fmt.parseNoteContent. rewrite Hb.
  destruct (Fmt.metadataMatch content) as [[y b]|]; [|now repeat split].
  destruct (yaml_load y); now repeat split.
Qed.

Lemma getNoteById_found (role : option string) (q : string) (l : list string)
  (content : string) (w : Fs.world) :
  Auth.isAuthorized role (Some "read") = Ok true ->
  Path.segments q = l -> Forall kept l ->
  Fs.stat (Fs.tree w) (Path.resolveSegs cwd NOTES_DIR ++ l)
  = Ok (Fs.File content) ->
  Model.getNoteById role q w
  = (Ok (Some (Fmt.parseNoteContent content (Path.join [NOTES_DIR; q]) NOTES_DIR)),
     Fs.logged (Fs.ReadFile (Path.join [NOTES_DIR; q])) w).
Proof.
  intros Hauth Hq Hl Hs. unfold Model.getNoteById.
  rewrite (authorize_when_allowed _ _ Hauth), bind_ret_l.
  rewrite (validatePath_below _ l) by now apply abs_join_segments.
  rewrite bind_ret_l. unfold tryCatch, bind.
  rewrite (readFile_ok _ _ content); [reflexivity|].
  now rewrite (abs_join_segments q l).
Qed.

Lemma getNoteById_missing (role : option string) (q : string) (l : list string)
  (w : Fs.world) :
  Auth.isAuthorized role (Some "read") = Ok true ->
  Path.segments q = l -> Forall kept l ->
  Fs.stat (Fs.tree w) (Path.resolveSegs cwd NOTES_DIR ++ l)
  = Throw (FsError ENOENT) ->
  Model.getNoteById role q w
  = (Ok None, Fs.logged (Fs.ReadFile (Path.join [NOTES_DIR; q])) w).
Proof.
  intros Hauth Hq Hl Hs. unfold Model.getNoteById.
  rewrite (authorize_when_allowed _ _ Hauth), bind_ret_l.
  rewrite (validatePath_below _ l) by now apply abs_join_segments.
  rewrite bind_ret_l. unfold tryCatch, bind.
  rewrite readFile_missing; [reflexivity|].
  now rewrite (abs_join_segments q l).
Qed.

Lemma kept_topics_x : Forall kept ["topics"; "x.md"].
Proof. repeat constructor; discriminate. Qed.

Lemma kept_archive_x : Forall kept ["archive"; "x.md"].
Proof. repeat constructor; discriminate. Qed.

(** C4.  When the note topics/x.md exists, and nothing stands in the way
    of the archive (no regular file named archive, no directory named
    archive/x.md), [deleteNote] with [shouldArchive] returns the id
    archive/x.md; the note read under that id has the title, the content
    and the metadata of the original, and reading topics/x.md afterwards
    gives [null]. *)
Theorem C4_archive_moves_the_note
  (role : option string) (content : string) (w : Fs.world) (root : Fs.node) :
  Auth.isAuthorized role (Some "delete") = Ok true ->
  Auth.isAuthorized role (Some "read") = Ok true ->
  Fs.stat (Fs.tree w) (Path.resolveSegs cwd NOTES_DIR) = Ok root ->
  Fs.stat root ["topics"; "x.md"] = Ok (Fs.File content) ->
  (forall c, Fs.stat root ["archive"] <> Ok (Fs.File c)) ->
  (forall l, Fs.stat root ["archive"; "x.md"] <> Ok (Fs.Dir l)) ->
  exists original w0 w1 archived w2,
    Model.getNoteById role "topics/x.md" w = (Ok (Some original), w0)
    /\ Model.deleteNote role "topics/x.md" true w
       = (Ok (Some (Model.mkOutcome "Note archived" (Some "archive/x.md"))), w1)
    /\ Model.getNoteById role "archive/x.md" w1 = (Ok (Some archived), w2)
    /\ Note.id archived = "archive/x.md"
    /\ Note.title archived = Note.title original
    /\ Note.content archived = Note.content original
    /\ Note.metadata archived = Note.metadata original
    /\ fst (Model.getNoteById role "topics/x.md" w1) = Ok None.
Proof.
  intros Hdel Hread Hroot Hnote Harch Htarget.
  set (R := Path.resolveSegs cwd NOTES_DIR) in *.
  set (notePath := Path.join [NOTES_DIR; "topics/x.md"]).
  assert (Hnp : FsP.abs notePath = (R ++ ["topics"; "x.md"])%list)
    by (apply abs_join_segments; [reflexivity|apply kept_topics_x]).
  assert (Had : FsP.abs (Path.join [NOTES_DIR; "archive"]) = (R ++ ["archive"])%list).
  { apply (abs_join_segments "archive" ["archive"]); [reflexivity|].
    repeat constructor; discriminate. }
  assert (Hbase : Path.basename notePath = "x.md").
  { apply (basename_join_segments "topics/x.md" ["topics"; "x.md"]);
      [reflexivity|apply kept_topics_x|discriminate]. }
  assert (Hap : FsP.abs (Path.join [NOTES_DIR; "archive"; "x.md"])
                = (R ++ ["archive"; "x.md"])%list)
    by (now apply abs_join_plain2).
  assert (Hbase2 : Path.basename (Path.join [NOTES_DIR; "archive/x.md"]) = "x.md").
  { apply (basename_join_segments "archive/x.md" ["archive"; "x.md"]);
      [reflexivity|apply kept_archive_x|discriminate]. }
  destruct (archive_local "topics" "archive" "x.md" content
              ltac:(discriminate) root Hnote Harch Htarget)
    as (r1 & r2 & r3 & Hmk & Hs1 & Hs1b & Hrm & Hput & Hs3a & Hs3t).
  destruct (put_root R (Fs.tree w) root r1 Hroot) as (t1 & Hp1 & Ht1).
  destruct (put_root R t1 r1 r2 Ht1) as (t2 & Hp2 & Ht2).
  destruct (put_root R t2 r2 r3 Ht2) as (t3 & Hp3 & Ht3).
  assert (Hmkdir : Fs.mkdirp (Fs.tree w) (R ++ ["archive"]) = Ok t1)
    by (now rewrite (mkdirp_app R ["archive"] _ root Hroot), Hmk).
  assert (Hmove : Fs.move t1 (R ++ ["topics"; "x.md"]) (R ++ ["archive"; "x.md"])
                    (Fs.File content) = Ok t3).
  { unfold Fs.move.
    rewrite (remove_app R ["topics"; "x.md"] ltac:(discriminate) t1 r1 Ht1), Hrm, Hp2.
    now rewrite (put_app R ["archive"; "x.md"] _ ltac:(discriminate) t2 r2 Ht2),
      Hput. }
  assert (Hren : Fs.renameTree t1 (R ++ ["topics"; "x.md"])
                   (R ++ ["archive"; "x.md"]) = Ok t3).
  { unfold Fs.renameTree.
    rewrite (stat_app R), Ht1, Hs1, segs_eqb_app, isPrefix_app.
    cbn [Fs.segs_eqb Fs.isPrefix].
    change (String.eqb "topics" "archive") with false. cbn [andb].
    rewrite (stat_app R), Ht1.
    destruct Hs1b as [Hs1b|[c Hs1b]]; rewrite Hs1b; exact Hmove. }
  exists (Fmt.parseNoteContent content notePath NOTES_DIR).
  exists (Fs.logged (Fs.ReadFile notePath) w).
  set (w1 := Fs.mkWorld t3
               (((Fs.log w ++ [Fs.Access notePath])
                 ++ [Fs.Mkdir (Path.join [NOTES_DIR; "archive"])])
                ++ [Fs.Rename notePath (Path.join [NOTES_DIR; "archive"; "x.md"])])%list).
  exists w1.
  exists (Fmt.parseNoteContent content (Path.join [NOTES_DIR; "archive/x.md"])
            NOTES_DIR).
  exists (Fs.logged (Fs.ReadFile (Path.join [NOTES_DIR; "archive/x.md"])) w1).
  split.
  { apply (getNoteById_found role "topics/x.md" ["topics"; "x.md"]);
      [assumption|reflexivity|apply kept_topics_x|].
    fold R. now rewrite stat_app, Hroot. }
  split.
  { unfold Model.deleteNote. fold notePath.
    rewrite (authorize_when_allowed _ _ Hdel), bind_ret_l.
    rewrite (validatePath_below _ ["topics"; "x.md"]) by exact Hnp.
    rewrite bind_ret_l. unfold tryCatch, bind.
    rewrite (access_ok notePath w (Fs.File content))
      by (now rewrite Hnp, stat_app, Hroot).
    rewrite Hbase.
    rewrite (mkdir_ok _ _ t1) by (cbn [Fs.logged Fs.tree]; now rewrite Had).
    rewrite (rename_ok _ _ _ t3) by (cbn [Fs.tree]; now rewrite Hnp, Hap).
    unfold ret. cbn [Fs.log Fs.logged Fs.tree]. fold w1.
    rewrite (relative_below cwd NOTES_DIR _ ["archive"; "x.md"]);
      [reflexivity|exact Hap|discriminate]. }
  split.
  { apply (getNoteById_found role "archive/x.md" ["archive"; "x.md"]);
      [assumption|reflexivity|apply kept_archive_x|].
    fold R. subst w1. cbn [Fs.tree]. now rewrite stat_app, Ht3. }
  split.
  { cbn [Note.id Fmt.parseNoteContent]. unfold Fmt.parseNoteContent.
    assert (Hid : Path.relative cwd NOTES_DIR (Path.join [NOTES_DIR; "archive/x.md"])
                  = "archive/x.md").
    { rewrite (relative_below cwd NOTES_DIR _ ["archive"; "x.md"]);
        [reflexivity| |discriminate].
      apply (abs_join_segments "archive/x.md" ["archive"; "x.md"]);
        [reflexivity|apply kept_archive_x]. }
    destruct (Fmt.metadataMatch content) as [[y b]|]; [|exact Hid].
    destruct (yaml_load y); exact Hid. }
  assert (Hsame := parse_decoded_same content
                     (Path.join [NOTES_DIR; "archive/x.md"]) notePath NOTES_DIR).
  rewrite (basenameExt_x_md _ Hbase), (basenameExt_x_md _ Hbase2) in Hsame.
  destruct (Hsame eq_refl) as (Ht & Hc & Hm).
  repeat split; try assumption.
  rewrite (getNoteById_missing role "topics/x.md" ["topics"; "x.md"]);
    [reflexivity|assumption|reflexivity|apply kept_topics_x|].
  fold R. subst w1. cbn [Fs.tree]. now rewrite stat_app, Ht3.
Qed.

End Archive.

Lemma C4_archive_witness :
  exists original w0 w1 archived w2,
    Model.getNoteById (H := refHost) (Some "admin") "topics/x.md" Ex.withX
    = (Ok (Some original), w0)
    /\ Model.deleteNote (H := refHost) (Some "admin") "topics/x.md" true Ex.withX
       = (Ok (Some (Model.mkOutcome "Note archived" (Some "archive/x.md"))), w1)
    /\ Model.getNoteById (H := refHost) (Some "admin") "archive/x.md" w1
       = (Ok (Some archived), w2)
    /\ Note.id archived = "archive/x.md"
    /\ Note.title archived = Note.title original
    /\ Note.content archived = Note.content original
    /\ Note.metadata archived = Note.metadata original
    /\ fst (Model.getNoteById (H := refHost) (Some "admin") "topics/x.md" w1)
       = Ok None.
Proof.
  apply (C4_archive_moves_the_note (H := refHost) (Some "admin") Ex.xText
           Ex.withX Ex.notesOfX).
  - reflexivity.
  - reflexivity.
  - vm_compute. reflexivity.
  - vm_compute. reflexivity.
  - intros c. vm_compute. discriminate.
  - intros l. vm_compute. discriminate.
Defined.

(** The same run, computed: the answer of [deleteNote], the archived note
    as it is read back, and the old id. *)
Example archive_run :
  let w1 := snd (Model.deleteNote (H := refHost) (Some "admin") "topics/x.md"
                   true Ex.withX) in
  fst (Model.deleteNote (H := refHost) (Some "admin") "topics/x.md" true Ex.withX)
  = Ok (Some (Model.mkOutcome "Note archived" (Some "archive/x.md")))
  /\ fst (Model.getNoteById (H := refHost) (Some "admin") "archive/x.md" w1)
     = Ok (Some (Note.mk "archive/x.md" "notes/archive/x.md" "X"
                   ("# X" ++ Str.nl ++ Str.nl ++ "body of x")
                   (Md.mk (Some "2025-03-01") None None None None)))
  /\ fst (Model.getNoteById (H := refHost) (Some "admin") "topics/x.md" w1)
     = Ok None.
Proof. repeat split; vm_compute; reflexivity. Qed.

(** ** Path confinement *)

Section Confinement.
Context `{Host}.

(** The check is a comparison of strings: it rejects exactly the paths
    whose resolved form does not begin with the resolved notes directory,
    and it rejects them before the file system is called. *)
Lemma validatePath_rejects (notePath : string) (w : Fs.world) :
  Str.startsWith (Path.resolve cwd notePath) (Path.resolve cwd NOTES_DIR) = false ->
  Model.validatePath notePath w = (Throw invalidPath, w).
Proof. intros Hs. unfold Model.validatePath. now rewrite Hs. Qed.

Lemma getNoteById_rejected (role : option string) (noteId : string) (w : Fs.world) :
  Auth.isAuthorized role (Some "read") = Ok true ->
  Str.startsWith (Path.resolve cwd (Path.join [NOTES_DIR; noteId]))
    (Path.resolve cwd NOTES_DIR) = false ->
  Model.getNoteById role noteId w = (Throw invalidPath, w).
Proof.
  intros Hauth Hs. unfold Model.getNoteById.
  rewrite (authorize_when_allowed _ _ Hauth), bind_ret_l.
  unfold bind. now rewrite validatePath_rejects.
Qed.

(** A path that resolves to the notes directory or below it passes. *)
Lemma validatePath_accepts_descendants (noteId : string) (w : Fs.world) :
  Fs.isPrefix (Path.resolveSegs cwd NOTES_DIR)
    (Path.resolveSegs cwd (Path.join [NOTES_DIR; noteId])) = true ->
  Model.validatePath (Path.join [NOTES_DIR; noteId]) w = (Ok tt, w).
Proof.
  intros Hpre.
  assert (Hex : forall a b, Fs.isPrefix a b = true -> exists e, b = (a ++ e)%list).
  { induction a as [|x a IH]; intros b Hb; [now exists b|].
    destruct b as [|y b]; [discriminate|]. simpl in Hb.
    apply andb_true_iff in Hb. destruct Hb as [Hxy Hb].
    apply String.eqb_eq in Hxy. subst y.
    destruct (IH b Hb) as (e & ->). now exists e. }
  destruct (Hex _ _ Hpre) as (e & He).
  now rewrite (validatePath_below _ e He).
Qed.

End Confinement.

(** C2 (the code departs from the claim).  The id leads to a file in
    /app/notes-private, which is not below /app/notes; the check lets it
    pass, because the one name begins with the other, and the note is
    read, and deleted, outside the repository.  An id that leads elsewhere
    is rejected before any call to the file system. *)
Theorem C2_sibling_directory_passes_the_check :
  Fs.isPrefix (Path.resolveSegs "/app" "./notes")
    (Path.resolveSegs "/app" (Path.join ["./notes"; "../notes-private/secret.md"]))
  = false
  /\ Model.getNoteById (H := refHost) (Some "admin") "../notes-private/secret.md"
       Ex.sibling
     = (Ok (Some (Note.mk "../notes-private/secret.md" "notes-private/secret.md"
                    "Secret" "# Secret" Md.empty)),
        Fs.logged (Fs.ReadFile "notes-private/secret.md") Ex.sibling)
  /\ fst (Model.deleteNote (H := refHost) (Some "admin")
            "../notes-private/secret.md" false Ex.sibling)
     = Ok (Some (Model.mkOutcome "Note deleted" None))
  /\ Fs.stat (Fs.tree (snd (Model.deleteNote (H := refHost) (Some "admin")
                              "../notes-private/secret.md" false Ex.sibling)))
       ["app"; "notes-private"; "secret.md"]
     = Throw (FsError ENOENT)
  /\ Model.getNoteById (H := refHost) (Some "admin") "../other/secret.md"
       Ex.sibling
     = (Throw invalidPath, Ex.sibling).
Proof. repeat split; vm_compute; reflexivity. Qed.

(** ** Strings: substrings *)

Lemma prefix_true_iff (p : string) :
  forall s, String.prefix p s = true <-> exists b, s = (p ++ b)%string.
Proof.
  induction p as [|c p IH]; intros s.
  - rewrite prefix_nil. split; [intros _; now exists s|reflexivity].
  - destruct s as [|d s]; simpl.
    + split; [discriminate|intros (b & Hb); discriminate].
    + destruct (ascii_dec c d) as [<-|Hn].
      * rewrite IH. split; intros (b & Hb); exists b; [now rewrite Hb|].
        now injection Hb.
      * split; [discriminate|]. intros (b & Hb). injection Hb as Hc _.
        now elim Hn.
Qed.

Lemma indexOf_some_iff (p : string) :
  forall s, (exists i, Str.indexOf s p = Some i)
            <-> exists a b, s = (a ++ p ++ b)%string.
Proof.
  induction s as [|c s IH].
  - cbn [Str.indexOf]. destruct (String.prefix p EmptyString) eqn:Hp.
    + split; [intros _|intros _; now exists 0].
      apply prefix_true_iff in Hp. destruct Hp as (b & Hb).
      now exists EmptyString, b.
    + split; [intros (i & Hi); discriminate|].
      intros (a & b & Hab). destruct a; [|discriminate].
      assert (Ht : String.prefix p EmptyString = true)
        by (apply prefix_true_iff; now exists b).
      congruence.
  - cbn [Str.indexOf]. destruct (String.prefix p (String c s)) eqn:Hp.
    + split; [intros _|intros _; now exists 0].
      apply prefix_true_iff in Hp. destruct Hp as (b & Hb).
      now exists EmptyString, b.
    + split.
      * intros (i & Hi).
        destruct (Str.indexOf s p) as [j|] eqn:Hj; [|discriminate].
        destruct (proj1 IH (ex_intro _ j eq_refl)) as (a & b & Hab).
        exists (String c a), b. now rewrite Hab.
      * intros (a & b & Hab). destruct a as [|d a].
        -- assert (Ht : String.prefix p (String c s) = true)
             by (apply prefix_true_iff; now exists b).
           congruence.
        -- injection Hab as -> Hs.
           destruct (proj2 IH (ex_intro _ a (ex_intro _ b Hs))) as (j & Hj).
           rewrite Hj. now exists (S j).
Qed.

Lemma includes_iff (s p : string) :
  Str.includes s p = true <-> exists a b, s = (a ++ p ++ b)%string.
Proof.
  rewrite <- indexOf_some_iff. unfold Str.includes.
  destruct (Str.indexOf s p) as [i|].
  - split; [intros _; now exists i|reflexivity].
  - split; [discriminate|intros (i & Hi); discriminate].
Qed.

Lemma concat_segments (s : string) :
  String.concat "/" (Path.segments s) = s.
Proof.
  unfold Path.segments. induction s as [|c s IH]; [reflexivity|].
  cbn [Str.split]. pose proof (split_nonempty Path.sep s) as Hne.
  destruct (Ascii.eqb_spec c Path.sep) as [->|Hc].
  - destruct (Str.split Path.sep s) as [|h t] eqn:Hsp; [now elim Hne|].
    rewrite concat_cons2, IH. reflexivity.
  - destruct (Str.split Path.sep s) as [|h t] eqn:Hsp; [now elim Hne|].
    destruct t as [|y t].
    + cbn [String.concat] in *. now rewrite IH.
    + rewrite concat_cons2 in *. cbn [append]. now rewrite IH.
Qed.

(** ** The category filter *)

(** [/c/] occurs in a path exactly when the segments of [c] follow one
    another among its segments, after the first and before the last. *)
Lemma inCategory_iff_inner_segments (c : string) (n : Note.t) :
  Model.inCategory c n = true
  <-> exists before after,
        before <> [] /\ after <> []
        /\ Path.segments (Note.path n)
           = (before ++ Path.segments c ++ after)%list.
Proof.
  unfold Model.inCategory. rewrite includes_iff. split.
  - intros (a & b & Hab). exists (Path.segments a), (Path.segments b).
    split; [apply split_nonempty|]. split; [apply split_nonempty|].
    rewrite Hab.
    replace (a ++ ("/" ++ c ++ "/") ++ b)%string
      with (a ++ "/" ++ (c ++ "/" ++ b))%string
      by (cbn [append]; now rewrite sapp_assoc).
    now rewrite !segments_slash.
  - intros (before & after & Hb & Ha & Hseg).
    exists (String.concat "/" before), (String.concat "/" after).
    rewrite <- (concat_segments (Note.path n)), Hseg.
    assert (Hc : Path.segments c <> []) by apply split_nonempty.
    rewrite concat_app
      by (assumption || (destruct (Path.segments c); [now elim Hc|discriminate])).
    rewrite concat_app by assumption.
    rewrite concat_segments. cbn [append]. now rewrite sapp_assoc.
Qed.

(** For a category without a separator: [c] is one of the segments of the
    path, and neither the first nor the last. *)
Lemma inCategory_iff_inner_segment (c : string) (n : Note.t) :
  sepFree c ->
  Model.inCategory c n = true
  <-> exists before after,
        before <> [] /\ after <> []
        /\ Path.segments (Note.path n) = (before ++ c :: after)%list.
Proof.
  intros Hc. rewrite inCategory_iff_inner_segments.
  unfold Path.segments at 2. now rewrite (split_sepFree c Hc).
Qed.

Lemma filter_comm {A : Type} (P Q : A -> bool) (l : list A) :
  filter P (filter Q l) = filter Q (filter P l).
Proof.
  induction l as [|x l IH]; [reflexivity|].
  simpl. destruct (Q x) eqn:HQ, (P x) eqn:HP; simpl;
    rewrite ?HQ, ?HP, IH; reflexivity.
Qed.

Section Category.
Context `{Host}.

Lemma keeps_category (query : string) (tags : option (list string))
  (c : string) (range : option Model.dateRange) (n : Note.t) :
  Str.truthy c = true ->
  Model.keeps query (Model.mkFilters tags (Some c) range) n
  = Model.keeps query (Model.mkFilters tags None range) n
    && Model.inCategory c n.
Proof.
  intros Hc. unfold Model.keeps.
  cbn [Model.f_tags Model.f_category Model.f_dateRange]. rewrite Hc.
  cbn [andb].
  repeat match goal with
  | |- context [if ?b then false else _] =>
      lazymatch b with
      | negb (Model.inCategory _ _) => fail
      | _ => destruct b; [reflexivity|]
      end
  end.
  destruct (Model.inCategory c n); cbn [negb];
    [now rewrite andb_true_r|now rewrite andb_false_r].
Qed.

Lemma getAllNotes_category (role tags keyword : option string) (c : string)
  (w : Fs.world) :
  Str.truthy c = true ->
  Model.getAllNotes role tags (Some c) keyword w
  = match Model.getAllNotes role tags None keyword w with
    | (Ok notes, w') => (Ok (filter (Model.inCategory c) notes), w')
    | (Throw e, w') => (Throw e, w')
    end.
Proof.
  intros Hc. unfold Model.getAllNotes, bind. rewrite Hc.
  destruct (Model.authorize role "read" w) as [[[]|e] w1]; [|reflexivity].
  destruct (Model.ensureNotesDirectory w1) as [[[]|e] w2]; [|reflexivity].
  destruct (Model.getAllNotesInternal w2) as [[allNotes|e] w3]; [|reflexivity].
  unfold ret. f_equal. f_equal.
  destruct keyword as [k|]; [|reflexivity].
  destruct (Str.truthy k); [|reflexivity].
  apply filter_comm.
Qed.

(** C8 (amended).  With a category filter that is not empty, [getAllNotes]
    retains exactly the notes, among those it would return without the
    filter, whose path contains the category between two separators, and
    [searchNotes] adds this one test to its filter: it returns exactly the
    notes of the directory that pass its other tests and this one.  The
    test holds exactly when the segments of the category follow one
    another among the segments of the note's path, after the first of them
    and before the last; for a category without a separator, when the
    category is a segment of the path that is neither the first nor the
    last: a directory at any depth, never a part of a segment. *)
Theorem C8_category_filter (c : string) :
  Str.truthy c = true ->
  (forall role tags keyword w,
      Model.getAllNotes role tags (Some c) keyword w
      = match Model.getAllNotes role tags None keyword w with
        | (Ok notes, w') => (Ok (filter (Model.inCategory c) notes), w')
        | (Throw e, w') => (Throw e, w')
        end)
  /\ (forall query tags range n,
        Model.keeps query (Model.mkFilters tags (Some c) range) n
        = Model.keeps query (Model.mkFilters tags None range) n
          && Model.inCategory c n)
  /\ (forall role query tags range w notes w',
        Model.searchNotes role query (Model.mkFilters tags (Some c) range) w
        = (Ok notes, w') ->
        exists allNotes w0,
          Model.getAllNotesInternal w = (Ok allNotes, w0)
          /\ forall n,
               In n notes
               <-> (In n allNotes
                    /\ Model.keeps query (Model.mkFilters tags None range) n
                       = true)
                   /\ Model.inCategory c n = true)
  /\ (forall n,
        Model.inCategory c n = true
        <-> exists before after,
              before <> [] /\ after <> []
              /\ Path.segments (Note.path n)
                 = (before ++ Path.segments c ++ after)%list)
  /\ (sepFree c ->
      forall n,
        Model.inCategory c n = true
        <-> exists before after,
              before <> [] /\ after <> []
              /\ Path.segments (Note.path n) = (before ++ c :: after)%list).
Proof.
  intros Hc. split; [|split; [|split; [|split]]].
  - intros. now apply getAllNotes_category.
  - intros. now apply keeps_category.
  - intros role query tags range w notes w' Hs.
    destruct (searchNotes_exactly _ _ _ _ _ _ Hs) as (allNotes & w0 & Hall & Hn).
    exists allNotes, w0. split; [exact Hall|]. intros n.
    rewrite Hn, keeps_category, andb_true_iff by assumption. tauto.
  - intros n. apply inCategory_iff_inner_segments.
  - intros Hfree n. now apply inCategory_iff_inner_segment.
Qed.

End Category.

Lemma C8_category_witness :
  (forall role tags keyword w,
      Model.getAllNotes (H := refHost) role tags (Some "topics") keyword w
      = match Model.getAllNotes (H := refHost) role tags None keyword w with
        | (Ok notes, w') => (Ok (filter (Model.inCategory "topics") notes), w')
        | (Throw e, w') => (Throw e, w')
        end)
  /\ (forall query tags range n,
        Model.keeps (H := refHost) query
          (Model.mkFilters tags (Some "topics") range) n
        = Model.keeps (H := refHost) query (Model.mkFilters tags None range) n
          && Model.inCategory "topics" n)
  /\ (forall n,
        Model.inCategory "topics" n = true
        <-> exists before after,
              before <> [] /\ after <> []
              /\ Path.segments (Note.path n) = (before ++ "topics" :: after)%list)
  /\ (forall n,
        Model.inCategory "projects/topics" n = true
        <-> exists before after,
              before <> [] /\ after <> []
              /\ Path.segments (Note.path n)
                 = (before ++ ["projects"; "topics"] ++ after)%list).
Proof.
  destruct (C8_category_filter (H := refHost) "topics" eq_refl)
    as (Hlist & Hkeeps & _ & _ & Hsegment).
  destruct (C8_category_filter (H := refHost) "projects/topics" eq_refl)
    as (_ & _ & _ & Hsegments & _).
  split; [exact Hlist|]. split; [exact Hkeeps|].
  split; [apply Hsegment; reflexivity|exact Hsegments].
Defined.

(** Of the two notes of the listing, the second lies in projects; the
    filter on the category topics retains both, for the second has a
    directory named topics further down. *)
Lemma C8_deeper_segment_matches :
  fst (Model.getAllNotes (H := refHost) (Some "admin") None (Some "topics") None
         Ex.nested)
  = Ok [ Note.mk "topics/top.md" "notes/topics/top.md" "Top" "# Top" Md.empty;
         Note.mk "projects/topics/deep.md" "notes/projects/topics/deep.md"
           "Deep" "# Deep" Md.empty ]
  /\ fst (Model.searchNotes (H := refHost) (Some "admin") "deep"
            (Model.mkFilters None (Some "topics") None) Ex.nested)
     = Ok [ Note.mk "projects/topics/deep.md" "notes/projects/topics/deep.md"
              "Deep" "# Deep" Md.empty ].
Proof. split; vm_compute; reflexivity. Qed.

(** ** Search: ranking *)

Lemma insertBy_descending {A : Type} (key : A -> nat) (x : A) (l : list A) :
  descending key l ->
  descending key
    (insertBy (fun a b => (Z.of_nat (key b) - Z.of_nat (key a))%Z) x l).
Proof.
  unfold descending. induction 1 as [|y l Hl IH Hhd]; simpl.
  - repeat constructor.
  - destruct (Z.leb_spec (Z.of_nat (key y) - Z.of_nat (key x)) 0) as [Hle|Hgt].
    + constructor; [now constructor|]. constructor. lia.
    + constructor; [exact IH|].
      destruct l as [|z l]; simpl.
      * constructor. lia.
      * destruct (Z.leb_spec (Z.of_nat (key z) - Z.of_nat (key x)) 0).
        -- constructor. lia.
        -- constructor. now inversion Hhd.
Qed.

Lemma sortBy_descending {A : Type} (key : A -> nat) (l : list A) :
  descending key (sortBy (fun a b => (Z.of_nat (key b) - Z.of_nat (key a))%Z) l).
Proof.
  induction l as [|x l IH]; simpl; [constructor|].
  now apply insertBy_descending.
Qed.

Lemma insertBy_keepsTies {A : Type} (key : A -> nat) (x : A) (l : list A) :
  keepsTies key (x :: l)
    (insertBy (fun a b => (Z.of_nat (key b) - Z.of_nat (key a))%Z) x l).
Proof.
  intros k. induction l as [|y l IH]; [reflexivity|].
  cbn [insertBy].
  destruct (Z.leb_spec (Z.of_nat (key y) - Z.of_nat (key x)) 0) as [Hle|Hgt];
    [reflexivity|].
  cbn [filter] in *. rewrite IH.
  destruct (Nat.eqb_spec (key x) k) as [Hx|Hx]; [|reflexivity].
  destruct (Nat.eqb_spec (key y) k) as [Hy|Hy]; [lia|reflexivity].
Qed.

Lemma sortBy_keepsTies {A : Type} (key : A -> nat) (l : list A) :
  keepsTies key l (sortBy (fun a b => (Z.of_nat (key b) - Z.of_nat (key a))%Z) l).
Proof.
  induction l as [|x l IH]; intros k; [reflexivity|].
  cbn [sortBy]. rewrite insertBy_keepsTies. cbn [filter]. now rewrite IH.
Qed.

Lemma parse_literal (q : string) :
  (forall c, Re.inString c q = true -> Re.isSyntaxChar c = false) ->
  exists atoms,
    Re.parse q = Some atoms
    /\ List.length atoms = String.length q
    /\ forall s, Re.matchesAt atoms s = String.prefix q s.
Proof.
  induction q as [|c q IH]; intros Hq.
  - exists []. repeat split. intros s. now rewrite prefix_nil.
  - destruct IH as (atoms & Hp & Hlen & Hm).
    { intros d Hd. apply Hq. cbn [Re.inString]. now rewrite Hd, orb_true_r. }
    assert (Hc : Re.isSyntaxChar c = false).
    { apply Hq. cbn [Re.inString]. now rewrite Ascii.eqb_refl. }
    exists (Re.Lit c :: atoms). cbn [Re.parse]. rewrite Hc, Hp.
    destruct (Ascii.eqb_spec c "."%char) as [->|_]; [discriminate|].
    repeat split; [simpl; now rewrite Hlen|].
    intros s. destruct s as [|d s]; [reflexivity|].
    cbn [Re.matchesAt Re.atomMatches String.prefix]. rewrite Hm.
    destruct (ascii_dec c d) as [->|Hn].
    + now rewrite Ascii.eqb_refl.
    + destruct (Ascii.eqb_spec d c) as [->|_]; [now elim Hn|reflexivity].
Qed.

Lemma countFrom_literal (q : string) (atoms : list Re.atom) :
  q <> EmptyString ->
  List.length atoms = String.length q ->
  (forall s, Re.matchesAt atoms s = String.prefix q s) ->
  forall s skip, Re.countFrom atoms s skip = Spec.occurrencesFrom q s skip.
Proof.
  intros Hq Hlen Hm. induction s as [|c s IH]; intros skip.
  - cbn [Re.countFrom Spec.occurrencesFrom]. destruct skip; [|reflexivity].
    rewrite Hm. destruct q; [now elim Hq|reflexivity].
  - cbn [Re.countFrom Spec.occurrencesFrom]. destruct skip; [|apply IH].
    rewrite Hm, Hlen.
    destruct (String.prefix q (String c s)); now rewrite IH.
Qed.

Section Ranking.
Context `{Host}.

Lemma toLowerCase_nonempty (q : string) :
  q <> EmptyString -> Str.toLowerCase q <> EmptyString.
Proof. destruct q; [tauto|discriminate]. Qed.

(** For a query that holds no syntax character of regular expressions,
    the notes are ranked as the specification says: in descending order of
    the number of occurrences of the query, ties in their former order. *)
Lemma rank_literal_query (query : string) (results : list Note.t) :
  literalQuery (Str.toLowerCase query) ->
  exists ranked,
    Model.rank query results = Ok ranked
    /\ Permutation results ranked
    /\ descending (Spec.relevance query) ranked
    /\ keepsTies (Spec.relevance query) results ranked.
Proof.
  intros (Hne & Hlit).
  destruct (parse_literal _ Hlit) as (atoms & Hp & Hlen & Hm).
  assert (Hrel : forall n, Model.relevance (Re.matchCount atoms) n
                           = Spec.relevance query n).
  { intros n. unfold Model.relevance, Spec.relevance, Re.matchCount,
      Spec.occurrences.
    now rewrite !(countFrom_literal _ atoms Hne Hlen Hm). }
  assert (Hsort : sortBy (Model.byRelevance (Re.matchCount atoms)) results
                  = sortBy (fun a b => (Z.of_nat (Spec.relevance query b)
                                        - Z.of_nat (Spec.relevance query a))%Z)
                      results).
  { unfold Model.byRelevance.
    assert (Hext : forall (f g : Note.t -> Note.t -> Z) l,
               (forall a b, f a b = g a b) -> sortBy f l = sortBy g l).
    { intros f g l Hfg. induction l as [|x l IH]; [reflexivity|].
      cbn [sortBy]. rewrite IH. generalize (sortBy g l) as m.
      induction m as [|y m IHm]; [reflexivity|].
      cbn [insertBy]. now rewrite Hfg, IHm. }
    apply Hext. intros a b. now rewrite !Hrel. }
  destruct results as [|a [|b l]].
  - exists []. split; [reflexivity|]. split; [apply perm_nil|].
    split; [constructor|intros k; reflexivity].
  - exists [a]. split; [reflexivity|]. split; [apply Permutation_refl|].
    split; [repeat constructor|intros k; reflexivity].
  - exists (sortBy (fun x y => (Z.of_nat (Spec.relevance query y)
                                - Z.of_nat (Spec.relevance query x))%Z)
              (a :: b :: l)).
    split; [|split; [|split]].
    + unfold Model.rank, RegExp_g. now rewrite Hp, Hsort.
    + apply sortBy_perm.
    + apply sortBy_descending.
    + apply sortBy_keepsTies.
Qed.

End Ranking.

(** C6 (the code departs from the claim).  The query is a single dot.
    Both notes hold it, the first once and the second three times, so the
    ranking of the specification puts the second first.  The sort builds a
    regular expression from the query, for which the dot matches any
    character; it counts 19 matches in the first note and 4 in the second,
    and returns the first before the second. *)
Theorem C6_query_is_read_as_a_pattern :
  fst (Model.searchNotes (H := refHost) (Some "admin") "." Model.noFilters Ex.dots)
  = Ok [Ex.noteA; Ex.noteB]
  /\ Spec.relevance "." Ex.noteA = 1
  /\ Spec.relevance "." Ex.noteB = 3
  /\ sortBy (fun x y => (Z.of_nat (Spec.relevance "." y)
                         - Z.of_nat (Spec.relevance "." x))%Z)
       [Ex.noteA; Ex.noteB]
     = [Ex.noteB; Ex.noteA]
  /\ Model.relevance (Re.matchCount [Re.AnyChar]) Ex.noteA = 19
  /\ Model.relevance (Re.matchCount [Re.AnyChar]) Ex.noteB = 4.
Proof. repeat split; vm_compute; reflexivity. Qed.

(** ** The codec: parsing what was formatted *)

Lemma trim_after_nl (b : string) : Str.trim (Str.nl ++ b) = Str.trim b.
Proof. reflexivity. Qed.

Lemma titleMatch_after_nl (b : string) :
  Fmt.titleMatch (Str.nl ++ b) = Fmt.titleMatch b.
Proof. reflexivity. Qed.

Lemma trimStart_heading (s : string) :
  Str.trimStart ("# " ++ s) = ("# " ++ s)%string.
Proof. reflexivity. Qed.

Lemma titleMatch_heading (s : string) :
  Fmt.titleMatch ("# " ++ s) = Some (Fmt.lineHead s).
Proof.
  unfold Fmt.titleMatch. cbn [append Fmt.titleMatchFrom andb].
  unfold Str.startsWith.
  change (String "#" (String " " s)) with ("# " ++ s)%string.
  now rewrite prefix_app.
Qed.

Lemma lineHead_app (title rest : string) :
  singleLine title -> Fmt.lineHead rest = EmptyString ->
  Fmt.lineHead (title ++ rest) = title.
Proof.
  unfold singleLine. induction title as [|c t IH]; intros Ht Hr; [exact Hr|].
  cbn [append Fmt.lineHead] in *.
  destruct (Str.isLineTerminator c); [discriminate|].
  injection Ht as Ht. now rewrite IH.
Qed.

Lemma metadataMatch_formatted (y0 X : string) :
  Str.indexOf (y0 ++ Fmt.closing) Fmt.closing = Some (String.length y0) ->
  Fmt.metadataMatch (Fmt.fence ++ (y0 ++ Str.nl) ++ "---" ++ Str.nl ++ X)
  = Some (y0, X).
Proof.
  intros Hidx. unfold Fmt.metadataMatch.
  unfold Str.startsWith. rewrite prefix_app.
  change (Str.drop 4 (Fmt.fence ++ (y0 ++ Str.nl) ++ "---" ++ Str.nl ++ X))
    with ((y0 ++ Str.nl) ++ "---" ++ Str.nl ++ X)%string.
  replace ((y0 ++ Str.nl) ++ "---" ++ Str.nl ++ X)%string
    with (y0 ++ Fmt.closing ++ X)%string
    by (unfold Fmt.closing; now rewrite !sapp_assoc).
  rewrite (indexOf_app_stable Fmt.closing y0 X Hidx).
  rewrite take_app, drop_app. reflexivity.
Qed.

Section Codec.
Context `{Host}.

Lemma parse_formatted (y0 body filePath notesDir : string) (m : Md.t) :
  Str.indexOf (y0 ++ Fmt.closing) Fmt.closing = Some (String.length y0) ->
  yaml_load y0 = Some m ->
  Fmt.parseNoteContent
    (Fmt.fence ++ (y0 ++ Str.nl) ++ "---" ++ Str.nl ++ Str.nl ++ body)
    filePath notesDir
  = Note.mk (Path.relative cwd notesDir filePath) filePath
      match Fmt.titleMatch body with
      | Some t => t
      | None => Path.basenameExt filePath ".md"
      end
      (Str.trim body) m.
Proof.
  intros Hidx Hload. unfold Fmt.parseNoteContent.
  rewrite (metadataMatch_formatted y0 (Str.nl ++ body) Hidx), Hload.
  now rewrite titleMatch_after_nl, trim_after_nl.
Qed.

(** C1 (amended).  For metadata that js-yaml takes there and back,
    parsing what [formatNoteContent] wrote gives the same metadata.  The
    content that comes back is the body with its heading: the content that
    went in, trimmed, when it already began with a heading; otherwise the
    heading made from the title, a blank line, and the content.  The title
    and the content both come back as they went in when the content is
    trimmed and begins with the heading of the title, the title being a
    single line. *)
Theorem C1_parse_after_format
  (m : Md.t) (title content filePath notesDir : string) :
  yamlRoundTrips m ->
  let n := Fmt.parseNoteContent (Fmt.formatNoteContent m title content)
             filePath notesDir in
  Note.metadata n = m
  /\ (Str.startsWith (Str.trim content) "# " = true ->
      Note.content n = Str.trim content)
  /\ (Str.startsWith (Str.trim content) "# " = false ->
      Note.content n
      = Str.trimEnd ("# " ++ title ++ Str.nl ++ Str.nl ++ content)
      /\ (singleLine title -> Note.title n = title))
  /\ (forall rest,
        content = ("# " ++ title ++ rest)%string ->
        Str.trim content = content ->
        singleLine title -> Fmt.lineHead rest = EmptyString ->
        Note.title n = title /\ Note.content n = content).
Proof.
  intros (y0 & Hdump & Hidx & Hload) n. subst n.
  unfold Fmt.formatNoteContent. rewrite Hdump.
  destruct (Str.startsWith (Str.trim content) "# ") eqn:Hstart.
  - rewrite (parse_formatted y0 content filePath notesDir m Hidx Hload).
    cbn [Note.metadata Note.content Note.title].
    split; [reflexivity|]. split; [reflexivity|]. split; [discriminate|].
    intros rest Hc Htrim Hsingle Hrest. split; [|exact Htrim].
    rewrite Hc, titleMatch_heading. now apply lineHead_app.
  - rewrite (parse_formatted y0 ("# " ++ title ++ Str.nl ++ Str.nl ++ content)
               filePath notesDir m Hidx Hload).
    cbn [Note.metadata Note.content Note.title].
    split; [reflexivity|]. split; [discriminate|]. split.
    + intros _. split.
      * unfold Str.trim. now rewrite trimStart_heading.
      * intros Hsingle. rewrite titleMatch_heading.
        now apply lineHead_app.
    + intros rest Hc Htrim Hsingle Hrest. exfalso.
      rewrite Htrim, Hc in Hstart. unfold Str.startsWith in Hstart.
      now rewrite prefix_app in Hstart.
Qed.

End Codec.

Lemma C1_parse_after_format_witness :
  let n := Fmt.parseNoteContent (H := refHost)
             (Fmt.formatNoteContent (H := refHost) Ex.mdOfBob "T"
                ("# T" ++ Str.nl ++ Str.nl ++ "body"))
             "notes/topics/t.md" "./notes" in
  Note.metadata n = Ex.mdOfBob
  /\ (Str.startsWith (Str.trim ("# T" ++ Str.nl ++ Str.nl ++ "body")) "# " = true ->
      Note.content n = Str.trim ("# T" ++ Str.nl ++ Str.nl ++ "body"))
  /\ (Str.startsWith (Str.trim ("# T" ++ Str.nl ++ Str.nl ++ "body")) "# " = false ->
      Note.content n
      = Str.trimEnd ("# " ++ "T" ++ Str.nl ++ Str.nl
                     ++ ("# T" ++ Str.nl ++ Str.nl ++ "body"))
      /\ (singleLine "T" -> Note.title n = "T"))
  /\ (forall rest,
        ("# T" ++ Str.nl ++ Str.nl ++ "body")%string = ("# " ++ "T" ++ rest)%string ->
        Str.trim ("# T" ++ Str.nl ++ Str.nl ++ "body")
        = ("# T" ++ Str.nl ++ Str.nl ++ "body")%string ->
        singleLine "T" -> Fmt.lineHead rest = EmptyString ->
        Note.title n = "T"
        /\ Note.content n = ("# T" ++ Str.nl ++ Str.nl ++ "body")%string).
Proof.
  apply (C1_parse_after_format (H := refHost) Ex.mdOfBob "T"
           ("# T" ++ Str.nl ++ Str.nl ++ "body") "notes/topics/t.md" "./notes").
  exists Ex.yamlOfBob. repeat split; vm_compute; reflexivity.
Defined.

(** With valid metadata, the title T and the content body, the content
    that comes back is not body: it begins with the heading that
    [formatNoteContent] put before it.  And when the content brings its own
    heading, the title that comes back is the one of that heading. *)
Lemma C1_content_comes_back_with_its_heading :
  yamlRoundTrips (H := refHost) Md.empty
  /\ Fmt.parseNoteContent (H := refHost)
       (Fmt.formatNoteContent (H := refHost) Md.empty "T" "body")
       "notes/topics/t.md" "./notes"
     = Note.mk "topics/t.md" "notes/topics/t.md" "T"
         ("# T" ++ Str.nl ++ Str.nl ++ "body") Md.empty
  /\ Fmt.parseNoteContent (H := refHost)
       (Fmt.formatNoteContent (H := refHost) Md.empty "A" "# B")
       "notes/topics/t.md" "./notes"
     = Note.mk "topics/t.md" "notes/topics/t.md" "B" "# B" Md.empty.
Proof.
  split; [exists "{}"; repeat split; vm_compute; reflexivity|].
  split; vm_compute; reflexivity.
Qed.

(** ** Creating a note: the file name *)

Lemma collapse_Collapsed (s : string) :
  Collapsed s (Model.collapse false s)
  /\ forall run, run <> EmptyString -> allOutside run ->
                 Collapsed (run ++ s) (String "_" (Model.collapse true s)).
Proof.
  induction s as [|c s [IH1 IH2]].
  - split; [constructor|]. intros run Hne Hout.
    now apply Collapsed_run; [| | |constructor].
  - cbn [Model.collapse]. destruct (Model.isSlugChar c) eqn:Hc.
    + split; [now constructor|]. intros run Hne Hout.
      apply Collapsed_run; [assumption|assumption|exact Hc|now constructor].
    + assert (Hone : allOutside (String c EmptyString)).
      { intros d Hd. cbn [Re.inString] in Hd. rewrite orb_false_r in Hd.
        apply Ascii.eqb_eq in Hd. now subst d. }
      split.
      * apply (IH2 (String c EmptyString)); [discriminate|exact Hone].
      * intros run Hne Hout.
        replace (run ++ String c s)%string
          with ((run ++ String c EmptyString) ++ s)%string
          by (now rewrite sapp_assoc).
        apply IH2; [destruct run; discriminate|].
        intros d Hd.
        assert (Hor : Re.inString d run = true
                      \/ Re.inString d (String c EmptyString) = true).
        { clear -Hd. induction run as [|x run IHr]; [now right|].
          cbn [append Re.inString] in *. apply orb_true_iff in Hd.
          destruct Hd as [Hx|Hd]; [left; now rewrite Hx|].
          destruct (IHr Hd) as [Hl|Hr]; [left; now rewrite Hl, orb_true_r|now right]. }
        destruct Hor as [Hl|Hr]; [now apply Hout|now apply Hone].
Qed.

Lemma inString_app (c : ascii) (a b : string) :
  Re.inString c (a ++ b) = Re.inString c a || Re.inString c b.
Proof.
  induction a as [|x a IH]; [reflexivity|].
  cbn [append Re.inString]. now rewrite IH, orb_assoc.
Qed.

Lemma collapse_sepFree (inRun : bool) (s : string) :
  sepFree (Model.collapse inRun s).
Proof.
  unfold sepFree. revert inRun. induction s as [|c s IH]; intros inRun;
    [reflexivity|].
  cbn [Model.collapse]. destruct (Model.isSlugChar c) eqn:Hc.
  - cbn [Re.inString]. rewrite IH, orb_false_r.
    destruct (Ascii.eqb_spec Path.sep c) as [<-|_]; [discriminate|reflexivity].
  - destruct inRun; [apply IH|]. cbn [Re.inString]. now rewrite IH.
Qed.

Lemma plain_of_long (s : string) :
  3 <= String.length s -> sepFree s -> plainSegment s = true.
Proof.
  intros Hlen Hfree. unfold plainSegment. rewrite Hfree.
  destruct s as [|a [|b [|c s]]]; simpl in Hlen; try lia.
  assert (H1 : String a (String b (String c s)) <> EmptyString) by discriminate.
  assert (H2 : String a (String b (String c s)) <> ".") by discriminate.
  assert (H3 : String a (String b (String c s)) <> "..") by discriminate.
  apply String.eqb_neq in H1, H2, H3. now rewrite H1, H2, H3.
Qed.

Lemma filename_plain (date slug : string) :
  sepFree date -> sepFree slug ->
  plainSegment (date ++ "_" ++ slug ++ ".md") = true.
Proof.
  intros Hd Hs. apply plain_of_long.
  - rewrite !slength_app. simpl. lia.
  - unfold sepFree in *. rewrite !inString_app, Hd, Hs. reflexivity.
Qed.

Lemma normalize_truthy_result (P : string) : Str.truthy (Path.normalize P) = true.
Proof.
  destruct P as [|c P]; [reflexivity|].
  rewrite normalize_truthy by reflexivity.
  destruct (Path.normalizeString (String c P) _) as [|d q].
  - destruct (Path.isAbsolute _); [reflexivity|].
    now destruct (Str.endsWith _ _).
  - destruct (Path.isAbsolute _); [reflexivity|].
    now destruct (Str.endsWith _ _).
Qed.

Lemma join_truthy (l : list string) : Str.truthy (Path.join l) = true.
Proof.
  unfold Path.join. destruct (filter Str.truthy l); [reflexivity|].
  apply normalize_truthy_result.
Qed.

(** The category directory is made, unless it is there, and the file is
    written into it. *)
Lemma create_local (es : list (string * Fs.node)) (cat fname data : string) :
  (forall c, Fs.stat (Fs.Dir es) [cat] <> Ok (Fs.File c)) ->
  (forall l, Fs.stat (Fs.Dir es) [cat; fname] <> Ok (Fs.Dir l)) ->
  exists r1 r2,
    Fs.mkdirp (Fs.Dir es) [cat] = Ok r1
    /\ (forall l, Fs.stat r1 [cat; fname] <> Ok (Fs.Dir l))
    /\ Fs.put r1 [cat; fname] (Fs.File data) = Ok r2
    /\ Fs.stat r2 [cat; fname] = Ok (Fs.File data).
Proof.
  intros Hcat Htarget. simpl in Hcat, Htarget.
  rewrite mkdirp_step.
  destruct (Fs.find cat es) as [[c|dl]|] eqn:Hf.
  - now elim (Hcat c).
  - exists (Fs.Dir (Fs.setEntry cat (Fs.Dir dl) es)).
    exists (Fs.Dir (Fs.setEntry cat (Fs.Dir (Fs.setEntry fname (Fs.File data) dl))
                      (Fs.setEntry cat (Fs.Dir dl) es))).
    split; [reflexivity|]. split; [|split].
    + intros l. simpl. rewrite find_setEntry_same. apply Htarget.
    + rewrite put_step, find_setEntry_same. reflexivity.
    + simpl. now rewrite !find_setEntry_same.
  - exists (Fs.Dir (es ++ [(cat, Fs.Dir [])])%list).
    exists (Fs.Dir (Fs.setEntry cat (Fs.Dir [(fname, Fs.File data)])
                      (es ++ [(cat, Fs.Dir [])])%list)).
    assert (Hf2 : Fs.find cat (es ++ [(cat, Fs.Dir [])])%list = Some (Fs.Dir []))
      by (rewrite find_app, Hf; simpl; now rewrite String.eqb_refl).
    split; [reflexivity|]. split; [|split].
    + intros l. simpl. rewrite Hf2. discriminate.
    + rewrite put_step, Hf2. reflexivity.
    + simpl. rewrite find_setEntry_same. simpl. now rewrite String.eqb_refl.
Qed.

Section Create.
Context `{Host}.

Lemma ensureNotesDirectory_present (w : Fs.world) (root : Fs.node) :
  Fs.stat (Fs.tree w) (Path.resolveSegs cwd NOTES_DIR) = Ok root ->
  Model.ensureNotesDirectory w = (Ok tt, Fs.logged (Fs.Access NOTES_DIR) w).
Proof.
  intros Hroot. unfold Model.ensureNotesDirectory, tryCatch.
  now rewrite (access_ok NOTES_DIR w root).
Qed.

(** C5 (amended).  The slug is the title in lower case with every maximal
    run of characters outside a-z and 0-9 replaced by one underscore, a run
    at the end included.  When the role may create, the category is the
    name of a directory, and the notes directory exists with nothing in the
    way (no regular file named like the category, no directory named like
    the file), [createNote] writes the formatted note and returns the id
    made of the category, a separator, the date, an underscore, the slug
    and the extension. *)
Theorem C5_createNote_filename
  (role : option string) (title content : string) (tags : list string)
  (category author : string) (w : Fs.world) (entries : list (string * Fs.node)) :
  let filename := (today ++ "_" ++ Model.slugOf title ++ ".md")%string in
  Auth.isAuthorized role (Some "create") = Ok true ->
  plainSegment category = true ->
  sepFree today ->
  Fs.stat (Fs.tree w) (Path.resolveSegs cwd NOTES_DIR) = Ok (Fs.Dir entries) ->
  (forall c, Fs.stat (Fs.Dir entries) [category] <> Ok (Fs.File c)) ->
  (forall l, Fs.stat (Fs.Dir entries) [category; filename] <> Ok (Fs.Dir l)) ->
  Collapsed (Str.toLowerCase title) (Model.slugOf title)
  /\ exists w',
       Model.createNote role title content tags category author w
       = (Ok (Model.mkCreated (category ++ "/" ++ filename) title
                (Path.join [Path.join [NOTES_DIR; category]; filename]) today),
          w')
       /\ Fs.stat (Fs.tree w')
            (Path.resolveSegs cwd NOTES_DIR ++ [category; filename])
          = Ok (Fs.File
                  (Fmt.formatNoteContent
                     (Md.mk (Some today) (Some tags) (Some []) (Some author) None)
                     title content)).
Proof.
  intros filename Hauth Hcat Htoday Hroot Hnofile Hnodir.
  split; [apply collapse_Collapsed|].
  set (R := Path.resolveSegs cwd NOTES_DIR) in *.
  set (categoryDir := Path.join [NOTES_DIR; category]).
  set (filePath := Path.join [categoryDir; filename]).
  set (data := Fmt.formatNoteContent
                 (Md.mk (Some today) (Some tags) (Some []) (Some author) None)
                 title content).
  assert (Hfn : plainSegment filename = true)
    by (apply filename_plain; [assumption|apply collapse_sepFree]).
  assert (Hcd : FsP.abs categoryDir = (R ++ [category])%list).
  { apply abs_join_segments;
      [apply split_sepFree; now apply plainSegment_sepFree|].
    constructor; [now apply plainSegment_kept|constructor]. }
  assert (Hfp : FsP.abs filePath = (R ++ [category; filename])%list).
  { unfold FsP.abs, filePath. rewrite resolve_join2 by apply join_truthy.
    fold (FsP.abs categoryDir). rewrite Hcd, resolveFrom_plain by assumption.
    now rewrite <- app_assoc. }
  destruct (create_local entries category filename data Hnofile Hnodir)
    as (r1 & r2 & Hmk & Hnd1 & Hput & Hst2).
  destruct (put_root R (Fs.tree w) _ r1 Hroot) as (t1 & Hp1 & Ht1).
  destruct (put_root R t1 r1 r2 Ht1) as (t2 & Hp2 & Ht2).
  exists (Fs.mkWorld t2
            (((Fs.log w ++ [Fs.Access NOTES_DIR]) ++ [Fs.Mkdir categoryDir])
             ++ [Fs.WriteFile filePath data])%list).
  split.
  - unfold Model.createNote. fold filename categoryDir filePath data.
    rewrite (authorize_when_allowed _ _ Hauth), bind_ret_l.
    unfold bind at 1. rewrite (ensureNotesDirectory_present w _ Hroot).
    unfold bind at 1.
    rewrite (mkdir_ok categoryDir _ t1).
    2:{ cbn [Fs.logged Fs.tree]. rewrite Hcd.
        now rewrite (mkdirp_app R [category] _ _ Hroot), Hmk. }
    unfold bind at 1.
    rewrite (writeFile_ok filePath data _ t2).
    + unfold ret. cbn [Fs.log Fs.logged Fs.tree].
      rewrite (relative_below cwd NOTES_DIR filePath [category; filename]);
        [reflexivity|exact Hfp|discriminate].
    + intros l. cbn [Fs.tree]. rewrite Hfp, stat_app, Ht1. apply Hnd1.
    + cbn [Fs.tree]. rewrite Hfp.
      now rewrite (put_app R [category; filename] _ ltac:(discriminate) t1 r1 Ht1),
        Hput.
  - cbn [Fs.tree]. now rewrite stat_app, Ht2.
Qed.

End Create.

(** The example of the specification, on a machine where the notes
    directory exists: the two exclamation marks at the end of the title
    make a run, and the slug ends with its underscore. *)
Lemma C5_createNote_witness :
  Collapsed (Str.toLowerCase "Quantum Computing!!") "quantum_computing_"
  /\ exists w',
       Model.createNote (H := refHost) (Some "admin") "Quantum Computing!!"
         "body" ["q"] "topics" "bob" Ex.emptyNotes
       = (Ok (Model.mkCreated "topics/2025-03-15_quantum_computing_.md"
                "Quantum Computing!!"
                "notes/topics/2025-03-15_quantum_computing_.md" "2025-03-15"),
          w')
       /\ Fs.stat (Fs.tree w')
            ["app"; "notes"; "topics"; "2025-03-15_quantum_computing_.md"]
          = Ok (Fs.File
                  (Fmt.formatNoteContent (H := refHost) Ex.mdOfBob
                     "Quantum Computing!!" "body")).
Proof.
  apply (C5_createNote_filename (H := refHost) (Some "admin")
           "Quantum Computing!!" "body" ["q"] "topics" "bob" Ex.emptyNotes []).
  - reflexivity.
  - reflexivity.
  - reflexivity.
  - vm_compute. reflexivity.
  - intros c. vm_compute. discriminate.
  - intros l. vm_compute. discriminate.
Defined.

(** The id that [createNote] returns for the example of the specification
    is not the id that the specification gives. *)
Lemma C5_example_id_has_trailing_underscore :
  fst (Model.createNote (H := refHost) (Some "admin") "Quantum Computing!!"
         "body" ["q"] "topics" "bob" Ex.fresh)
  = Ok (Model.mkCreated "topics/2025-03-15_quantum_computing_.md"
          "Quantum Computing!!"
          "notes/topics/2025-03-15_quantum_computing_.md" "2025-03-15")
  /\ "topics/2025-03-15_quantum_computing_.md"
     <> "topics/2025-03-15_quantum_computing.md".
Proof. split; [vm_compute; reflexivity|discriminate]. Qed.

(** * Further properties of the code *)

(** ** The permission table, read as a whole *)

Lemma assoc_PERMISSIONS_In (r : string) (ops : list string) :
  Auth.assoc r Auth.PERMISSIONS = Some ops -> In (r, ops) Auth.PERMISSIONS.
Proof.
  unfold Auth.PERMISSIONS. cbn [Auth.assoc].
  repeat match goal with
  | |- context [String.eqb r ?k] =>
      destruct (String.eqb_spec r k) as [->|_];
      [intros [= <-]; simpl; tauto|]
  end. discriminate.
Qed.

Lemma PERMISSIONS_no_empty_operation (r : string) (ops : list string) :
  Auth.assoc r Auth.PERMISSIONS = Some ops -> ~ In EmptyString ops.
Proof.
  intros Hr Hin. apply assoc_PERMISSIONS_In in Hr. simpl in Hr.
  repeat (destruct Hr as [Hr|Hr];
          [injection Hr as <- <-; simpl in Hin;
           repeat (destruct Hin as [Hin|Hin]; [discriminate|]); exact Hin|]).
  exact Hr.
Qed.

(** X1.  Outside the property names of [Object.prototype], [isAuthorized]
    returns a boolean, and the boolean is true exactly when the role is a
    key of the table and the operation is in its list. *)
Theorem isAuthorized_characterized (role operation : option string) :
  (forall r, role = Some r -> ~ In r Auth.objectPrototypeKeys) ->
  exists b,
    Auth.isAuthorized role operation = Ok b
    /\ (b = true <->
        exists r op ops,
          role = Some r /\ operation = Some op
          /\ Auth.assoc r Auth.PERMISSIONS = Some ops /\ In op ops).
Proof.
  intros Hproto.
  destruct role as [r|]; [|exists false; split; [reflexivity|];
    split; [discriminate|intros (r & op & ops & Hr & _); discriminate]].
  destruct operation as [op|]; [|exists false; split; [reflexivity|];
    split; [discriminate|intros (r' & op & ops & _ & Hop & _); discriminate]].
  unfold Auth.isAuthorized, Auth.PERMISSIONS_get.
  destruct (Auth.assoc r Auth.PERMISSIONS) as [ops|] eqn:Hassoc.
  - assert (Hr : Str.truthy r = true).
    { destruct r; [discriminate|reflexivity]. }
    rewrite Hr. cbn [negb orb].
    destruct (Str.truthy op) eqn:Hop; cbn [negb].
    + exists (Str.mem op ops). split; [reflexivity|].
      rewrite mem_true_iff. split.
      * intros Hin. now exists r, op, ops.
      * intros (r' & op' & ops' & [= <-] & [= <-] & Hops & Hin). congruence.
    + exists false. split; [reflexivity|]. split; [discriminate|].
      intros (r' & op' & ops' & [= <-] & [= <-] & Hops & Hin).
      destruct op; [|discriminate].
      now elim (PERMISSIONS_no_empty_operation r ops' Hops).
  - rewrite (mem_false_of_not_in r _ (Hproto r eq_refl)).
    exists false. split; [now destruct (negb _ || negb _)|].
    split; [discriminate|].
    intros (r' & op' & ops' & [= <-] & _ & Hops & _). congruence.
Qed.

Lemma isAuthorized_characterized_witness :
  exists b,
    Auth.isAuthorized (Some "research") (Some "delete") = Ok b
    /\ (b = true <->
        exists r op ops,
          Some "research" = Some r /\ Some "delete" = Some op
          /\ Auth.assoc r Auth.PERMISSIONS = Some ops /\ In op ops).
Proof.
  apply (isAuthorized_characterized (Some "research") (Some "delete")).
  intros r [= <-]. simpl.
  intros H. repeat (destruct H as [H|H]; [discriminate|]). exact H.
Defined.

(** ** What the functions that change notes can throw *)

Section ThrowsMore.
Context `{Host}.

Lemma fs_once_authorized {A : Type} (m : M A) :
  throwsOnly isFsError m -> throwsOnly onceAuthorized m.
Proof.
  apply throwsOnly_weaken. intros e He. left. now apply fs_is_platform.
Qed.

Lemma notFoundIsNull_once_authorized {A : Type} (m : M (option A)) :
  throwsOnly isFsError m ->
  throwsOnly onceAuthorized (tryCatch m Model.notFoundIsNull).
Proof.
  intros Hm. apply (throwsOnly_tryCatch isFsError); [exact Hm|].
  intros e He. apply notFoundIsNull_rethrows. left. now apply fs_is_platform.
Qed.

Lemma createNote_once_authorized (role : option string) (title content : string)
  (tags : list string) (category author : string) :
  Auth.isAuthorized role (Some "create") = Ok true ->
  throwsOnly onceAuthorized
    (Model.createNote role title content tags category author).
Proof.
  intros Hauth. unfold Model.createNote.
  rewrite (authorize_when_allowed _ _ Hauth), bind_ret_l.
  apply fs_once_authorized.
  apply throwsOnly_bind; [apply ensureNotesDirectory_throws|intros _].
  apply throwsOnly_bind; [apply mkdir_throws|intros _].
  apply throwsOnly_bind; [apply writeFile_throws|intros _].
  apply throwsOnly_ret.
Qed.

Lemma updateNote_once_authorized (role : option string) (noteId : string)
  (title content : option string) (tags : option (list string)) :
  Auth.isAuthorized role (Some "update") = Ok true ->
  throwsOnly onceAuthorized (Model.updateNote role noteId title content tags).
Proof.
  intros Hauth. unfold Model.updateNote.
  rewrite (authorize_when_allowed _ _ Hauth), bind_ret_l.
  apply throwsOnly_bind; [apply validatePath_throws|intros _].
  apply notFoundIsNull_once_authorized.
  apply throwsOnly_bind; [apply access_throws|intros _].
  apply throwsOnly_bind; [apply readFile_throws|intros c].
  apply throwsOnly_bind; [apply writeFile_throws|intros _].
  apply throwsOnly_ret.
Qed.

Lemma appendToNote_once_authorized (role : option string) (noteId content : string) :
  Auth.isAuthorized role (Some "update") = Ok true ->
  throwsOnly onceAuthorized (Model.appendToNote role noteId content).
Proof.
  intros Hauth. unfold Model.appendToNote.
  rewrite (authorize_when_allowed _ _ Hauth), bind_ret_l.
  apply throwsOnly_bind; [apply validatePath_throws|intros _].
  apply notFoundIsNull_once_authorized.
  apply throwsOnly_bind; [apply access_throws|intros _].
  apply throwsOnly_bind; [apply readFile_throws|intros c].
  apply throwsOnly_bind; [apply writeFile_throws|intros _].
  apply throwsOnly_ret.
Qed.

Lemma deleteNote_once_authorized (role : option string) (noteId : string)
  (shouldArchive : bool) :
  Auth.isAuthorized role (Some "delete") = Ok true ->
  throwsOnly onceAuthorized (Model.deleteNote role noteId shouldArchive).
Proof.
  intros Hauth. unfold Model.deleteNote.
  rewrite (authorize_when_allowed _ _ Hauth), bind_ret_l.
  apply throwsOnly_bind; [apply validatePath_throws|intros _].
  apply notFoundIsNull_once_authorized.
  apply throwsOnly_bind; [apply access_throws|intros _].
  destruct shouldArchive.
  - apply throwsOnly_bind; [apply mkdir_throws|intros _].
    apply throwsOnly_bind; [apply rename_throws|intros _].
    apply throwsOnly_ret.
  - apply throwsOnly_bind; [apply unlink_throws|intros _].
    apply throwsOnly_ret.
Qed.

End ThrowsMore.

(** ** Routes: the role check of the middleware and the one of the model *)

Lemma returnsOnly_ret {A : Type} (Q : A -> Prop) (a : A) :
  Q a -> returnsOnly Q (ret a).
Proof. intros Ha w a' w' [= <- _]. exact Ha. Qed.

Lemma returnsOnly_bind {A B : Type} (Q : B -> Prop) (m : M A) (k : A -> M B) :
  (forall a, returnsOnly Q (k a)) -> returnsOnly Q (bind m k).
Proof.
  intros Hk w b w' Heq. unfold bind in Heq.
  destruct (m w) as [[a|e] w1]; [|discriminate].
  now apply (Hk a w1 b w').
Qed.

(** A handler body in its [try], with [next(error)] in the [catch]. *)
Lemma caught_is_passed_on (P : exn -> Prop) (body : M Handlers.reply)
  (w : Fs.world) :
  throwsOnly P body -> returnsOnly isResponse body ->
  match fst (tryCatch body (fun error => ret (Handlers.Next error)) w) with
  | Ok (Handlers.Next e) => P e
  | Ok _ => True
  | Throw _ => False
  end.
Proof.
  intros Ht Hr. unfold tryCatch.
  destruct (body w) as [[r|e] w1] eqn:Hb; cbn [fst].
  - pose proof (Hr _ _ _ Hb) as Hresp. now destruct r.
  - now apply (Ht _ _ _ Hb).
Qed.

Section RoutesChecks.
Context `{Host}.

Lemma mem_allowed_cases (role : string) (l : list string) :
  Str.mem role l = true -> In role l.
Proof. apply mem_true_iff. Qed.

Lemma handler_getAllNotes_ok (req : Handlers.request) (w : Fs.world) :
  Auth.isAuthorized (Handlers.role req) (Some "read") = Ok true ->
  match fst (Handlers.getAllNotes req w) with
  | Ok (Handlers.Next e) => onceAuthorized e
  | Ok _ => True
  | Throw _ => False
  end.
Proof.
  intros Hauth. apply caught_is_passed_on.
  - apply throwsOnly_bind; [now apply getAllNotes_once_authorized|].
    intros notes. apply throwsOnly_ret.
  - apply returnsOnly_bind. intros notes. now apply returnsOnly_ret.
Qed.

Lemma handler_getNoteById_ok (req : Handlers.request) (w : Fs.world) :
  Auth.isAuthorized (Handlers.role req) (Some "read") = Ok true ->
  match fst (Handlers.getNoteById req w) with
  | Ok (Handlers.Next e) => onceAuthorized e
  | Ok _ => True
  | Throw _ => False
  end.
Proof.
  intros Hauth. apply caught_is_passed_on.
  - apply throwsOnly_bind; [now apply getNoteById_once_authorized|].
    intros [n|]; apply throwsOnly_ret.
  - apply returnsOnly_bind. intros [n|]; now apply returnsOnly_ret.
Qed.

Lemma handler_updateNote_ok (req : Handlers.request) (w : Fs.world) :
  Auth.isAuthorized (Handlers.role req) (Some "update") = Ok true ->
  match fst (Handlers.updateNote req w) with
  | Ok (Handlers.Next e) => onceAuthorized e
  | Ok _ => True
  | Throw _ => False
  end.
Proof.
  intros Hauth. apply caught_is_passed_on.
  - destruct (_ && _); [apply throwsOnly_ret|].
    apply throwsOnly_bind; [now apply updateNote_once_authorized|].
    intros [n|]; apply throwsOnly_ret.
  - destruct (_ && _); [now apply returnsOnly_ret|].
    apply returnsOnly_bind. intros [n|]; now apply returnsOnly_ret.
Qed.

Lemma handler_deleteNote_ok (req : Handlers.request) (w : Fs.world) :
  Auth.isAuthorized (Handlers.role req) (Some "delete") = Ok true ->
  match fst (Handlers.deleteNote req w) with
  | Ok (Handlers.Next e) => onceAuthorized e
  | Ok _ => True
  | Throw _ => False
  end.
Proof.
  intros Hauth. apply caught_is_passed_on.
  - apply throwsOnly_bind; [now apply deleteNote_once_authorized|].
    intros [n|]; apply throwsOnly_ret.
  - apply returnsOnly_bind. intros [n|]; now apply returnsOnly_ret.
Qed.

Lemma handler_appendToNote_ok (req : Handlers.request) (w : Fs.world) :
  Auth.isAuthorized (Handlers.role req) (Some "update") = Ok true ->
  match fst (Handlers.appendToNote req w) with
  | Ok (Handlers.Next e) => onceAuthorized e
  | Ok _ => True
  | Throw _ => False
  end.
Proof.
  intros Hauth. apply caught_is_passed_on.
  - destruct (Handlers.b_content req) as [c|]; [|apply throwsOnly_ret].
    destruct (negb _); [apply throwsOnly_ret|].
    apply throwsOnly_bind; [now apply appendToNote_once_authorized|].
    intros [n|]; apply throwsOnly_ret.
  - destruct (Handlers.b_content req) as [c|]; [|now apply returnsOnly_ret].
    destruct (negb _); [now apply returnsOnly_ret|].
    apply returnsOnly_bind. intros [n|]; now apply returnsOnly_ret.
Qed.

Lemma handler_searchNotes_ok (req : Handlers.request) (w : Fs.world) :
  Auth.isAuthorized (Handlers.role req) (Some "read") = Ok true ->
  match fst (Handlers.searchNotes req w) with
  | Ok (Handlers.Next e) => onceAuthorized e
  | Ok _ => True
  | Throw _ => False
  end.
Proof.
  intros Hauth. apply caught_is_passed_on.
  - destruct (Handlers.b_query req) as [q|]; [|apply throwsOnly_ret].
    destruct (negb _); [apply throwsOnly_ret|].
    apply throwsOnly_bind; [now apply searchNotes_once_authorized|].
    intros notes. apply throwsOnly_ret.
  - destruct (Handlers.b_query req) as [q|]; [|now apply returnsOnly_ret].
    destruct (negb _); [now apply returnsOnly_ret|].
    apply returnsOnly_bind. intros notes. now apply returnsOnly_ret.
Qed.

Lemma handler_createNote_ok (req : Controller.request) (w : Fs.world) :
  Auth.isAuthorized (Some (Controller.role (Controller.req_agent req)))
    (Some "create") = Ok true ->
  match fst (Controller.createNote req w) with
  | Ok (Controller.Next e) => onceAuthorized e
  | Ok _ => True
  | Throw _ => False
  end.
Proof.
  intros Hauth. unfold Controller.createNote, tryCatch.
  destruct (Controller.b_title (Controller.req_body req)) as [t|];
    destruct (Controller.b_content (Controller.req_body req)) as [c|];
    try exact I.
  destruct (negb (Str.truthy t) || negb (Str.truthy c)); [exact I|].
  unfold bind.
  destruct (Model.createNote _ t c _ _ _ w) as [[r|e] w1] eqn:Hc; cbn [fst ret].
  - exact I.
  - now apply (createNote_once_authorized _ _ _ _ _ _ Hauth _ _ _ Hc).
Qed.

Lemma dispatch_reply (m : M Handlers.reply) (w : Fs.world) :
  match fst (m w) with
  | Ok (Handlers.Next e) => onceAuthorized e
  | Ok _ => True
  | Throw _ => False
  end ->
  endsPastPermission (fst (bind m (fun x => ret (Routes.Reply x)) w)).
Proof.
  unfold bind. destruct (m w) as [[x|e] w1]; cbn [fst ret]; [|tauto].
  destruct x; try tauto. cbn [endsPastPermission passedOn].
  apply onceAuthorized_not_denied.
Qed.

Lemma dispatch_create_reply (m : M Controller.response) (w : Fs.world) :
  match fst (m w) with
  | Ok (Controller.Next e) => onceAuthorized e
  | Ok _ => True
  | Throw _ => False
  end ->
  endsPastPermission (fst (bind m (fun x => ret (Routes.CreateReply x)) w)).
Proof.
  unfold bind. destruct (m w) as [[x|e] w1]; cbn [fst ret]; [|tauto].
  destruct x; try tauto. cbn [endsPastPermission passedOn].
  apply onceAuthorized_not_denied.
Qed.

(** X2.  On every route, a request that the middleware lets through is not
    refused again by the model: the route ends with a response or with
    an error passed on, and this error is never the permission error of
    the model.  A request that the middleware refuses is answered without
    any call to the file system. *)
Theorem routes_agree_with_the_permission_table
  (r : Routes.route) (req : Routes.request) (w : Fs.world) :
  endsPastPermission (fst (Routes.dispatch r req w))
  /\ (forall status error,
        Middleware.authorize (Routes.allowed r) (Routes.agent req)
        = Middleware.Refuse status error ->
        Routes.dispatch r req w
        = (Ok (Routes.Reply (Handlers.Failure status error)), w)).
Proof.
  split.
  - unfold Routes.dispatch.
    destruct (Routes.agent req) as [a|] eqn:Hagent; [|exact I].
    unfold Middleware.authorize.
    destruct (Str.truthy (Controller.role a)) eqn:Hrole; cbn [negb]; [|exact I].
    assert (Hstar : Str.mem "*" (Routes.allowed r) = false) by now destruct r.
    rewrite Hstar, andb_true_r.
    destruct (Str.mem (Controller.role a) (Routes.allowed r)) eqn:Hmem;
      cbn [negb]; [|exact I].
    apply mem_allowed_cases in Hmem.
    destruct r; cbn [Routes.allowed] in Hmem; simpl in Hmem;
      repeat (destruct Hmem as [Hmem|Hmem]; [|try contradiction]);
      first
        [ apply dispatch_create_reply, handler_createNote_ok
        | apply dispatch_reply;
          first [ apply handler_getAllNotes_ok | apply handler_getNoteById_ok
                | apply handler_updateNote_ok | apply handler_deleteNote_ok
                | apply handler_appendToNote_ok | apply handler_searchNotes_ok ] ];
      unfold Handlers.role, Routes.forHandler, Routes.forCreate;
      cbn [Handlers.agent Controller.req_agent];
      now rewrite <- Hmem.
  - intros status error Href. unfold Routes.dispatch. now rewrite Href.
Qed.

End RoutesChecks.

Lemma routes_agree_witness :
  endsPastPermission
    (fst (Routes.dispatch (H := refHost) Routes.Delete
            (Ex.requestOf "research" "topics/x.md") Ex.withX))
  /\ Routes.dispatch (H := refHost) Routes.Delete
       (Ex.requestOf "research" "topics/x.md") Ex.withX
     = (Ok (Routes.Reply (Handlers.Failure 403 "Insufficient permissions")),
        Ex.withX).
Proof.
  destruct (routes_agree_with_the_permission_table (H := refHost) Routes.Delete
              (Ex.requestOf "research" "topics/x.md") Ex.withX) as [Hends Hrefuse].
  split; [exact Hends|]. apply Hrefuse. reflexivity.
Defined.

(** ** The handlers: what they refuse, and what they answer for a missing note *)

Section HandlerChecks.
Context `{Host}.

(** X3.  The handlers of update, append and search refuse a request without
    the field they need, with a 400, before they call the model: the file
    system is neither changed nor called. *)
Theorem handlers_validate_before_the_model (req : Handlers.request) (w : Fs.world) :
  (Str.truthy_opt (Handlers.b_title req) = false ->
   Str.truthy_opt (Handlers.b_content req) = false ->
   Handlers.b_tags req = None ->
   Handlers.updateNote req w
   = (Ok (Handlers.Failure 400 "At least one field to update is required"), w))
  /\ (Str.truthy_opt (Handlers.b_content req) = false ->
      Handlers.appendToNote req w
      = (Ok (Handlers.Failure 400 "Content is required"), w))
  /\ (Str.truthy_opt (Handlers.b_query req) = false ->
      Handlers.searchNotes req w
      = (Ok (Handlers.Failure 400 "Search query is required"), w)).
Proof.
  split; [|split].
  - intros Ht Hc Htags. unfold Handlers.updateNote, tryCatch.
    now rewrite Ht, Hc, Htags.
  - intros Hc. unfold Handlers.appendToNote, tryCatch.
    destruct (Handlers.b_content req) as [c|]; [|reflexivity].
    simpl in Hc. now rewrite Hc.
  - intros Hq. unfold Handlers.searchNotes, tryCatch.
    destruct (Handlers.b_query req) as [q|]; [|reflexivity].
    simpl in Hq. now rewrite Hq.
Qed.

End HandlerChecks.

Lemma handlers_validate_witness :
  Handlers.updateNote (H := refHost) (Ex.handlerRequestOf "admin" "topics/x.md")
    Ex.withX
  = (Ok (Handlers.Failure 400 "At least one field to update is required"),
     Ex.withX)
  /\ Handlers.appendToNote (H := refHost)
       (Ex.handlerRequestOf "admin" "topics/x.md") Ex.withX
     = (Ok (Handlers.Failure 400 "Content is required"), Ex.withX)
  /\ Handlers.searchNotes (H := refHost)
       (Ex.handlerRequestOf "admin" "topics/x.md") Ex.withX
     = (Ok (Handlers.Failure 400 "Search query is required"), Ex.withX).
Proof.
  destruct (handlers_validate_before_the_model (H := refHost)
              (Ex.handlerRequestOf "admin" "topics/x.md") Ex.withX)
    as (Hupdate & Happend & Hsearch).
  split; [|split].
  - apply Hupdate; reflexivity.
  - apply Happend; reflexivity.
  - apply Hsearch; reflexivity.
Defined.

(** ** The checks come before the file system *)

Section Refused.
Context `{Host}.

(** X4.  The functions that take a note id check the role, then the path, and
    only then call the file system: a role that may not do the operation
    gets the permission error, whatever the id; a role that may, with an id
    whose path does not begin with the notes directory, gets the path
    error; in both cases no file system call is made and nothing is
    changed. *)
Theorem refused_requests_touch_nothing
  (role : option string) (noteId : string) (title content : option string)
  (tags : option (list string)) (text : string) (shouldArchive : bool)
  (w : Fs.world) :
  (Auth.isAuthorized role (Some "read") = Ok false ->
   Model.getNoteById role noteId w = (Throw permissionDenied, w))
  /\ (Auth.isAuthorized role (Some "update") = Ok false ->
      Model.updateNote role noteId title content tags w = (Throw permissionDenied, w)
      /\ Model.appendToNote role noteId text w = (Throw permissionDenied, w))
  /\ (Auth.isAuthorized role (Some "delete") = Ok false ->
      Model.deleteNote role noteId shouldArchive w = (Throw permissionDenied, w))
  /\ (Str.startsWith (Path.resolve cwd (Path.join [NOTES_DIR; noteId]))
        (Path.resolve cwd NOTES_DIR) = false ->
      (Auth.isAuthorized role (Some "read") = Ok true ->
       Model.getNoteById role noteId w = (Throw invalidPath, w))
      /\ (Auth.isAuthorized role (Some "update") = Ok true ->
          Model.updateNote role noteId title content tags w = (Throw invalidPath, w)
          /\ Model.appendToNote role noteId text w = (Throw invalidPath, w))
      /\ (Auth.isAuthorized role (Some "delete") = Ok true ->
          Model.deleteNote role noteId shouldArchive w = (Throw invalidPath, w))).
Proof.
  split; [|split; [|split]].
  - intros Hno. unfold Model.getNoteById.
    now rewrite (authorize_when_refused _ _ Hno).
  - intros Hno. unfold Model.updateNote, Model.appendToNote.
    now rewrite (authorize_when_refused _ _ Hno).
  - intros Hno. unfold Model.deleteNote.
    now rewrite (authorize_when_refused _ _ Hno).
  - intros Hout. split; [|split].
    + intros Hyes. now apply getNoteById_rejected.
    + intros Hyes. unfold Model.updateNote, Model.appendToNote.
      rewrite (authorize_when_allowed _ _ Hyes), !bind_ret_l.
      unfold bind. now rewrite (validatePath_rejects _ w Hout).
    + intros Hyes. unfold Model.deleteNote.
      rewrite (authorize_when_allowed _ _ Hyes), !bind_ret_l.
      unfold bind. now rewrite (validatePath_rejects _ w Hout).
Qed.

End Refused.

Lemma refused_requests_witness :
  Model.updateNote (H := refHost) (Some "analytics") "../other/x.md"
    (Some "T") None None Ex.withX
  = (Throw permissionDenied, Ex.withX)
  /\ Model.appendToNote (H := refHost) (Some "analytics") "../other/x.md" "more"
       Ex.withX
     = (Throw permissionDenied, Ex.withX)
  /\ Model.deleteNote (H := refHost) (Some "analytics") "../other/x.md" false
       Ex.withX
     = (Throw permissionDenied, Ex.withX)
  /\ Model.getNoteById (H := refHost) (Some "analytics") "../other/x.md" Ex.withX
     = (Throw invalidPath, Ex.withX).
Proof.
  destruct (refused_requests_touch_nothing (H := refHost) (Some "analytics")
              "../other/x.md" (Some "T") None None "more" false Ex.withX)
    as (_ & Hupdate & Hdelete & Hpath).
  destruct (Hupdate eq_refl) as [Hu Ha].
  destruct (Hpath eq_refl) as (Hget & _ & _).
  split; [exact Hu|]. split; [exact Ha|].
  split; [exact (Hdelete eq_refl)|exact (Hget eq_refl)].
Defined.

(** ** A note that is not there *)

Section Missing.
Context `{Host}.

Lemma access_missing (p : string) (w : Fs.world) :
  Fs.stat (Fs.tree w) (FsP.abs p) = Throw (FsError ENOENT) ->
  FsP.access p w = (Throw (FsError ENOENT), Fs.logged (Fs.Access p) w).
Proof. intros Hs. unfold FsP.access, FsP.reading. now rewrite Hs. Qed.

Variables (role : option string) (q : string) (l : list string) (w : Fs.world).
Hypothesis Hq : Path.segments q = l.
Hypothesis Hl : Forall kept l.
Hypothesis Hmissing :
  Fs.stat (Fs.tree w) (Path.resolveSegs cwd NOTES_DIR ++ l) = Throw (FsError ENOENT).

Let notePath : string := Path.join [NOTES_DIR; q].

Lemma updateNote_missing (title content : option string)
  (tags : option (list string)) :
  Auth.isAuthorized role (Some "update") = Ok true ->
  Model.updateNote role q title content tags w
  = (Ok None, Fs.logged (Fs.Access notePath) w).
Proof.
  intros Hauth. unfold Model.updateNote. fold notePath.
  rewrite (authorize_when_allowed _ _ Hauth), bind_ret_l.
  rewrite (validatePath_below _ l) by now apply abs_join_segments.
  rewrite bind_ret_l. unfold tryCatch, bind.
  rewrite access_missing; [reflexivity|].
  unfold notePath. now rewrite (abs_join_segments q l).
Qed.

Lemma appendToNote_missing (text : string) :
  Auth.isAuthorized role (Some "update") = Ok true ->
  Model.appendToNote role q text w
  = (Ok None, Fs.logged (Fs.Access notePath) w).
Proof.
  intros Hauth. unfold Model.appendToNote. fold notePath.
  rewrite (authorize_when_allowed _ _ Hauth), bind_ret_l.
  rewrite (validatePath_below _ l) by now apply abs_join_segments.
  rewrite bind_ret_l. unfold tryCatch, bind.
  rewrite access_missing; [reflexivity|].
  unfold notePath. now rewrite (abs_join_segments q l).
Qed.

Lemma deleteNote_missing (shouldArchive : bool) :
  Auth.isAuthorized role (Some "delete") = Ok true ->
  Model.deleteNote role q shouldArchive w
  = (Ok None, Fs.logged (Fs.Access notePath) w).
Proof.
  intros Hauth. unfold Model.deleteNote. fold notePath.
  rewrite (authorize_when_allowed _ _ Hauth), bind_ret_l.
  rewrite (validatePath_below _ l) by now apply abs_join_segments.
  rewrite bind_ret_l. unfold tryCatch, bind.
  rewrite access_missing; [reflexivity|].
  unfold notePath. now rewrite (abs_join_segments q l).
Qed.

End Missing.

Section MissingAnswers.
Context `{Host}.

(** X5.  For an id of plain segments under which there is no file, whose
    path the operating system takes (no NUL character, no name over 255
    bytes, less than 4096 bytes in all), and a role that may do the
    operation, the handlers of get, update, delete and append answer 404
    with the message Note not found.  One call was made to the file
    system, to look for the file; the tree is as it was, and no archive
    directory was made for a delete that asked for one. *)
Theorem missing_note_is_answered_404
  (req : Handlers.request) (l : list string) (w : Fs.world) :
  let notePath := Path.join [NOTES_DIR; Handlers.id req] in
  let notFound := Handlers.Failure 404 "Note not found" in
  Path.segments (Handlers.id req) = l ->
  Forall kept l ->
  fsTakes notePath = true ->
  Fs.stat (Fs.tree w) (Path.resolveSegs cwd NOTES_DIR ++ l) = Throw (FsError ENOENT) ->
  (Auth.isAuthorized (Handlers.role req) (Some "read") = Ok true ->
   Handlers.getNoteById req w = (Ok notFound, Fs.logged (Fs.ReadFile notePath) w))
  /\ (Auth.isAuthorized (Handlers.role req) (Some "update") = Ok true ->
      (Handlers.b_tags req <> None ->
       Handlers.updateNote req w = (Ok notFound, Fs.logged (Fs.Access notePath) w))
      /\ (Str.truthy_opt (Handlers.b_content req) = true ->
          Handlers.appendToNote req w
          = (Ok notFound, Fs.logged (Fs.Access notePath) w)))
  /\ (Auth.isAuthorized (Handlers.role req) (Some "delete") = Ok true ->
      Handlers.deleteNote req w = (Ok notFound, Fs.logged (Fs.Access notePath) w)).
Proof.
  intros notePath notFound Hq Hl _ Hmissing. split; [|split].
  - intros Hauth. unfold Handlers.getNoteById, tryCatch, bind.
    now rewrite (getNoteById_missing _ _ l w Hauth Hq Hl Hmissing).
  - intros Hauth. split.
    + intros Htags. unfold Handlers.updateNote, tryCatch, bind.
      destruct (Handlers.b_tags req) as [ts|] eqn:Hts; [|now elim Htags].
      rewrite !andb_false_r.
      now rewrite (updateNote_missing _ _ l w Hq Hl Hmissing _ _ _ Hauth).
    + intros Hc. unfold Handlers.appendToNote, tryCatch, bind.
      destruct (Handlers.b_content req) as [c|]; [|discriminate].
      simpl in Hc. rewrite Hc. cbn [negb].
      now rewrite (appendToNote_missing _ _ l w Hq Hl Hmissing _ Hauth).
  - intros Hauth. unfold Handlers.deleteNote, tryCatch, bind.
    now rewrite (deleteNote_missing _ _ l w Hq Hl Hmissing _ Hauth).
Qed.

End MissingAnswers.

Lemma missing_note_witness :
  Handlers.getNoteById (H := refHost) (Ex.archiveRequest "admin" "topics/none.md")
    Ex.withX
  = (Ok (Handlers.Failure 404 "Note not found"),
     Fs.logged (Fs.ReadFile "notes/topics/none.md") Ex.withX)
  /\ Handlers.updateNote (H := refHost) (Ex.archiveRequest "admin" "topics/none.md")
       Ex.withX
     = (Ok (Handlers.Failure 404 "Note not found"),
        Fs.logged (Fs.Access "notes/topics/none.md") Ex.withX)
  /\ Handlers.appendToNote (H := refHost)
       (Ex.archiveRequest "admin" "topics/none.md") Ex.withX
     = (Ok (Handlers.Failure 404 "Note not found"),
        Fs.logged (Fs.Access "notes/topics/none.md") Ex.withX)
  /\ Handlers.deleteNote (H := refHost) (Ex.archiveRequest "admin" "topics/none.md")
       Ex.withX
     = (Ok (Handlers.Failure 404 "Note not found"),
        Fs.logged (Fs.Access "notes/topics/none.md") Ex.withX).
Proof.
  destruct (missing_note_is_answered_404 (H := refHost)
              (Ex.archiveRequest "admin" "topics/none.md") ["topics"; "none.md"]
              Ex.withX eq_refl
              ltac:(repeat constructor; discriminate) eq_refl eq_refl)
    as (Hget & Hupdate & Hdelete).
  destruct (Hupdate eq_refl) as [Hu Ha].
  split; [exact (Hget eq_refl)|].
  split; [apply Hu; discriminate|].
  split; [exact (Ha eq_refl)|exact (Hdelete eq_refl)].
Defined.

(** ** The files that an operation leaves alone *)

Lemma fileAt_nil (t : Fs.node) :
  fileAt t [] = match t with Fs.File c => Some c | Fs.Dir _ => None end.
Proof. unfold fileAt. simpl. now destruct t. Qed.

Lemma fileAt_cons (es : list (string * Fs.node)) (s : string) (q : list string) :
  fileAt (Fs.Dir es) (s :: q)
  = match Fs.find s es with Some c => fileAt c q | None => None end.
Proof. unfold fileAt. simpl. now destruct (Fs.find s es). Qed.

Lemma fileAt_below_file (c : string) (s : string) (q : list string) :
  fileAt (Fs.File c) (s :: q) = None.
Proof. reflexivity. Qed.

Lemma fileAt_chain (p q : list string) : fileAt (Fs.chain p) q = None.
Proof.
  revert q. induction p as [|seg p IH]; intros [|s q]; try reflexivity.
  cbn [Fs.chain]. rewrite fileAt_cons. cbn [Fs.find].
  destruct (String.eqb seg s); [apply IH|reflexivity].
Qed.

Lemma fileAt_setEntry (es : list (string * Fs.node)) (seg : string)
  (c : Fs.node) (s : string) (q : list string) :
  fileAt (Fs.Dir (Fs.setEntry seg c es)) (s :: q)
  = if String.eqb seg s then fileAt c q else fileAt (Fs.Dir es) (s :: q).
Proof.
  rewrite !fileAt_cons. destruct (String.eqb_spec seg s) as [<-|Hne].
  - now rewrite find_setEntry_same.
  - now rewrite find_setEntry_other.
Qed.

(** [mkdir -p] makes directories only. *)
Lemma mkdirp_fileAt (p : list string) :
  forall t t', Fs.mkdirp t p = Ok t' -> forall q, fileAt t' q = fileAt t q.
Proof.
  induction p as [|seg rest IH]; intros t t' Hmk q.
  - simpl in Hmk. destruct t; [discriminate|]. now injection Hmk as <-.
  - destruct t as [c|es]; [discriminate|]. rewrite mkdirp_step in Hmk.
    destruct (Fs.find seg es) as [c|] eqn:Hf.
    + destruct (Fs.mkdirp c rest) as [c'|e] eqn:Hc; [|discriminate].
      injection Hmk as <-. destruct q as [|s q]; [reflexivity|].
      rewrite fileAt_setEntry. destruct (String.eqb_spec seg s) as [<-|Hne];
        [|reflexivity].
      rewrite fileAt_cons, Hf. now apply IH.
    + injection Hmk as <-. destruct q as [|s q]; [reflexivity|].
      rewrite !fileAt_cons, find_app.
      destruct (Fs.find s es) as [v|] eqn:Hs; [reflexivity|].
      cbn [Fs.find]. destruct (String.eqb_spec seg s) as [<-|Hne];
        [apply fileAt_chain|reflexivity].
Qed.

(** Writing a file where there is no directory changes that file only. *)
Lemma put_file_fileAt (p : list string) (data : string) :
  forall t t',
    (forall l, Fs.stat t p <> Ok (Fs.Dir l)) ->
    Fs.put t p (Fs.File data) = Ok t' ->
    fileAt t' p = Some data
    /\ forall q, q <> p -> fileAt t' q = fileAt t q.
Proof.
  induction p as [|seg rest IH]; intros t t' Hnd Hput.
  - simpl in Hput. injection Hput as <-. split; [reflexivity|].
    intros [|s q] Hq; [now elim Hq|].
    destruct t as [c|l]; [reflexivity|]. now elim (Hnd l).
  - destruct t as [c|es]; [discriminate|].
    destruct rest as [|s2 rest].
    + simpl in Hput. injection Hput as <-. split.
      * rewrite fileAt_setEntry, String.eqb_refl. reflexivity.
      * intros [|s q] Hq; [reflexivity|].
        rewrite fileAt_setEntry. destruct (String.eqb_spec seg s) as [<-|Hne];
          [|reflexivity].
        destruct q as [|s' q]; [now elim Hq|].
        rewrite fileAt_cons. simpl in Hnd.
        destruct (Fs.find seg es) as [[c|l]|]; try reflexivity.
        now elim (Hnd l).
    + rewrite put_step in Hput.
      destruct (Fs.find seg es) as [c|] eqn:Hf; [|discriminate].
      destruct (Fs.put c (s2 :: rest) (Fs.File data)) as [c'|e] eqn:Hc;
        [|discriminate].
      injection Hput as <-.
      assert (Hnd' : forall l, Fs.stat c (s2 :: rest) <> Ok (Fs.Dir l)).
      { intros l. specialize (Hnd l). simpl in Hnd. rewrite Hf in Hnd. exact Hnd. }
      destruct (IH c c' Hnd' Hc) as [Hat Hother]. split.
      * now rewrite fileAt_setEntry, String.eqb_refl.
      * intros [|s q] Hq; [reflexivity|].
        rewrite fileAt_setEntry. destruct (String.eqb_spec seg s) as [<-|Hne];
          [|reflexivity].
        rewrite fileAt_cons, Hf. apply Hother. intros ->. now elim Hq.
Qed.

(** Removing a regular file removes that file only. *)
Lemma remove_file_fileAt (p : list string) :
  forall t t' c0,
    Fs.stat t p = Ok (Fs.File c0) ->
    Fs.remove t p = Ok t' ->
    Fs.stat t' p = Throw (FsError ENOENT)
    /\ forall q, q <> p -> fileAt t' q = fileAt t q.
Proof.
  induction p as [|seg rest IH]; intros t t' c0 Hstat Hrm; [discriminate|].
  destruct t as [c|es]; [discriminate|].
  destruct rest as [|s2 rest].
  - simpl in Hstat, Hrm.
    destruct (Fs.find seg es) as [c|] eqn:Hf; [|discriminate].
    injection Hrm as <-. injection Hstat as ->. split.
    + simpl. now rewrite find_delEntry_same.
    + intros [|s q] Hq; [reflexivity|].
      rewrite !fileAt_cons. destruct (String.eqb_spec seg s) as [<-|Hne].
      * rewrite find_delEntry_same, Hf.
        destruct q as [|s' q]; [now elim Hq|reflexivity].
      * now rewrite find_delEntry_other.
  - rewrite remove_step in Hrm.
    assert (Hstat' := Hstat). simpl in Hstat'.
    destruct (Fs.find seg es) as [c|] eqn:Hf; [|discriminate].
    destruct (Fs.remove c (s2 :: rest)) as [c'|e] eqn:Hc; [|discriminate].
    injection Hrm as <-.
    destruct (IH c c' c0 Hstat' Hc) as [Hgone Hother]. split.
    + change (Fs.stat (Fs.Dir (Fs.setEntry seg c' es)) (seg :: s2 :: rest))
        with (match Fs.find seg (Fs.setEntry seg c' es) with
              | None => Throw (FsError ENOENT)
              | Some c => Fs.stat c (s2 :: rest)
              end).
      now rewrite find_setEntry_same.
    + intros [|s q] Hq; [reflexivity|].
      rewrite fileAt_setEntry. destruct (String.eqb_spec seg s) as [<-|Hne];
        [|reflexivity].
      rewrite fileAt_cons, Hf. apply Hother. intros ->. now elim Hq.
Qed.

Lemma keepsFilesBut_ret {A : Type} (Q : list string -> Prop) (a : A) :
  keepsFilesBut Q (ret a).
Proof. now intros w p _. Qed.

Lemma keepsFilesBut_throw {A : Type} (Q : list string -> Prop) (e : exn) :
  keepsFilesBut Q (throw (A := A) e).
Proof. now intros w p _. Qed.

Lemma keepsFilesBut_lift {A : Type} (Q : list string -> Prop) (r : result A) :
  keepsFilesBut Q (lift r).
Proof. now intros w p _. Qed.

Lemma keepsFilesBut_bind {A B : Type} (Q : list string -> Prop)
  (m : M A) (k : A -> M B) :
  keepsFilesBut Q m -> (forall a, keepsFilesBut Q (k a)) ->
  keepsFilesBut Q (bind m k).
Proof.
  intros Hm Hk w p Hp. unfold bind. specialize (Hm w p Hp).
  destruct (m w) as [[a|e] w1]; [|exact Hm].
  cbn [snd] in Hm. now rewrite (Hk a w1 p Hp).
Qed.

Lemma keepsFilesBut_tryCatch {A : Type} (Q : list string -> Prop)
  (m : M A) (handler : exn -> M A) :
  keepsFilesBut Q m -> (forall e, keepsFilesBut Q (handler e)) ->
  keepsFilesBut Q (tryCatch m handler).
Proof.
  intros Hm Hh w p Hp. unfold tryCatch. specialize (Hm w p Hp).
  destruct (m w) as [[a|e] w1]; [exact Hm|].
  cbn [snd] in Hm. now rewrite (Hh e w1 p Hp).
Qed.

Lemma keepsFilesBut_weaken {A : Type} (Q Q' : list string -> Prop) (m : M A) :
  (forall p, Q p -> Q' p) -> keepsFilesBut Q m -> keepsFilesBut Q' m.
Proof. intros HQ Hm w p Hp. apply Hm. intros Hq. apply Hp, HQ, Hq. Qed.

Lemma keepsFilesBut_notFoundIsNull {A : Type} (Q : list string -> Prop) (e : exn) :
  keepsFilesBut Q (Model.notFoundIsNull (A := A) e).
Proof. destruct e as [m|[]|m|m]; now intros w p _. Qed.

Section Frames.
Context `{Host}.

Lemma keepsFilesBut_reading {A : Type} (Q : list string -> Prop) (c : Fs.call)
  (f : Fs.node -> result A) :
  keepsFilesBut Q (FsP.reading c f).
Proof. now intros w p _. Qed.

Lemma keepsFilesBut_writing (Q : list string -> Prop) (c : Fs.call)
  (f : Fs.node -> result Fs.node) :
  (forall t t' p, f t = Ok t' -> ~ Q p -> fileAt t' p = fileAt t p) ->
  keepsFilesBut Q (FsP.writing c f).
Proof.
  intros Hf w p Hp. unfold FsP.writing.
  destruct (f (Fs.tree w)) as [t'|e] eqn:Ht; [|reflexivity].
  cbn [snd Fs.tree]. now apply (Hf _ _ _ Ht).
Qed.

Lemma access_keeps (Q : list string -> Prop) (p : string) :
  keepsFilesBut Q (FsP.access p).
Proof. apply keepsFilesBut_reading. Qed.

Lemma readFile_keeps (Q : list string -> Prop) (p : string) :
  keepsFilesBut Q (FsP.readFile p).
Proof. apply keepsFilesBut_reading. Qed.

Lemma mkdir_keeps (Q : list string -> Prop) (p : string) :
  keepsFilesBut Q (FsP.mkdir p).
Proof.
  apply keepsFilesBut_writing. intros t t' q Hmk _.
  now apply (mkdirp_fileAt _ _ _ Hmk).
Qed.

Lemma writeFile_keeps (p data : string) :
  keepsFilesBut (eq (FsP.abs p)) (FsP.writeFile p data).
Proof.
  apply keepsFilesBut_writing. intros t t' q Hput Hq.
  destruct (Fs.stat t (FsP.abs p)) as [[c|l]|e] eqn:Hs; try discriminate;
    (apply (put_file_fileAt (FsP.abs p) data t t');
     [intros l'; rewrite Hs; discriminate|exact Hput|congruence]).
Qed.

Lemma unlink_keeps (p : string) :
  keepsFilesBut (eq (FsP.abs p)) (FsP.unlink p).
Proof.
  apply keepsFilesBut_writing. intros t t' q Hrm Hq.
  destruct (Fs.stat t (FsP.abs p)) as [[c|l]|e] eqn:Hs; try discriminate.
  apply (remove_file_fileAt (FsP.abs p) t t' c Hs Hrm). congruence.
Qed.

Lemma authorize_keeps (Q : list string -> Prop) (role : option string)
  (operation : string) :
  keepsFilesBut Q (Model.authorize role operation).
Proof.
  unfold Model.authorize. apply keepsFilesBut_bind; [apply keepsFilesBut_lift|].
  intros b. destruct (negb b);
    [apply keepsFilesBut_throw|apply keepsFilesBut_ret].
Qed.

Lemma validatePath_keeps (Q : list string -> Prop) (notePath : string) :
  keepsFilesBut Q (Model.validatePath notePath).
Proof.
  unfold Model.validatePath.
  destruct (negb _); [apply keepsFilesBut_throw|apply keepsFilesBut_ret].
Qed.

Lemma ensureNotesDirectory_keeps (Q : list string -> Prop) :
  keepsFilesBut Q Model.ensureNotesDirectory.
Proof.
  unfold Model.ensureNotesDirectory.
  apply keepsFilesBut_tryCatch; [apply access_keeps|]. intros _.
  repeat (apply keepsFilesBut_bind; [apply mkdir_keeps|intros _]).
  apply mkdir_keeps.
Qed.

Lemma processDirectory_keeps (Q : list string -> Prop) (dirPath : string) :
  keepsFilesBut Q (Model.processDirectory dirPath).
Proof.
  intros w p _. unfold Model.processDirectory.
  now destruct (Fs.stat (Fs.tree w) (FsP.abs dirPath)) as [[c|l]|e].
Qed.

Lemma getAllNotesInternal_keeps (Q : list string -> Prop) :
  keepsFilesBut Q Model.getAllNotesInternal.
Proof.
  unfold Model.getAllNotesInternal.
  apply keepsFilesBut_bind; [apply ensureNotesDirectory_keeps|intros _].
  apply keepsFilesBut_bind; [apply processDirectory_keeps|intros notes].
  apply keepsFilesBut_ret.
Qed.

(** X6.  The three functions that read leave every regular file as it is:
    whether they return or throw, no file is made, removed or given
    another text.  What they may add to the tree is directories, the
    notes directory and its four categories when it is missing;
    [getNoteById] does not even do that. *)
Theorem reading_changes_no_file
  (role tags category keyword : option string) (noteId query : string)
  (fs : Model.filters) :
  keepsFilesBut nowhere (Model.getAllNotes role tags category keyword)
  /\ keepsFilesBut nowhere (Model.searchNotes role query fs)
  /\ keepsFilesBut nowhere (Model.getNoteById role noteId)
  /\ forall w, Fs.tree (snd (Model.getNoteById role noteId w)) = Fs.tree w.
Proof.
  split; [|split; [|split]].
  - unfold Model.getAllNotes.
    apply keepsFilesBut_bind; [apply authorize_keeps|intros _].
    apply keepsFilesBut_bind; [apply ensureNotesDirectory_keeps|intros _].
    apply keepsFilesBut_bind; [apply getAllNotesInternal_keeps|intros notes].
    apply keepsFilesBut_ret.
  - unfold Model.searchNotes.
    apply keepsFilesBut_bind; [apply authorize_keeps|intros _].
    apply keepsFilesBut_bind; [apply getAllNotesInternal_keeps|intros notes].
    apply keepsFilesBut_lift.
  - unfold Model.getNoteById.
    apply keepsFilesBut_bind; [apply authorize_keeps|intros _].
    apply keepsFilesBut_bind; [apply validatePath_keeps|intros _].
    apply keepsFilesBut_tryCatch; [|apply keepsFilesBut_notFoundIsNull].
    apply keepsFilesBut_bind; [apply readFile_keeps|intros content].
    apply keepsFilesBut_ret.
  - intros w. unfold Model.getNoteById.
    destruct (Auth.isAuthorized role (Some "read")) as [[|]|e] eqn:Hauth.
    + rewrite (authorize_when_allowed _ _ Hauth), bind_ret_l.
      unfold Model.validatePath. destruct (negb _); [reflexivity|].
      rewrite bind_ret_l. unfold tryCatch, bind, FsP.readFile, FsP.reading.
      destruct (Fs.stat (Fs.tree w) (FsP.abs (Path.join [NOTES_DIR; noteId])))
        as [[c|l]|[m|[]|m|m]]; reflexivity.
    + now rewrite (authorize_when_refused _ _ Hauth).
    + unfold Model.authorize, bind, lift. now rewrite Hauth.
Qed.

(** X7.  The functions that write change one file at most, the one at the
    path they compute: for an update, an append or a delete without
    archive, the path of the id below the notes directory; for a
    creation, the dated file name in the directory of the category.
    Every other regular file of the tree is afterwards what it was,
    whether the function returned or threw. *)
Theorem writing_changes_one_file
  (role : option string) (noteId : string) (title content : option string)
  (tags : option (list string)) (text newTitle newContent : string)
  (newTags : list string) (category author : string) :
  let notePath := Path.join [NOTES_DIR; noteId] in
  let filePath :=
    Path.join [Path.join [NOTES_DIR; category];
               today ++ "_" ++ Model.slugOf newTitle ++ ".md"] in
  keepsFilesBut (eq (FsP.abs notePath))
    (Model.updateNote role noteId title content tags)
  /\ keepsFilesBut (eq (FsP.abs notePath)) (Model.appendToNote role noteId text)
  /\ keepsFilesBut (eq (FsP.abs notePath)) (Model.deleteNote role noteId false)
  /\ keepsFilesBut (eq (FsP.abs filePath))
       (Model.createNote role newTitle newContent newTags category author).
Proof.
  intros notePath filePath. split; [|split; [|split]].
  - unfold Model.updateNote. fold notePath.
    apply keepsFilesBut_bind; [apply authorize_keeps|intros _].
    apply keepsFilesBut_bind; [apply validatePath_keeps|intros _].
    apply keepsFilesBut_tryCatch; [|apply keepsFilesBut_notFoundIsNull].
    apply keepsFilesBut_bind; [apply access_keeps|intros _].
    apply keepsFilesBut_bind; [apply readFile_keeps|intros existing].
    apply keepsFilesBut_bind; [apply writeFile_keeps|intros _].
    apply keepsFilesBut_ret.
  - unfold Model.appendToNote. fold notePath.
    apply keepsFilesBut_bind; [apply authorize_keeps|intros _].
    apply keepsFilesBut_bind; [apply validatePath_keeps|intros _].
    apply keepsFilesBut_tryCatch; [|apply keepsFilesBut_notFoundIsNull].
    apply keepsFilesBut_bind; [apply access_keeps|intros _].
    apply keepsFilesBut_bind; [apply readFile_keeps|intros existing].
    apply keepsFilesBut_bind; [apply writeFile_keeps|intros _].
    apply keepsFilesBut_ret.
  - unfold Model.deleteNote. fold notePath.
    apply keepsFilesBut_bind; [apply authorize_keeps|intros _].
    apply keepsFilesBut_bind; [apply validatePath_keeps|intros _].
    apply keepsFilesBut_tryCatch; [|apply keepsFilesBut_notFoundIsNull].
    apply keepsFilesBut_bind; [apply access_keeps|intros _].
    apply keepsFilesBut_bind; [apply unlink_keeps|intros _].
    apply keepsFilesBut_ret.
  - unfold Model.createNote. fold filePath.
    apply keepsFilesBut_bind; [apply authorize_keeps|intros _].
    apply keepsFilesBut_bind; [apply ensureNotesDirectory_keeps|intros _].
    apply keepsFilesBut_bind; [apply mkdir_keeps|intros _].
    apply keepsFilesBut_bind; [apply writeFile_keeps|intros _].
    apply keepsFilesBut_ret.
Qed.

End Frames.

(** ** Deleting a note *)

Lemma remove_file_ok (p : list string) :
  p <> [] ->
  forall t c0, Fs.stat t p = Ok (Fs.File c0) -> exists t', Fs.remove t p = Ok t'.
Proof.
  induction p as [|seg rest IH]; intros Hne t c0 Hstat; [now elim Hne|].
  destruct t as [c|es]; [discriminate|].
  destruct rest as [|s2 rest].
  - simpl in *. destruct (Fs.find seg es); [|discriminate]. eauto.
  - rewrite remove_step. simpl in Hstat.
    destruct (Fs.find seg es) as [c|]; [|discriminate].
    destruct (IH ltac:(discriminate) c c0 Hstat) as (c' & ->). eauto.
Qed.

Lemma unlink_ok (H : Host) (p : string) (w : Fs.world) (c0 : string) (t' : Fs.node) :
  Fs.stat (Fs.tree w) (FsP.abs p) = Ok (Fs.File c0) ->
  Fs.remove (Fs.tree w) (FsP.abs p) = Ok t' ->
  FsP.unlink p w = (Ok tt, Fs.mkWorld t' (Fs.log w ++ [Fs.Unlink p])%list).
Proof. intros Hs Hrm. unfold FsP.unlink, FsP.writing. now rewrite Hs, Hrm. Qed.

Section Delete.
Context `{Host}.

(** A delete without archive of a file that is there. *)
Lemma deleteNote_unlinks (role : option string) (q : string) (l : list string)
  (content : string) (w : Fs.world) :
  Auth.isAuthorized role (Some "delete") = Ok true ->
  Path.segments q = l -> Forall kept l ->
  Fs.stat (Fs.tree w) (Path.resolveSegs cwd NOTES_DIR ++ l) = Ok (Fs.File content) ->
  exists w1,
    Model.deleteNote role q false w
    = (Ok (Some (Model.mkOutcome "Note deleted" None)), w1)
    /\ Fs.stat (Fs.tree w1) (Path.resolveSegs cwd NOTES_DIR ++ l)
       = Throw (FsError ENOENT)
    /\ forall p, p <> (Path.resolveSegs cwd NOTES_DIR ++ l)%list ->
                 fileAt (Fs.tree w1) p = fileAt (Fs.tree w) p.
Proof.
  intros Hdel Hq Hl Hfile.
  set (R := Path.resolveSegs cwd NOTES_DIR) in *.
  set (notePath := Path.join [NOTES_DIR; q]).
  assert (Hnp : FsP.abs notePath = (R ++ l)%list) by now apply abs_join_segments.
  assert (Hne : (R ++ l)%list <> []).
  { destruct l; [|now destruct R]. now elim (split_nonempty Path.sep q). }
  destruct (remove_file_ok _ Hne _ _ Hfile) as (t' & Hrm).
  destruct (remove_file_fileAt _ _ _ _ Hfile Hrm) as [Hgone Hother].
  exists (Fs.mkWorld t' ((Fs.log w ++ [Fs.Access notePath])
                         ++ [Fs.Unlink notePath])%list).
  split; [|split; [exact Hgone|exact Hother]].
  unfold Model.deleteNote. fold notePath.
  rewrite (authorize_when_allowed _ _ Hdel), bind_ret_l.
  rewrite (validatePath_below _ l) by exact Hnp.
  rewrite bind_ret_l. unfold tryCatch, bind.
  rewrite (access_ok notePath w (Fs.File content)) by now rewrite Hnp.
  rewrite (unlink_ok _ notePath _ content t');
    [reflexivity|cbn [Fs.logged Fs.tree]; now rewrite Hnp..].
Qed.

(** X8.  When the file of the note is there, a delete without archive by a
    role that may delete and read answers Note deleted, with no id; under
    the id there is then no note: reading it gives [null], and so does a
    second delete.  Every other regular file is as it was. *)
Theorem delete_then_the_note_is_gone
  (role : option string) (q : string) (l : list string) (content : string)
  (w : Fs.world) :
  Auth.isAuthorized role (Some "delete") = Ok true ->
  Auth.isAuthorized role (Some "read") = Ok true ->
  Path.segments q = l -> Forall kept l ->
  Fs.stat (Fs.tree w) (Path.resolveSegs cwd NOTES_DIR ++ l) = Ok (Fs.File content) ->
  exists w1,
    Model.deleteNote role q false w
    = (Ok (Some (Model.mkOutcome "Note deleted" None)), w1)
    /\ fst (Model.getNoteById role q w1) = Ok None
    /\ fst (Model.deleteNote role q false w1) = Ok None
    /\ forall p, p <> (Path.resolveSegs cwd NOTES_DIR ++ l)%list ->
                 fileAt (Fs.tree w1) p = fileAt (Fs.tree w) p.
Proof.
  intros Hdel Hread Hq Hl Hfile.
  destruct (deleteNote_unlinks role q l content w Hdel Hq Hl Hfile)
    as (w1 & Hrun & Hgone & Hother).
  exists w1. split; [exact Hrun|]. split; [|split; [|exact Hother]].
  - now rewrite (getNoteById_missing role q l w1 Hread Hq Hl Hgone).
  - now rewrite (deleteNote_missing role q l w1 Hq Hl Hgone false Hdel).
Qed.

(** X9.  The handler archives only when the query says [archive=true], in
    these very letters.  With any other value, or none, the file of the
    note is removed and is archived nowhere: every other regular file is
    as it was, and the answer is Note deleted. *)
Theorem handler_deletes_unless_archive_is_true
  (req : Handlers.request) (l : list string) (content : string) (w : Fs.world) :
  Auth.isAuthorized (Handlers.role req) (Some "delete") = Ok true ->
  Path.segments (Handlers.id req) = l -> Forall kept l ->
  Fs.stat (Fs.tree w) (Path.resolveSegs cwd NOTES_DIR ++ l) = Ok (Fs.File content) ->
  Handlers.q_archive req <> Some "true" ->
  exists w1,
    Handlers.deleteNote req w
    = (Ok (Handlers.Done 200 (Model.mkOutcome "Note deleted" None)), w1)
    /\ fileAt (Fs.tree w1) (Path.resolveSegs cwd NOTES_DIR ++ l) = None
    /\ forall p, p <> (Path.resolveSegs cwd NOTES_DIR ++ l)%list ->
                 fileAt (Fs.tree w1) p = fileAt (Fs.tree w) p.
Proof.
  intros Hdel Hq Hl Hfile Harchive.
  destruct (deleteNote_unlinks _ _ l content w Hdel Hq Hl Hfile)
    as (w1 & Hrun & Hgone & Hother).
  exists w1. split; [|split; [|exact Hother]].
  - unfold Handlers.deleteNote, tryCatch, bind.
    assert (Hno : match Handlers.q_archive req with
                  | Some a => String.eqb a "true"
                  | None => false
                  end = false).
    { destruct (Handlers.q_archive req) as [a|]; [|reflexivity].
      apply String.eqb_neq. intros ->. now apply Harchive. }
    rewrite Hno, Hrun. reflexivity.
  - unfold fileAt. now rewrite Hgone.
Qed.

End Delete.

Lemma delete_witness :
  exists w1,
    Model.deleteNote (H := refHost) (Some "admin") "topics/x.md" false Ex.withX
    = (Ok (Some (Model.mkOutcome "Note deleted" None)), w1)
    /\ fst (Model.getNoteById (H := refHost) (Some "admin") "topics/x.md" w1)
       = Ok None
    /\ fst (Model.deleteNote (H := refHost) (Some "admin") "topics/x.md" false w1)
       = Ok None
    /\ forall p, p <> ["app"; "notes"; "topics"; "x.md"] ->
                 fileAt (Fs.tree w1) p = fileAt (Fs.tree Ex.withX) p.
Proof.
  apply (delete_then_the_note_is_gone (H := refHost) (Some "admin") "topics/x.md"
           ["topics"; "x.md"] Ex.xText Ex.withX).
  - reflexivity.
  - reflexivity.
  - reflexivity.
  - repeat constructor; discriminate.
  - vm_compute. reflexivity.
Defined.

Lemma handler_deletes_witness :
  exists w1,
    Handlers.deleteNote (H := refHost) (Ex.deleteRequest "admin" "topics/x.md" "yes")
      Ex.withX
    = (Ok (Handlers.Done 200 (Model.mkOutcome "Note deleted" None)), w1)
    /\ fileAt (Fs.tree w1) ["app"; "notes"; "topics"; "x.md"] = None
    /\ forall p, p <> ["app"; "notes"; "topics"; "x.md"] ->
                 fileAt (Fs.tree w1) p = fileAt (Fs.tree Ex.withX) p.
Proof.
  apply (handler_deletes_unless_archive_is_true (H := refHost)
           (Ex.deleteRequest "admin" "topics/x.md" "yes") ["topics"; "x.md"]
           Ex.xText Ex.withX).
  - reflexivity.
  - reflexivity.
  - repeat constructor; discriminate.
  - vm_compute. reflexivity.
  - discriminate.
Defined.

(** ** Setting up the notes directory *)

Lemma stat_chain (p : list string) : Fs.stat (Fs.chain p) p = Ok (Fs.Dir []).
Proof.
  induction p as [|seg p IH]; [reflexivity|].
  simpl. now rewrite String.eqb_refl.
Qed.

Lemma mkdirp_missing (p : list string) :
  forall t, Fs.stat t p = Throw (FsError ENOENT) ->
            exists t', Fs.mkdirp t p = Ok t' /\ Fs.stat t' p = Ok (Fs.Dir []).
Proof.
  induction p as [|seg rest IH]; intros t Hstat; [discriminate|].
  destruct t as [c|es]; [discriminate|]. rewrite mkdirp_step. simpl in Hstat.
  destruct (Fs.find seg es) as [c|] eqn:Hf.
  - destruct (IH c Hstat) as (c' & -> & Hc'). eexists. split; [reflexivity|].
    simpl. now rewrite find_setEntry_same.
  - eexists. split; [reflexivity|]. simpl.
    rewrite find_app, Hf. simpl. rewrite String.eqb_refl. apply stat_chain.
Qed.

Section SetUp.
Context `{Host}.

Lemma mkdir_category (R : list string) (name : string)
  (es : list (string * Fs.node)) (w : Fs.world) :
  FsP.abs (Path.join [NOTES_DIR; name]) = (R ++ [name])%list ->
  Fs.stat (Fs.tree w) R = Ok (Fs.Dir es) ->
  Fs.find name es = None ->
  exists t',
    FsP.mkdir (Path.join [NOTES_DIR; name]) w
    = (Ok tt, Fs.mkWorld t' (Fs.log w ++ [Fs.Mkdir (Path.join [NOTES_DIR; name])])%list)
    /\ Fs.stat t' R = Ok (Fs.Dir (es ++ [(name, Fs.Dir [])])%list).
Proof.
  intros Habs Hroot Hfind.
  destruct (put_root R (Fs.tree w) _ (Fs.Dir (es ++ [(name, Fs.Dir [])])%list) Hroot)
    as (t' & Hput & Hst).
  exists t'. split; [|exact Hst].
  apply mkdir_ok. rewrite Habs, (mkdirp_app R [name] _ _ Hroot).
  rewrite mkdirp_step, Hfind. exact Hput.
Qed.

(** X10.  When there is nothing at the place of the notes directory,
    [ensureNotesDirectory] makes it, with the directories topics,
    projects, references and archive in it, all empty, and no other
    entry; a second call then only looks.  When something is there
    already, nothing is made: categories that are missing stay missing. *)
Theorem ensureNotesDirectory_sets_up (w : Fs.world) :
  (Fs.stat (Fs.tree w) (Path.resolveSegs cwd NOTES_DIR) = Throw (FsError ENOENT) ->
   exists w',
     Model.ensureNotesDirectory w = (Ok tt, w')
     /\ Fs.stat (Fs.tree w') (Path.resolveSegs cwd NOTES_DIR)
        = Ok (Fs.Dir [("topics", Fs.Dir []); ("projects", Fs.Dir []);
                      ("references", Fs.Dir []); ("archive", Fs.Dir [])])
     /\ Model.ensureNotesDirectory w' = (Ok tt, Fs.logged (Fs.Access NOTES_DIR) w'))
  /\ (forall n,
        Fs.stat (Fs.tree w) (Path.resolveSegs cwd NOTES_DIR) = Ok n ->
        Model.ensureNotesDirectory w = (Ok tt, Fs.logged (Fs.Access NOTES_DIR) w)).
Proof.
  split; [|intros n Hn; exact (ensureNotesDirectory_present w n Hn)].
  intros Hmissing. set (R := Path.resolveSegs cwd NOTES_DIR) in *.
  assert (Habs : forall name, plainSegment name = true ->
                   FsP.abs (Path.join [NOTES_DIR; name]) = (R ++ [name])%list).
  { intros name Hname. apply abs_join_segments.
    - apply split_sepFree. now apply plainSegment_sepFree.
    - constructor; [now apply plainSegment_kept|constructor]. }
  destruct (mkdirp_missing R _ Hmissing) as (t1 & Hmk1 & Hst1).
  set (w1 := Fs.mkWorld t1 ((Fs.log w ++ [Fs.Access NOTES_DIR])
                            ++ [Fs.Mkdir NOTES_DIR])%list).
  destruct (mkdir_category R "topics" [] w1 (Habs "topics" eq_refl) Hst1 eq_refl)
    as (t2 & Hrun2 & Hst2).
  set (w2 := Fs.mkWorld t2 _) in Hrun2.
  destruct (mkdir_category R "projects" _ w2 (Habs "projects" eq_refl) Hst2 eq_refl)
    as (t3 & Hrun3 & Hst3).
  set (w3 := Fs.mkWorld t3 _) in Hrun3.
  destruct (mkdir_category R "references" _ w3 (Habs "references" eq_refl) Hst3 eq_refl)
    as (t4 & Hrun4 & Hst4).
  set (w4 := Fs.mkWorld t4 _) in Hrun4.
  destruct (mkdir_category R "archive" _ w4 (Habs "archive" eq_refl) Hst4 eq_refl)
    as (t5 & Hrun5 & Hst5).
  set (w5 := Fs.mkWorld t5 _) in Hrun5.
  exists w5. split; [|split].
  - unfold Model.ensureNotesDirectory, tryCatch.
    unfold FsP.access at 1, FsP.reading. fold (FsP.abs NOTES_DIR).
    change (FsP.abs NOTES_DIR) with R. rewrite Hmissing.
    unfold bind at 1.
    rewrite (mkdir_ok NOTES_DIR _ t1) by exact Hmk1.
    cbn [Fs.logged Fs.log Fs.tree]. fold w1.
    unfold bind at 1. rewrite Hrun2.
    unfold bind at 1. rewrite Hrun3.
    unfold bind at 1. rewrite Hrun4.
    exact Hrun5.
  - exact Hst5.
  - apply (ensureNotesDirectory_present w5 _ Hst5).
Qed.

End SetUp.

Lemma ensureNotesDirectory_witness :
  exists w',
    Model.ensureNotesDirectory (H := refHost) Ex.fresh = (Ok tt, w')
    /\ Fs.stat (Fs.tree w') ["app"; "notes"]
       = Ok (Fs.Dir [("topics", Fs.Dir []); ("projects", Fs.Dir []);
                     ("references", Fs.Dir []); ("archive", Fs.Dir [])])
    /\ Model.ensureNotesDirectory (H := refHost) w'
       = (Ok tt, Fs.logged (Fs.Access "./notes") w').
Proof.
  destruct (ensureNotesDirectory_sets_up (H := refHost) Ex.fresh) as [Hmissing _].
  apply Hmissing. reflexivity.
Defined.

(** ** Updating a note, and reading it again *)

Lemma trimStart_not_space (c : ascii) (s : string) :
  Str.isWhiteSpace c = false -> Str.trimStart (String c s) = String c s.
Proof. intros Hc. cbn [Str.trimStart]. now rewrite Hc. Qed.

Lemma trimEnd_app (a r : string) :
  Str.trimEnd a = a -> Str.trimEnd (a ++ r) = (a ++ Str.trimEnd r)%string.
Proof.
  induction a as [|c a IH]; intros Ha; [reflexivity|].
  cbn [append Str.trimEnd] in *.
  destruct (Str.trimEnd a) as [|d t] eqn:Ht.
  - destruct (Str.isWhiteSpace c); [discriminate|].
    injection Ha as <-. cbn [append]. now destruct (Str.trimEnd r).
  - injection Ha as Ha. rewrite (IH Ha).
    destruct a as [|d' a']; [discriminate|]. reflexivity.
Qed.

Lemma lineHead_before_nl (a b : string) :
  Fmt.lineHead (a ++ Str.nl ++ b) = Fmt.lineHead a.
Proof.
  induction a as [|c a IH]; [reflexivity|].
  cbn [append Fmt.lineHead]. now rewrite IH.
Qed.

Lemma heading_start (content : string) :
  Str.startsWith content "# " = true ->
  exists rest, content = ("# " ++ rest)%string.
Proof. unfold Str.startsWith. apply prefix_true_iff. Qed.

Section Rewrite.
Context `{Host}.

Variables (role : option string) (q : string) (l : list string)
  (existing : string) (w : Fs.world).
Hypothesis Hq : Path.segments q = l.
Hypothesis Hl : Forall kept l.
Hypothesis Hfile :
  Fs.stat (Fs.tree w) (Path.resolveSegs cwd NOTES_DIR ++ l) = Ok (Fs.File existing).

Let notePath : string := Path.join [NOTES_DIR; q].
Let note : Note.t := Fmt.parseNoteContent existing notePath NOTES_DIR.

(** The calls of an update: the file is looked for, read, and written. *)
Lemma rewrite_calls :
  let wa := Fs.logged (Fs.Access notePath) w in
  let wr := Fs.logged (Fs.ReadFile notePath) wa in
  FsP.access notePath w = (Ok tt, wa)
  /\ FsP.readFile notePath wa = (Ok existing, wr)
  /\ forall data, exists t',
        FsP.writeFile notePath data wr
        = (Ok tt, Fs.mkWorld t' (Fs.log wr ++ [Fs.WriteFile notePath data])%list)
        /\ Fs.stat t' (Path.resolveSegs cwd NOTES_DIR ++ l) = Ok (Fs.File data).
Proof.
  intros wa wr.
  assert (Hnp : FsP.abs notePath = (Path.resolveSegs cwd NOTES_DIR ++ l)%list)
    by now apply abs_join_segments.
  split; [|split].
  - apply (access_ok notePath w (Fs.File existing)). now rewrite Hnp.
  - apply readFile_ok. cbn [wa Fs.logged Fs.tree]. now rewrite Hnp.
  - intros data.
    destruct (put_root _ _ _ (Fs.File data) Hfile) as (t' & Hput & Hst).
    exists t'. split; [|exact Hst].
    apply writeFile_ok; cbn [wr wa Fs.logged Fs.tree]; rewrite Hnp;
      [|exact Hput].
    intros l'. rewrite Hfile. discriminate.
Qed.

Lemma updateNote_found (title content : option string)
  (tags : option (list string)) :
  Auth.isAuthorized role (Some "update") = Ok true ->
  exists w1,
    Model.updateNote role q title content tags w
    = (Ok (Some (Model.mkUpdated q (Str.orElse title (Note.title note)) today)), w1)
    /\ Fs.stat (Fs.tree w1) (Path.resolveSegs cwd NOTES_DIR ++ l)
       = Ok (Fs.File (Fmt.formatNoteContent
                        (updatedMetadata (Note.metadata note) tags)
                        (Str.orElse title (Note.title note))
                        (Str.orElse content (Note.content note)))).
Proof.
  intros Hauth. destruct rewrite_calls as (Ha & Hr & Hw).
  set (data := Fmt.formatNoteContent (updatedMetadata (Note.metadata note) tags)
                 (Str.orElse title (Note.title note))
                 (Str.orElse content (Note.content note))).
  destruct (Hw data) as (t' & Hwr & Hst).
  eexists. split.
  - unfold Model.updateNote. fold notePath.
    rewrite (authorize_when_allowed _ _ Hauth), bind_ret_l.
    rewrite (validatePath_below _ l) by now apply abs_join_segments.
    rewrite bind_ret_l. unfold tryCatch, bind. rewrite Ha, Hr.
    fold note. unfold updatedMetadata in data.
    replace (Fmt.formatNoteContent _ _ _) with data
      by (unfold data; now destruct tags).
    rewrite Hwr. reflexivity.
  - exact Hst.
Qed.

Lemma appendToNote_found (text : string) :
  Auth.isAuthorized role (Some "update") = Ok true ->
  exists w1,
    Model.appendToNote role q text w
    = (Ok (Some (Model.mkOutcome "Content appended successfully" (Some q))), w1)
    /\ Fs.stat (Fs.tree w1) (Path.resolveSegs cwd NOTES_DIR ++ l)
       = Ok (Fs.File (Fmt.formatNoteContent
                        (Model.withLastModified (Note.metadata note) today)
                        (Note.title note)
                        (Note.content note ++ Str.nl ++ Str.nl ++ text))).
Proof.
  intros Hauth. destruct rewrite_calls as (Ha & Hr & Hw).
  destruct (Hw (Fmt.formatNoteContent
                  (Model.withLastModified (Note.metadata note) today)
                  (Note.title note)
                  (Note.content note ++ Str.nl ++ Str.nl ++ text)))
    as (t' & Hwr & Hst).
  eexists. split.
  - unfold Model.appendToNote. fold notePath.
    rewrite (authorize_when_allowed _ _ Hauth), bind_ret_l.
    rewrite (validatePath_below _ l) by now apply abs_join_segments.
    rewrite bind_ret_l. unfold tryCatch, bind. rewrite Ha, Hr.
    fold note. rewrite Hwr. reflexivity.
  - exact Hst.
Qed.

End Rewrite.

Section ReadBack.
Context `{Host}.

Lemma parse_id (content filePath notesDir : string) :
  Note.id (Fmt.parseNoteContent content filePath notesDir)
  = Path.relative cwd notesDir filePath.
Proof.
  unfold Fmt.parseNoteContent.
  destruct (Fmt.metadataMatch content) as [[y b]|]; [|reflexivity].
  now destruct (yaml_load y).
Qed.

(** What is read from a file that [formatNoteContent] wrote for a content
    that begins with a heading, and is trimmed. *)
Lemma parse_formatted_heading (m : Md.t) (title content filePath notesDir : string) :
  yamlRoundTrips m ->
  Str.startsWith content "# " = true ->
  Str.trim content = content ->
  Fmt.parseNoteContent (Fmt.formatNoteContent m title content) filePath notesDir
  = Note.mk (Path.relative cwd notesDir filePath) filePath (headingOf content)
      content m.
Proof.
  intros (y0 & Hdump & Hidx & Hload) Hstart Htrim.
  unfold Fmt.formatNoteContent. rewrite Htrim, Hstart, Hdump.
  rewrite (parse_formatted y0 content filePath notesDir m Hidx Hload), Htrim.
  destruct (heading_start content Hstart) as (rest & ->).
  now rewrite titleMatch_heading.
Qed.

(** X11.  An update that brings no content, for a note whose content is trimmed
    and begins with a heading (as it does in every file this code wrote):
    the note read afterwards has the content it had, the metadata with the
    day of the change and with the new tags if there are any, and for
    title the one of the heading of the content.  A new title is given
    back in the answer, and it is not kept: the heading is not rewritten. *)
Theorem update_without_content_keeps_the_heading
  (role : option string) (q : string) (l : list string) (existing : string)
  (title : option string) (tags : option (list string)) (w : Fs.world) :
  let note := Fmt.parseNoteContent existing (Path.join [NOTES_DIR; q]) NOTES_DIR in
  Auth.isAuthorized role (Some "update") = Ok true ->
  Auth.isAuthorized role (Some "read") = Ok true ->
  Path.segments q = l -> Forall kept l ->
  Fs.stat (Fs.tree w) (Path.resolveSegs cwd NOTES_DIR ++ l) = Ok (Fs.File existing) ->
  Str.startsWith (Note.content note) "# " = true ->
  Str.trim (Note.content note) = Note.content note ->
  yamlRoundTrips (updatedMetadata (Note.metadata note) tags) ->
  exists w1 w2 note',
    Model.updateNote role q title None tags w
    = (Ok (Some (Model.mkUpdated q (Str.orElse title (Note.title note)) today)), w1)
    /\ Model.getNoteById role q w1 = (Ok (Some note'), w2)
    /\ Note.id note' = Note.id note
    /\ Note.content note' = Note.content note
    /\ Note.title note' = headingOf (Note.content note)
    /\ Note.metadata note' = updatedMetadata (Note.metadata note) tags.
Proof.
  intros note Hupd Hread Hq Hl Hfile Hstart Htrim Hyaml.
  destruct (updateNote_found role q l existing w Hq Hl Hfile title None tags Hupd)
    as (w1 & Hrun & Hst).
  fold note in Hrun, Hst. cbn [Str.orElse] in Hst.
  exists w1. eexists. eexists. split; [exact Hrun|]. split.
  - apply (getNoteById_found role q l _ w1 Hread Hq Hl Hst).
  - rewrite (parse_formatted_heading _ _ _ _ _ Hyaml Hstart Htrim).
    cbn [Note.id Note.content Note.title Note.metadata].
    unfold note. now rewrite parse_id.
Qed.

(** X12.  An append to such a note: the note read afterwards has the old
    content, a blank line and the new text (trimmed at its end), the title
    of its heading as before, and the metadata with the day of the
    change. *)
Theorem append_then_get
  (role : option string) (q : string) (l : list string) (existing text : string)
  (w : Fs.world) :
  let note := Fmt.parseNoteContent existing (Path.join [NOTES_DIR; q]) NOTES_DIR in
  Auth.isAuthorized role (Some "update") = Ok true ->
  Auth.isAuthorized role (Some "read") = Ok true ->
  Path.segments q = l -> Forall kept l ->
  Fs.stat (Fs.tree w) (Path.resolveSegs cwd NOTES_DIR ++ l) = Ok (Fs.File existing) ->
  Str.startsWith (Note.content note) "# " = true ->
  Str.trim (Note.content note) = Note.content note ->
  yamlRoundTrips (Model.withLastModified (Note.metadata note) today) ->
  exists w1 w2 note',
    Model.appendToNote role q text w
    = (Ok (Some (Model.mkOutcome "Content appended successfully" (Some q))), w1)
    /\ Model.getNoteById role q w1 = (Ok (Some note'), w2)
    /\ Note.id note' = Note.id note
    /\ Note.content note'
       = (Note.content note ++ Str.trimEnd (Str.nl ++ Str.nl ++ text))%string
    /\ Note.title note' = headingOf (Note.content note)
    /\ Note.metadata note' = Model.withLastModified (Note.metadata note) today.
Proof.
  intros note Hupd Hread Hq Hl Hfile Hstart Htrim Hyaml.
  destruct (appendToNote_found role q l existing w Hq Hl Hfile text Hupd)
    as (w1 & Hrun & Hst).
  fold note in Hrun, Hst.
  exists w1. eexists. eexists. split; [exact Hrun|]. split.
  - apply (getNoteById_found role q l _ w1 Hread Hq Hl Hst).
  - destruct (heading_start _ Hstart) as (rest & Hrest).
    assert (HtrimEnd : Str.trimEnd (Note.content note) = Note.content note).
    { rewrite <- Htrim at 2. unfold Str.trim. now rewrite Hrest. }
    set (C := (Note.content note ++ Str.nl ++ Str.nl ++ text)%string).
    assert (HC : Str.trim C
                 = (Note.content note ++ Str.trimEnd (Str.nl ++ Str.nl ++ text))%string).
    { unfold Str.trim, C. rewrite Hrest at 1. cbn [append Str.trimStart].
      change (Str.isWhiteSpace "#") with false. cbv iota.
      change (String "#" (String " " (rest ++ Str.nl ++ Str.nl ++ text)))
        with (("# " ++ rest) ++ Str.nl ++ Str.nl ++ text)%string.
      rewrite <- Hrest. now apply trimEnd_app. }
    destruct Hyaml as (y0 & Hdump & Hidx & Hload).
    unfold Fmt.formatNoteContent. rewrite HC, Hdump.
    assert (Hs : Str.startsWith
                   (Note.content note ++ Str.trimEnd (Str.nl ++ Str.nl ++ text)) "# "
                 = true).
    { rewrite Hrest. unfold Str.startsWith.
      rewrite sapp_assoc. apply prefix_app. }
    rewrite Hs.
    rewrite (parse_formatted y0 C _ _ _ Hidx Hload), HC.
    cbn [Note.id Note.content Note.title Note.metadata].
    unfold note at 1. rewrite parse_id. repeat split.
    unfold C, headingOf. rewrite Hrest at 1.
    rewrite sapp_assoc, titleMatch_heading, lineHead_before_nl.
    now rewrite Hrest.
Qed.

End ReadBack.

Lemma update_without_content_witness :
  let note := Fmt.parseNoteContent (H := refHost) Ex.xText
                (Path.join [NOTES_DIR (H := refHost); "topics/x.md"])
                (NOTES_DIR (H := refHost)) in
  exists w1 w2 note',
    Model.updateNote (H := refHost) (Some "admin") "topics/x.md" (Some "Y") None
      (Some ["t"]) Ex.withX
    = (Ok (Some (Model.mkUpdated "topics/x.md"
                   (Str.orElse (Some "Y") (Note.title note))
                   (today (Host := refHost)))), w1)
    /\ Model.getNoteById (H := refHost) (Some "admin") "topics/x.md" w1
       = (Ok (Some note'), w2)
    /\ Note.id note' = Note.id note
    /\ Note.content note' = Note.content note
    /\ Note.title note' = headingOf (Note.content note)
    /\ Note.metadata note'
       = updatedMetadata (H := refHost) (Note.metadata note) (Some ["t"]).
Proof.
  apply (update_without_content_keeps_the_heading (H := refHost) (Some "admin")
           "topics/x.md" ["topics"; "x.md"] Ex.xText (Some "Y") (Some ["t"])
           Ex.withX).
  - reflexivity.
  - reflexivity.
  - reflexivity.
  - repeat constructor; discriminate.
  - vm_compute. reflexivity.
  - vm_compute. reflexivity.
  - vm_compute. reflexivity.
  - exists Ex.yamlOfTaggedX. repeat split; vm_compute; reflexivity.
Defined.

(** The same update, computed: the answer carries the new title Y, and
    the note read afterwards has the title X of its heading. *)
Example update_title_run :
  let w1 := snd (Model.updateNote (H := refHost) (Some "admin") "topics/x.md"
                   (Some "Y") None None Ex.withX) in
  fst (Model.updateNote (H := refHost) (Some "admin") "topics/x.md"
         (Some "Y") None None Ex.withX)
  = Ok (Some (Model.mkUpdated "topics/x.md" "Y" "2025-03-15"))
  /\ fst (Model.getNoteById (H := refHost) (Some "admin") "topics/x.md" w1)
     = Ok (Some (Note.mk "topics/x.md" "notes/topics/x.md" "X"
                   ("# X" ++ Str.nl ++ Str.nl ++ "body of x")
                   (Md.mk (Some "2025-03-01") None None None (Some "2025-03-15")))).
Proof. split; vm_compute; reflexivity. Qed.

Lemma append_then_get_witness :
  let note := Fmt.parseNoteContent (H := refHost) Ex.xText
                (Path.join [NOTES_DIR (H := refHost); "topics/x.md"])
                (NOTES_DIR (H := refHost)) in
  exists w1 w2 note',
    Model.appendToNote (H := refHost) (Some "admin") "topics/x.md" "more" Ex.withX
    = (Ok (Some (Model.mkOutcome "Content appended successfully"
                   (Some "topics/x.md"))), w1)
    /\ Model.getNoteById (H := refHost) (Some "admin") "topics/x.md" w1
       = (Ok (Some note'), w2)
    /\ Note.id note' = Note.id note
    /\ Note.content note'
       = (Note.content note ++ Str.trimEnd (Str.nl ++ Str.nl ++ "more"))%string
    /\ Note.title note' = headingOf (Note.content note)
    /\ Note.metadata note'
       = Model.withLastModified (Note.metadata note) (today (Host := refHost)).
Proof.
  apply (append_then_get (H := refHost) (Some "admin") "topics/x.md"
           ["topics"; "x.md"] Ex.xText "more" Ex.withX).
  - reflexivity.
  - reflexivity.
  - reflexivity.
  - repeat constructor; discriminate.
  - vm_compute. reflexivity.
  - vm_compute. reflexivity.
  - vm_compute. reflexivity.
  - exists Ex.yamlOfModifiedX. repeat split; vm_compute; reflexivity.
Defined.

(** ** Creating a note, and reading it *)

Section CreateRead.
Context `{Host}.

Variables (role : option string) (title content : string) (tags : list string)
  (category author : string) (w : Fs.world) (entries : list (string * Fs.node)).

Let filename : string := (today ++ "_" ++ Model.slugOf title ++ ".md")%string.
Let metadata : Md.t :=
  Md.mk (Some today) (Some tags) (Some []) (Some author) None.

Hypothesis Hauth : Auth.isAuthorized role (Some "create") = Ok true.
Hypothesis Hcat : plainSegment category = true.
Hypothesis Htoday : sepFree today.
Hypothesis Hroot :
  Fs.stat (Fs.tree w) (Path.resolveSegs cwd NOTES_DIR) = Ok (Fs.Dir entries).
Hypothesis Hnofile : forall c, Fs.stat (Fs.Dir entries) [category] <> Ok (Fs.File c).
Hypothesis Hnodir :
  forall l, Fs.stat (Fs.Dir entries) [category; filename] <> Ok (Fs.Dir l).

Lemma createNote_run :
  exists w',
    Model.createNote role title content tags category author w
    = (Ok (Model.mkCreated (category ++ "/" ++ filename) title
             (Path.join [Path.join [NOTES_DIR; category]; filename]) today),
       w')
    /\ Fs.stat (Fs.tree w') (Path.resolveSegs cwd NOTES_DIR ++ [category; filename])
       = Ok (Fs.File (Fmt.formatNoteContent metadata title content)).
Proof.
  set (R := Path.resolveSegs cwd NOTES_DIR) in *.
  set (categoryDir := Path.join [NOTES_DIR; category]).
  set (filePath := Path.join [categoryDir; filename]).
  set (data := Fmt.formatNoteContent metadata title content).
  assert (Hfn : plainSegment filename = true)
    by (apply filename_plain; [assumption|apply collapse_sepFree]).
  assert (Hcd : FsP.abs categoryDir = (R ++ [category])%list).
  { apply abs_join_segments;
      [apply split_sepFree; now apply plainSegment_sepFree|].
    constructor; [now apply plainSegment_kept|constructor]. }
  assert (Hfp : FsP.abs filePath = (R ++ [category; filename])%list).
  { unfold FsP.abs, filePath. rewrite resolve_join2 by apply join_truthy.
    fold (FsP.abs categoryDir). rewrite Hcd, resolveFrom_plain by assumption.
    now rewrite <- app_assoc. }
  destruct (create_local entries category filename data Hnofile Hnodir)
    as (r1 & r2 & Hmk & Hnd1 & Hput & Hst2).
  destruct (put_root R (Fs.tree w) _ r1 Hroot) as (t1 & Hp1 & Ht1).
  destruct (put_root R t1 r1 r2 Ht1) as (t2 & Hp2 & Ht2).
  exists (Fs.mkWorld t2
            (((Fs.log w ++ [Fs.Access NOTES_DIR]) ++ [Fs.Mkdir categoryDir])
             ++ [Fs.WriteFile filePath data])%list).
  split.
  - unfold Model.createNote. fold filename categoryDir filePath metadata data.
    rewrite (authorize_when_allowed _ _ Hauth), bind_ret_l.
    unfold bind at 1. rewrite (ensureNotesDirectory_present w _ Hroot).
    unfold bind at 1.
    rewrite (mkdir_ok categoryDir _ t1).
    2:{ cbn [Fs.logged Fs.tree]. rewrite Hcd.
        now rewrite (mkdirp_app R [category] _ _ Hroot), Hmk. }
    unfold bind at 1.
    rewrite (writeFile_ok filePath data _ t2).
    + unfold ret. cbn [Fs.log Fs.logged Fs.tree].
      rewrite (relative_below cwd NOTES_DIR filePath [category; filename]);
        [reflexivity|exact Hfp|discriminate].
    + intros l. cbn [Fs.tree]. rewrite Hfp, stat_app, Ht1. apply Hnd1.
    + cbn [Fs.tree]. rewrite Hfp.
      now rewrite (put_app R [category; filename] _ ltac:(discriminate) t1 r1 Ht1),
        Hput.
  - cbn [Fs.tree]. now rewrite stat_app, Ht2.
Qed.

(** X13.  A note that was created can be read under the id that [createNote]
    returned.  When the title is a single line and the content does not
    begin with a heading of its own, the note read has that id, that
    title, the metadata that were written (the day, the tags, no related
    notes, the author), and for content the heading of the title, a blank
    line and the content, trimmed at its end. *)
Theorem create_then_get :
  Auth.isAuthorized role (Some "read") = Ok true ->
  yamlRoundTrips metadata ->
  singleLine title ->
  Str.startsWith (Str.trim content) "# " = false ->
  exists made w1 w2 note,
    Model.createNote role title content tags category author w = (Ok made, w1)
    /\ Model.getNoteById role (Model.c_id made) w1 = (Ok (Some note), w2)
    /\ Note.id note = Model.c_id made
    /\ Note.title note = title
    /\ Note.content note
       = Str.trimEnd ("# " ++ title ++ Str.nl ++ Str.nl ++ content)
    /\ Note.metadata note = metadata.
Proof.
  intros Hread (y0 & Hdump & Hidx & Hload) Hsingle Hplain.
  destruct createNote_run as (w1 & Hrun & Hst).
  assert (Hfn : plainSegment filename = true)
    by (apply filename_plain; [assumption|apply collapse_sepFree]).
  assert (Hsegs : Path.segments (category ++ "/" ++ filename) = [category; filename]).
  { rewrite segments_slash. unfold Path.segments.
    now rewrite !split_sepFree by now apply plainSegment_sepFree. }
  assert (Hkept : Forall kept [category; filename])
    by (repeat constructor; now apply plainSegment_kept).
  eexists. exists w1. eexists. eexists. split; [exact Hrun|].
  cbn [Model.c_id]. split.
  - apply (getNoteById_found role _ _ _ w1 Hread Hsegs Hkept Hst).
  - unfold Fmt.formatNoteContent. rewrite Hplain, Hdump.
    rewrite (parse_formatted y0 _ _ _ _ Hidx Hload).
    cbn [Note.id Note.title Note.content Note.metadata].
    split; [|split; [|split]].
    + rewrite (relative_below cwd NOTES_DIR _ [category; filename]);
        [reflexivity| |discriminate].
      now apply abs_join_segments.
    + rewrite titleMatch_heading, lineHead_before_nl. exact Hsingle.
    + unfold Str.trim. now rewrite trimStart_heading.
    + reflexivity.
Qed.

End CreateRead.

Lemma create_then_get_witness :
  exists made w1 w2 note,
    Model.createNote (H := refHost) (Some "admin") "Quantum Computing!!" "body"
      ["q"] "topics" "bob" Ex.emptyNotes
    = (Ok made, w1)
    /\ Model.getNoteById (H := refHost) (Some "admin") (Model.c_id made) w1
       = (Ok (Some note), w2)
    /\ Note.id note = Model.c_id made
    /\ Note.title note = "Quantum Computing!!"
    /\ Note.content note
       = Str.trimEnd ("# " ++ "Quantum Computing!!" ++ Str.nl ++ Str.nl ++ "body")
    /\ Note.metadata note = Ex.mdOfBob.
Proof.
  apply (create_then_get (H := refHost) (Some "admin") "Quantum Computing!!"
           "body" ["q"] "topics" "bob" Ex.emptyNotes []).
  - reflexivity.
  - reflexivity.
  - reflexivity.
  - vm_compute. reflexivity.
  - intros c. vm_compute. discriminate.
  - intros l. vm_compute. discriminate.
  - reflexivity.
  - exists Ex.yamlOfBob. repeat split; vm_compute; reflexivity.
  - reflexivity.
  - reflexivity.
Defined.

(** ** Paths: joining one name after another *)

Lemma endsWith_slash_cons (c : ascii) (x : string) :
  x <> EmptyString -> Str.endsWith (String c x) "/" = Str.endsWith x "/".
Proof.
  intros Hx. unfold Str.endsWith.
  destruct x as [|d x]; [now elim Hx|].
  cbn [String.length]. cbn [Nat.leb Nat.sub andb]. rewrite !Nat.sub_0_r.
  reflexivity.
Qed.

Lemma endsWith_slash_app (a s : string) :
  s <> EmptyString -> Str.endsWith (a ++ s) "/" = Str.endsWith s "/".
Proof.
  intros Hs. induction a as [|c a IH]; [reflexivity|].
  cbn [append]. rewrite endsWith_slash_cons; [exact IH|].
  destruct a; [exact Hs|discriminate].
Qed.

Lemma endsWith_slash_sepFree (s : string) :
  s <> EmptyString -> sepFree s -> Str.endsWith s "/" = false.
Proof.
  induction s as [|c s IH]; intros Hne Hs; [now elim Hne|].
  pose proof (sepFree_head c s Hs) as Hc.
  destruct s as [|d s].
  - unfold Str.endsWith.
    cbn [String.length Nat.leb Nat.sub andb String.substring].
    apply String.eqb_neq. intros [= ->]. discriminate Hc.
  - rewrite endsWith_slash_cons by discriminate. apply IH; [discriminate|].
    unfold sepFree in *. cbn [Re.inString] in Hs.
    apply orb_false_iff in Hs. tauto.
Qed.

(** Normalizing twice, with leading [..] allowed, is normalizing once. *)
Lemma fold_true_again (l : list string) :
  fold_left (Path.normStep true) (rev (fold_left (Path.normStep true) l [])) []
  = fold_left (Path.normStep true) l [].
Proof.
  induction l as [|y l IH] using rev_ind; [reflexivity|].
  rewrite fold_left_app. cbn [fold_left].
  pose proof (fold_pushed true l [] (Forall_nil _)) as Hinv.
  set (T := fold_left (Path.normStep true) l []) in *.
  destruct (normStep_cases y) as [Hy|[->|Hy]].
  - now rewrite normStep_skip.
  - destruct T as [|top rest] eqn:HT; [reflexivity|].
    destruct (String.eqb_spec top "..") as [->|Htop].
    + change (Path.normStep true (".." :: rest) "..")
        with (".." :: ".." :: rest).
      change (rev (".." :: ".." :: rest))
        with (rev (".." :: rest) ++ [".."])%list.
      rewrite fold_left_app, IH. reflexivity.
    + rewrite normStep_pop by assumption.
      cbn [rev] in IH. rewrite fold_left_app in IH. cbn [fold_left] in IH.
      inversion Hinv as [|? ? (Ht1 & Ht2) _]; subst.
      rewrite (normStep_kept true _ top) in IH by (repeat split; assumption).
      now injection IH.
  - rewrite !normStep_kept by assumption.
    cbn [rev]. rewrite fold_left_app. cbn [fold_left].
    now rewrite IH, normStep_kept.
Qed.

Lemma normSegs_again (aa : bool) (l : list string) :
  Path.normSegs aa (Path.normSegs aa l) = Path.normSegs aa l.
Proof.
  destruct aa.
  - unfold Path.normSegs. now rewrite fold_true_again.
  - apply normSegs_of_kept, normSegs_kept_false.
Qed.

Lemma concat_pushed_nonempty (h : string) (t : list string) :
  pushed h -> String.concat "/" (h :: t) <> EmptyString.
Proof.
  intros (Hh & _). destruct (concat_head h t Hh) as (c & r & -> & _).
  discriminate.
Qed.

(** What [path.normalize] gives, in the segments that it keeps. *)
Lemma normalize_form (P : string) :
  Str.truthy P = true ->
  let ns := Path.normSegs (negb (Path.isAbsolute P)) (Path.segments P) in
  Path.normalize P
  = match ns with
    | [] => if Path.isAbsolute P then "/"
            else if Str.endsWith P "/" then "./" else "."
    | _ :: _ =>
        ((if Path.isAbsolute P then "/" else EmptyString)
         ++ String.concat "/" ns
         ++ (if Str.endsWith P "/" then "/" else EmptyString))%string
    end.
Proof.
  intros HP ns. rewrite (normalize_truthy P HP). unfold Path.normalizeString.
  fold ns. pose proof (normSegs_pushed (negb (Path.isAbsolute P)) (Path.segments P))
    as Hpushed. fold ns in Hpushed.
  destruct ns as [|h t]; [reflexivity|].
  inversion Hpushed as [|? ? Hh _]; subst.
  destruct (String.concat "/" (h :: t)) as [|c r] eqn:Hq;
    [now elim (concat_pushed_nonempty h t Hh)|].
  destruct (Path.isAbsolute P), (Str.endsWith P "/"); cbn [append];
    now rewrite ?sapp_nil_r.
Qed.

Lemma isAbsolute_normalize (P : string) :
  Str.truthy P = true -> Path.isAbsolute (Path.normalize P) = Path.isAbsolute P.
Proof.
  intros HP. rewrite (normalize_form P HP).
  pose proof (normSegs_pushed (negb (Path.isAbsolute P)) (Path.segments P))
    as Hpushed.
  pose proof (normSegs_sepFree (negb (Path.isAbsolute P)) (Path.segments P)
                (split_elements_sepFree P)) as Hfree.
  destruct (Path.normSegs _ _) as [|h t].
  - destruct (Path.isAbsolute P); [reflexivity|].
    now destruct (Str.endsWith P "/").
  - destruct (Path.isAbsolute P); [apply isAbsolute_slash|].
    inversion Hpushed as [|? ? (Hh & _) _]; subst.
    inversion Hfree as [|? ? Hf _]; subst.
    destruct (concat_head h t Hh) as (c & r & Hq & h' & ->).
    rewrite Hq. cbn [append]. rewrite isAbsolute_cons.
    now apply (sepFree_head c h').
Qed.

Lemma normSegs_normalize (P : string) :
  Str.truthy P = true ->
  Path.normSegs (negb (Path.isAbsolute P)) (Path.segments (Path.normalize P))
  = Path.normSegs (negb (Path.isAbsolute P)) (Path.segments P).
Proof.
  intros HP. rewrite (normalize_form P HP).
  pose proof (normSegs_pushed (negb (Path.isAbsolute P)) (Path.segments P))
    as Hpushed.
  pose proof (normSegs_sepFree (negb (Path.isAbsolute P)) (Path.segments P)
                (split_elements_sepFree P)) as Hfree.
  pose proof (normSegs_again (negb (Path.isAbsolute P)) (Path.segments P))
    as Hagain.
  set (aa := negb (Path.isAbsolute P)) in *.
  destruct (Path.normSegs aa (Path.segments P)) as [|h t] eqn:Hns.
  - destruct (Path.isAbsolute P); [reflexivity|].
    now destruct (Str.endsWith P "/").
  - set (ns := h :: t) in *.
    assert (Hsegs : Path.segments (String.concat "/" ns) = ns)
      by (apply segments_concat; [discriminate|exact Hfree]).
    assert (Htrail : forall b : bool,
               Path.normSegs aa
                 (Path.segments (String.concat "/" ns
                                 ++ (if b then "/" else EmptyString)))
               = ns).
    { intros [|].
      - change (String.concat "/" ns ++ "/")%string
          with (String.concat "/" ns ++ "/" ++ EmptyString)%string.
        rewrite segments_slash, Hsegs.
        change (Path.segments EmptyString) with [EmptyString].
        rewrite normSegs_snoc_skip by now left. exact Hagain.
      - rewrite sapp_nil_r, Hsegs. exact Hagain. }
    destruct (Path.isAbsolute P).
    + change ("/" ++ String.concat "/" ns
              ++ (if Str.endsWith P "/" then "/" else EmptyString))%string
        with (EmptyString ++ "/" ++ String.concat "/" ns
              ++ (if Str.endsWith P "/" then "/" else EmptyString))%string.
      rewrite segments_slash.
      change (Path.segments EmptyString) with [EmptyString].
      cbn [app]. rewrite normSegs_cons_skip by now left. apply Htrail.
    + cbn [append]. apply Htrail.
Qed.

(** A plain name joined to a path: the name comes after the segments
    that normalization keeps of the path. *)
Lemma normalize_snoc (Y s : string) :
  Str.truthy Y = true -> plainSegment s = true ->
  Path.normalize (Y ++ "/" ++ s)
  = ((if Path.isAbsolute Y then "/" else EmptyString)
     ++ String.concat "/"
          (Path.normSegs (negb (Path.isAbsolute Y)) (Path.segments Y) ++ [s]))%string.
Proof.
  intros HY Hs.
  destruct (plainSegment_kept s Hs) as (Hne & _).
  assert (HP : Str.truthy (Y ++ "/" ++ s) = true) by (now destruct Y).
  rewrite (normalize_form _ HP). cbv zeta.
  rewrite (isAbsolute_app Y _ HY).
  replace (Str.endsWith (Y ++ "/" ++ s) "/") with false.
  2:{ symmetry. rewrite <- sapp_assoc, endsWith_slash_app by exact Hne.
      apply endsWith_slash_sepFree; [exact Hne|now apply plainSegment_sepFree]. }
  rewrite segments_slash.
  replace (Path.segments s) with [s]
    by (symmetry; apply split_sepFree; now apply plainSegment_sepFree).
  rewrite normSegs_app_kept
    by (constructor; [now apply plainSegment_kept|constructor]).
  destruct (Path.normSegs _ (Path.segments Y) ++ [s])%list as [|h t] eqn:Happ.
  - now destruct (Path.normSegs (negb (Path.isAbsolute Y)) (Path.segments Y)).
  - now rewrite sapp_nil_r.
Qed.

Lemma normalize_normalize_snoc (P s : string) :
  Str.truthy P = true -> plainSegment s = true ->
  Path.normalize (Path.normalize P ++ "/" ++ s) = Path.normalize (P ++ "/" ++ s).
Proof.
  intros HP Hs.
  rewrite (normalize_snoc (Path.normalize P) s (normalize_truthy_result P) Hs).
  rewrite (normalize_snoc P s HP Hs).
  now rewrite (isAbsolute_normalize P HP), (normSegs_normalize P HP).
Qed.

(** Joining the names of [l] one after the other, as the walk does, gives
    the path that one join gives for the id made of these names. *)
Lemma walked_is_joined (dirPath : string) (l : list string) :
  Str.truthy dirPath = true ->
  Forall (fun s => plainSegment s = true) l -> l <> [] ->
  walked dirPath l = Path.join [dirPath; String.concat "/" l].
Proof.
  intros Hd. induction l as [|s l IH] using rev_ind; intros Hplain Hne;
    [now elim Hne|].
  apply Forall_app in Hplain. destruct Hplain as [Hl Hs].
  inversion Hs as [|? ? Hs' _]; subst.
  unfold walked. rewrite fold_left_app. cbn [fold_left]. fold (walked dirPath l).
  destruct l as [|x l'].
  - reflexivity.
  - rewrite IH by (assumption || discriminate).
    assert (Hq : Str.truthy (String.concat "/" (x :: l')) = true).
    { inversion Hl as [|? ? Hx _]; subst.
      apply plainSegment_kept in Hx. destruct Hx as (Hx & _).
      destruct (concat_head x l' Hx) as (c & r & -> & _). reflexivity. }
    rewrite (join2_unfold dirPath _ Hd Hq).
    rewrite join2_unfold
      by (apply normalize_truthy_result || now apply plainSegment_truthy).
    rewrite normalize_normalize_snoc
      by (assumption || now destruct dirPath).
    rewrite concat_app by discriminate.
    assert (Hq2 : Str.truthy (String.concat "/" (x :: l') ++ "/"
                              ++ String.concat "/" [s]) = true).
    { destruct (String.concat "/" (x :: l')); [discriminate|reflexivity]. }
    rewrite (join2_unfold dirPath _ Hd Hq2).
    now rewrite !sapp_assoc.
Qed.

(** ** The list of all notes *)

Lemma find_In (name : string) (es : list (string * Fs.node)) (c : Fs.node) :
  Fs.find name es = Some c -> In (name, c) es.
Proof.
  induction es as [|[k v] es IH]; [discriminate|]. cbn [Fs.find].
  destruct (String.eqb_spec k name) as [->|Hne].
  - intros [= ->]. now left.
  - intros Hf. right. now apply IH.
Qed.

Lemma last_default (l : list string) (a b : string) :
  l <> [] -> last l a = last l b.
Proof.
  induction l as [|x l IH]; intros Hne; [now elim Hne|].
  destruct l as [|y l]; [reflexivity|].
  change (last (x :: y :: l) a) with (last (y :: l) a).
  change (last (x :: y :: l) b) with (last (y :: l) b).
  apply IH. discriminate.
Qed.

Lemma last_cons_default (s : string) (l : list string) (d : string) :
  last (s :: l) d = last l s.
Proof.
  destruct l as [|x l]; [reflexivity|].
  change (last (s :: x :: l) d) with (last (x :: l) d).
  apply last_default. discriminate.
Qed.

Section Listing.
Context `{Host}.

Lemma processEntry_dir (fullPath name : string) (entries : list (string * Fs.node)) :
  fst (Model.processEntry fullPath name (Fs.Dir entries))
  = flat_map (fun e => fst (Model.processEntry (Path.join [fullPath; fst e])
                              (fst e) (snd e)))
      entries.
Proof.
  cbn [Model.processEntry fst].
  induction entries as [|[k c] es IH]; [reflexivity|].
  cbn [flat_map fst snd]. now rewrite <- IH.
Qed.

(** The walk reaches every file that [stat] reaches, and reads it when
    the name it was found under ends in .md. *)
Lemma processEntry_lists (l : list string) :
  forall (n : Fs.node) (fullPath name content : string),
    Fs.stat n l = Ok (Fs.File content) ->
    Str.endsWith (last l name) ".md" = true ->
    In (Fmt.parseNoteContent content (walked fullPath l) NOTES_DIR)
       (fst (Model.processEntry fullPath name n)).
Proof.
  induction l as [|seg rest IH]; intros n fullPath name content Hstat Hmd.
  - injection Hstat as ->. cbn [last] in Hmd. cbn [Model.processEntry walked fold_left].
    rewrite Hmd. now left.
  - destruct n as [c|es]; [discriminate|]. simpl in Hstat.
    destruct (Fs.find seg es) as [c|] eqn:Hf; [|discriminate].
    rewrite processEntry_dir. apply in_flat_map.
    exists (seg, c). split; [now apply find_In|]. cbn [fst snd].
    rewrite last_cons_default in Hmd.
    exact (IH c (Path.join [fullPath; seg]) seg content Hstat Hmd).
Qed.

Lemma getAllNotes_run (role : option string) (w : Fs.world)
  (entries : list (string * Fs.node)) :
  Auth.isAuthorized role (Some "read") = Ok true ->
  Fs.stat (Fs.tree w) (Path.resolveSegs cwd NOTES_DIR) = Ok (Fs.Dir entries) ->
  fst (Model.getAllNotes role None None None w)
  = Ok (sortBy Model.byDate
          (fst (Model.processEntry NOTES_DIR EmptyString (Fs.Dir entries)))).
Proof.
  intros Hauth Hroot. unfold Model.getAllNotes.
  rewrite (authorize_when_allowed _ _ Hauth), bind_ret_l.
  unfold bind at 1. rewrite (ensureNotesDirectory_present w _ Hroot).
  unfold bind at 1. unfold Model.getAllNotesInternal.
  unfold bind at 1.
  rewrite (ensureNotesDirectory_present _ (Fs.Dir entries)) by exact Hroot.
  unfold bind at 1. unfold Model.processDirectory.
  cbn [Fs.logged Fs.tree]. unfold FsP.abs. rewrite Hroot. reflexivity.
Qed.

(** X14.  When [getAllNotes] returns a list without filters, every file
    below the notes directory that is reached by plain names, the last of
    which ends in .md, is in the list: the very note that [getNoteById]
    returns for the id made of these names, with that id. *)
Theorem every_note_file_is_listed
  (role : option string) (w : Fs.world) (entries : list (string * Fs.node))
  (l : list string) (content : string) (notes : list Note.t) :
  fst (Model.getAllNotes role None None None w) = Ok notes ->
  Fs.stat (Fs.tree w) (Path.resolveSegs cwd NOTES_DIR) = Ok (Fs.Dir entries) ->
  Fs.stat (Fs.Dir entries) l = Ok (Fs.File content) ->
  Forall (fun s => plainSegment s = true) l ->
  Str.endsWith (last l EmptyString) ".md" = true ->
  exists found,
    fst (Model.getNoteById role (String.concat "/" l) w) = Ok (Some found)
    /\ In found notes
    /\ Note.id found = String.concat "/" l.
Proof.
  intros Hnotes Hroot Hfile Hplain Hmd.
  assert (Hauth : Auth.isAuthorized role (Some "read") = Ok true).
  { destruct (Auth.isAuthorized role (Some "read")) as [[|]|e] eqn:Hauth;
      [reflexivity| |].
    - unfold Model.getAllNotes in Hnotes.
      rewrite (authorize_when_refused _ _ Hauth) in Hnotes. discriminate.
    - unfold Model.getAllNotes, Model.authorize, bind, lift in Hnotes.
      rewrite Hauth in Hnotes. discriminate. }
  assert (Hsorted : notes
                    = sortBy Model.byDate
                        (fst (Model.processEntry NOTES_DIR EmptyString
                                (Fs.Dir entries)))).
  { pose proof (getAllNotes_run role w entries Hauth Hroot) as Hrun. congruence. }
  rewrite Hsorted. clear Hsorted Hnotes.
  assert (Hne : l <> []) by (intros ->; discriminate).
  assert (Hkept : Forall kept l).
  { eapply Forall_impl; [|exact Hplain]. intros s. apply plainSegment_kept. }
  assert (Hfree : Forall sepFree l).
  { eapply Forall_impl; [|exact Hplain]. intros s. apply plainSegment_sepFree. }
  assert (Hsegs : Path.segments (String.concat "/" l) = l)
    by now apply segments_concat.
  set (q := String.concat "/" l) in *.
  set (R := Path.resolveSegs cwd NOTES_DIR) in *.
  assert (Hj : FsP.abs (Path.join [NOTES_DIR; q]) = (R ++ l)%list)
    by now apply abs_join_segments.
  exists (Fmt.parseNoteContent content (Path.join [NOTES_DIR; q]) NOTES_DIR).
  split.
  { rewrite (getNoteById_found role q l content w Hauth Hsegs Hkept);
      [reflexivity|]. fold R. now rewrite stat_app, Hroot. }
  split.
  - apply sortBy_In. unfold q.
    rewrite <- (walked_is_joined NOTES_DIR l NOTES_DIR_truthy Hplain Hne).
    now apply processEntry_lists.
  - rewrite parse_id. now apply (relative_below cwd NOTES_DIR _ l).
Qed.

End Listing.

Lemma every_note_file_witness :
  exists found,
    fst (Model.getNoteById (H := refHost) (Some "analytics")
           (String.concat "/" ["projects"; "topics"; "deep.md"]) Ex.nested)
    = Ok (Some found)
    /\ In found
         [ Note.mk "topics/top.md" "notes/topics/top.md" "Top" "# Top" Md.empty;
           Note.mk "projects/topics/deep.md" "notes/projects/topics/deep.md"
             "Deep" "# Deep" Md.empty ]
    /\ Note.id found = String.concat "/" ["projects"; "topics"; "deep.md"].
Proof.
  apply (every_note_file_is_listed (H := refHost) (Some "analytics") Ex.nested
           [ ("topics", Fs.Dir [("top.md", Fs.File (Ex.heading "Top"))]);
             ("projects", Fs.Dir
                [("topics", Fs.Dir [("deep.md", Fs.File (Ex.heading "Deep"))])]) ]
           ["projects"; "topics"; "deep.md"] (Ex.heading "Deep")).
  - vm_compute. reflexivity.
  - vm_compute. reflexivity.
  - vm_compute. reflexivity.
  - repeat constructor.
  - reflexivity.
Defined.

(** ** The order of the list *)

Lemma ascii_compare_trans_le (x y z : ascii) :
  Ascii.compare x y <> Gt -> Ascii.compare y z <> Gt ->
  Ascii.compare x z <> Gt
  /\ (Ascii.compare x z = Eq -> Ascii.compare x y = Eq /\ Ascii.compare y z = Eq).
Proof.
  unfold Ascii.compare.
  destruct (N.compare_spec (N_of_ascii x) (N_of_ascii y)) as [Hxy|Hxy|Hxy];
    destruct (N.compare_spec (N_of_ascii y) (N_of_ascii z)) as [Hyz|Hyz|Hyz];
    destruct (N.compare_spec (N_of_ascii x) (N_of_ascii z)) as [Hxz|Hxz|Hxz];
    intros H1 H2; try (now elim H1); try (now elim H2);
    split; try discriminate; try tauto; try lia.
Qed.

Lemma leb_trans (a b c : string) :
  String.leb a b = true -> String.leb b c = true -> String.leb a c = true.
Proof.
  unfold String.leb. revert b c.
  induction a as [|x a IH]; intros [|y b] [|z c]; cbn [String.compare];
    try reflexivity; try discriminate.
  intros Hab Hbc.
  assert (Hxy : Ascii.compare x y <> Gt)
    by (intros E; rewrite E in Hab; discriminate).
  assert (Hyz : Ascii.compare y z <> Gt)
    by (intros E; rewrite E in Hbc; discriminate).
  destruct (ascii_compare_trans_le x y z Hxy Hyz) as [Hxz Heq].
  destruct (Ascii.compare x z) eqn:Exz; [|reflexivity|now elim Hxz].
  destruct (Heq eq_refl) as [Exy Eyz]. rewrite Exy in Hab. rewrite Eyz in Hbc.
  exact (IH b c Hab Hbc).
Qed.

Lemma insertBy_In {A : Type} (cmp : A -> A -> Z) (x y : A) (l : list A) :
  In y (insertBy cmp x l) <-> y = x \/ In y l.
Proof.
  split.
  - intros Hin. apply (Permutation_in _ (Permutation_sym (insertBy_perm cmp x l)))
      in Hin. destruct Hin as [<-|Hin]; [now left|now right].
  - intros Hin. apply (Permutation_in _ (insertBy_perm cmp x l)).
    destruct Hin as [->|Hin]; [now left|now right].
Qed.

Section SortedBy.
Variables (A : Type) (cmp : A -> A -> Z) (P : A -> Prop) (R : A -> A -> Prop).
Hypothesis cmp_le : forall x y, P x -> P y -> (cmp x y <=? 0)%Z = true -> R x y.
Hypothesis cmp_gt : forall x y, P x -> P y -> (cmp x y <=? 0)%Z = false -> R y x.
Hypothesis R_trans : forall x y z, P x -> P y -> P z -> R x y -> R y z -> R x z.

Lemma insertBy_sorted (x : A) (l : list A) :
  P x -> Forall P l -> StronglySorted R l -> StronglySorted R (insertBy cmp x l).
Proof.
  intros Hx Hl Hs. induction Hs as [|y l Hs IH Hy]; cbn [insertBy].
  - constructor; constructor.
  - inversion Hl as [|? ? Py Pl]; subst.
    destruct (cmp x y <=? 0)%Z eqn:Hc.
    + constructor; [now constructor|].
      pose proof (cmp_le x y Hx Py Hc) as Hxy.
      constructor; [exact Hxy|].
      rewrite Forall_forall in *. intros z Hz.
      apply (R_trans x y z); auto.
    + constructor; [now apply IH|].
      rewrite Forall_forall in *. intros z Hz.
      apply insertBy_In in Hz. destruct Hz as [->|Hz]; [|now apply Hy].
      now apply cmp_gt.
Qed.

Lemma sortBy_sorted (l : list A) :
  Forall P l -> StronglySorted R (sortBy cmp l).
Proof.
  induction 1 as [|x l Hx Hl IH]; cbn [sortBy]; [constructor|].
  apply insertBy_sorted; [exact Hx| |exact IH].
  rewrite Forall_forall in *. intros y Hy. apply Hl.
  now apply (sortBy_In cmp l y).
Qed.

End SortedBy.

Lemma StronglySorted_filter {A : Type} (R : A -> A -> Prop) (f : A -> bool)
  (l : list A) :
  StronglySorted R l -> StronglySorted R (filter f l).
Proof.
  induction 1 as [|x l Hs IH Hx]; cbn [filter]; [constructor|].
  destruct (f x); [|exact IH]. constructor; [exact IH|].
  rewrite Forall_forall in *. intros y Hy. apply filter_In in Hy. now apply Hx.
Qed.

Lemma dated_text (n : Note.t) :
  dated n -> exists d, Md.date (Note.metadata n) = Some (Md.VString d).
Proof.
  unfold dated, textDate.
  destruct (Md.date (Note.metadata n)) as [[d| | | | |]|];
    intros E; try (now elim E). now exists d.
Qed.

Section ByDate.
Context `{Host}.

Lemma byDate_le (a b : Note.t) :
  dated a -> dated b -> (Model.byDate a b <=? 0)%Z = true -> notOlder a b.
Proof.
  intros Ha Hb. destruct (dated_text a Ha) as (x & Hx).
  destruct (dated_text b Hb) as (y & Hy).
  unfold notOlder, textDate, Model.byDate, Model.gt, Model.lt.
  rewrite Hx, Hy. cbn [Model.comparand]. rewrite !lt_is_not_leb.
  destruct (String.leb_total x y) as [Hxy|Hyx].
  - rewrite Hxy. cbn [negb]. destruct (String.leb y x); [reflexivity|discriminate].
  - now rewrite Hyx.
Qed.

Lemma byDate_gt (a b : Note.t) :
  dated a -> dated b -> (Model.byDate a b <=? 0)%Z = false -> notOlder b a.
Proof.
  intros Ha Hb. destruct (dated_text a Ha) as (x & Hx).
  destruct (dated_text b Hb) as (y & Hy).
  unfold notOlder, textDate, Model.byDate, Model.gt, Model.lt.
  rewrite Hx, Hy. cbn [Model.comparand]. rewrite !lt_is_not_leb.
  destruct (String.leb x y) eqn:Hxy; [reflexivity|]. cbn [negb].
  discriminate.
Qed.

End ByDate.

Lemma notOlder_trans (a b c : Note.t) :
  dated a -> dated b -> dated c -> notOlder a b -> notOlder b c -> notOlder a c.
Proof.
  intros Ha Hb Hc. destruct (dated_text a Ha) as (x & Hx).
  destruct (dated_text b Hb) as (y & Hy). destruct (dated_text c Hc) as (z & Hz).
  unfold notOlder, textDate. rewrite Hx, Hy, Hz.
  rewrite !lt_is_not_leb, !negb_false_iff.
  intros Hyx Hzy. exact (leb_trans z y x Hzy Hyx).
Qed.

Lemma filter_all {A : Type} (l : list A) : filter (fun _ => true) l = l.
Proof. induction l as [|x l IH]; [reflexivity|]. cbn [filter]. now rewrite IH. Qed.

Lemma filter_filter {A : Type} (f g : A -> bool) (l : list A) :
  filter g (filter f l) = filter (fun x => f x && g x) l.
Proof.
  induction l as [|x l IH]; [reflexivity|]. cbn [filter].
  destruct (f x); cbn [filter andb]; [|exact IH].
  destruct (g x); now rewrite IH.
Qed.

Section Order.
Context `{Host}.

(** With filters, [getAllNotes] returns notes of the list without
    filters, in the order they have there. *)
Lemma getAllNotes_as_filter (role tags category keyword : option string)
  (w : Fs.world) :
  exists keep : Note.t -> bool,
    forall allNotes w',
      Model.getAllNotes role None None None w = (Ok allNotes, w') ->
      Model.getAllNotes role tags category keyword w
      = (Ok (filter keep allNotes), w').
Proof.
  set (byTags := match tags with
                 | Some ts =>
                     if Str.truthy ts
                     then fun note => existsb (Model.hasTag note) (Str.split "," ts)
                     else fun _ => true
                 | None => fun _ => true
                 end).
  set (byCategory := match category with
                     | Some c => if Str.truthy c then Model.inCategory c
                                 else fun _ => true
                     | None => fun _ => true
                     end).
  set (byKeyword := match keyword with
                    | Some k => if Str.truthy k then Model.matchesText k
                                else fun _ => true
                    | None => fun _ => true
                    end).
  exists (fun note => byTags note && byCategory note && byKeyword note).
  intros allNotes w'. unfold Model.getAllNotes, bind.
  destruct (Model.authorize role "read" w) as [[[]|e] w1]; [|discriminate].
  destruct (Model.ensureNotesDirectory w1) as [[[]|e] w2]; [|discriminate].
  destruct (Model.getAllNotesInternal w2) as [[notes|e] w3]; [|discriminate].
  unfold ret. intros [= <- <-]. f_equal. f_equal.
  rewrite <- !filter_filter. unfold byTags, byCategory, byKeyword.
  destruct tags as [ts|]; [destruct (Str.truthy ts)|];
    destruct category as [c|]; try destruct (Str.truthy c);
    destruct keyword as [k|]; try destruct (Str.truthy k);
    now rewrite ?filter_all.
Qed.

Lemma getAllNotes_sorted (role : option string) (w : Fs.world)
  (allNotes : list Note.t) :
  fst (Model.getAllNotes role None None None w) = Ok allNotes ->
  exists notes, allNotes = sortBy Model.byDate notes.
Proof.
  unfold Model.getAllNotes, bind.
  destruct (Model.authorize role "read" w) as [[[]|e] w1]; [|discriminate].
  destruct (Model.ensureNotesDirectory w1) as [[[]|e] w2]; [|discriminate].
  unfold Model.getAllNotesInternal, bind.
  destruct (Model.ensureNotesDirectory w2) as [[[]|e] w3]; [|discriminate].
  destruct (Model.processDirectory NOTES_DIR w3) as [[notes|e] w4];
    [|discriminate].
  cbn. intros [= <-]. now exists notes.
Qed.

(** X15.  When every note of the notes directory has a date that is a
    string, as the notes that [createNote] writes have, the list that
    [getAllNotes] returns is in the order newest first, whatever the
    filters: no note comes before a note of a later date, the dates
    compared as strings.  A date written without quotes is loaded as a
    Date, and a list with such a note is outside this statement. *)
Theorem dated_notes_are_listed_newest_first
  (role tags category keyword : option string) (w : Fs.world)
  (allNotes notes : list Note.t) :
  fst (Model.getAllNotes role None None None w) = Ok allNotes ->
  Forall dated allNotes ->
  fst (Model.getAllNotes role tags category keyword w) = Ok notes ->
  newestFirst notes.
Proof.
  intros Hall Hdated Hnotes.
  destruct (getAllNotes_as_filter role tags category keyword w) as (keep & Hkeep).
  destruct (Model.getAllNotes role None None None w) as [r w'] eqn:Hrun.
  cbn [fst] in Hall. subst r.
  rewrite (Hkeep allNotes w' eq_refl) in Hnotes. injection Hnotes as <-.
  apply StronglySorted_filter.
  assert (Hs : fst (Model.getAllNotes role None None None w) = Ok allNotes)
    by now rewrite Hrun.
  destruct (getAllNotes_sorted role w allNotes Hs) as (raw & ->).
  apply (sortBy_sorted Note.t Model.byDate dated notOlder
           byDate_le byDate_gt notOlder_trans).
  rewrite Forall_forall in *. intros n Hn. apply Hdated.
  now apply sortBy_In.
Qed.

End Order.

Lemma newest_first_witness :
  newestFirst [Ex.newNote; Ex.oldNote].
Proof.
  apply (dated_notes_are_listed_newest_first (H := refHost) (Some "analytics")
           None (Some "topics") (Some "alpha") Ex.twoDated
           [Ex.newNote; Ex.oldNote] [Ex.newNote; Ex.oldNote]).
  - vm_compute. reflexivity.
  - repeat constructor; discriminate.
  - vm_compute. reflexivity.
Defined.

(** A Date and a string compare as Numbers, and the string of a day is
    NaN: the sort leaves the two notes where they are, the older first. *)
Lemma date_without_quotes_keeps_its_place :
  fst (Model.getAllNotes (H := refHost) (Some "admin") None None None Ex.mixed)
  = Ok [Ex.plainNote; Ex.newNote]
  /\ Model.byDate (H := refHost) Ex.plainNote Ex.newNote = 0%Z
  /\ Model.byDate (H := refHost) Ex.newNote Ex.plainNote = 0%Z.
Proof. repeat split; vm_compute; reflexivity. Qed.

(** ** Two notes with one file name *)

Section CreateTwice.
Context `{Host}.

(** X16.  The file name of a note is made of the day and of the slug of the
    title.  Two notes created on the same day in the same category, with
    titles that have the same slug, get the same id, and the second
    creation replaces the file of the first: what is then read under the
    id is what the second creation wrote. *)
Theorem create_twice_keeps_the_second
  (role : option string) (title1 content1 : string) (tags1 : list string)
  (author1 : string) (title2 content2 : string) (tags2 : list string)
  (author2 category : string) (w : Fs.world) (entries : list (string * Fs.node)) :
  let filename := (today ++ "_" ++ Model.slugOf title1 ++ ".md")%string in
  Auth.isAuthorized role (Some "create") = Ok true ->
  plainSegment category = true ->
  sepFree today ->
  Fs.stat (Fs.tree w) (Path.resolveSegs cwd NOTES_DIR) = Ok (Fs.Dir entries) ->
  (forall c, Fs.stat (Fs.Dir entries) [category] <> Ok (Fs.File c)) ->
  (forall l, Fs.stat (Fs.Dir entries) [category; filename] <> Ok (Fs.Dir l)) ->
  Model.slugOf title2 = Model.slugOf title1 ->
  exists made1 w1 made2 w2,
    Model.createNote role title1 content1 tags1 category author1 w = (Ok made1, w1)
    /\ Model.createNote role title2 content2 tags2 category author2 w1
       = (Ok made2, w2)
    /\ Model.c_id made2 = Model.c_id made1
    /\ fileAt (Fs.tree w2) (Path.resolveSegs cwd NOTES_DIR ++ [category; filename])
       = Some (Fmt.formatNoteContent
                 (Md.mk (Some today) (Some tags2) (Some []) (Some author2) None)
                 title2 content2).
Proof.
  intros filename Hauth Hcat Htoday Hroot Hnofile Hnodir Hslug.
  destruct (createNote_run role title1 content1 tags1 category author1 w entries
              Hauth Hcat Htoday Hroot Hnofile Hnodir) as (w1 & Hrun1 & Hst1).
  fold filename in Hrun1, Hst1.
  rewrite stat_app in Hst1.
  destruct (Fs.stat (Fs.tree w1) (Path.resolveSegs cwd NOTES_DIR))
    as [[c|entries1]|e] eqn:Hroot1; try discriminate.
  assert (Hnofile1 : forall c, Fs.stat (Fs.Dir entries1) [category] <> Ok (Fs.File c)).
  { intros c Hc. simpl in Hst1, Hc.
    destruct (Fs.find category entries1) as [n|]; [|discriminate].
    injection Hc as ->. discriminate. }
  assert (Hnodir1 : forall l,
             Fs.stat (Fs.Dir entries1)
               [category; (today ++ "_" ++ Model.slugOf title2 ++ ".md")%string]
             <> Ok (Fs.Dir l)).
  { intros l. rewrite Hslug. fold filename. rewrite Hst1. discriminate. }
  destruct (createNote_run role title2 content2 tags2 category author2 w1 entries1
              Hauth Hcat Htoday Hroot1 Hnofile1 Hnodir1) as (w2 & Hrun2 & Hst2).
  rewrite Hslug in Hrun2, Hst2. fold filename in Hrun2, Hst2.
  eexists. exists w1. eexists. exists w2.
  split; [exact Hrun1|]. split; [exact Hrun2|]. split; [reflexivity|].
  unfold fileAt. now rewrite Hst2.
Qed.

End CreateTwice.

Lemma create_twice_witness :
  exists made1 w1 made2 w2,
    Model.createNote (H := refHost) (Some "admin") "Hello World" "first" []
      "topics" "ann" Ex.emptyNotes
    = (Ok made1, w1)
    /\ Model.createNote (H := refHost) (Some "admin") "hello, world" "second" []
         "topics" "bob" w1
       = (Ok made2, w2)
    /\ Model.c_id made2 = Model.c_id made1
    /\ fileAt (Fs.tree w2) ["app"; "notes"; "topics"; "2025-03-15_hello_world.md"]
       = Some (Fmt.formatNoteContent (H := refHost)
                 (Md.mk (Some "2025-03-15") (Some []) (Some []) (Some "bob") None)
                 "hello, world" "second").
Proof.
  apply (create_twice_keeps_the_second (H := refHost) (Some "admin")
           "Hello World" "first" [] "ann" "hello, world" "second" [] "bob"
           "topics" Ex.emptyNotes []).
  - reflexivity.
  - reflexivity.
  - reflexivity.
  - vm_compute. reflexivity.
  - intros c. vm_compute. discriminate.
  - intros l. vm_compute. discriminate.
  - reflexivity.
Defined.

(** ** An id that names a directory *)

Section ArchiveDirectory.
Context `{Host}.

(** X17.  [deleteNote] does not ask whether the id names a file.  For the name
    of a directory of the notes directory, other than the archive, and an
    archive that holds nothing of that name, a delete with archive moves
    the directory, with all that is in it, into the archive, and answers
    Note archived with the id of the directory there. *)
Theorem archive_takes_a_directory
  (role : option string) (d : string) (sub al : list (string * Fs.node))
  (w : Fs.world) :
  let R := Path.resolveSegs cwd NOTES_DIR in
  Auth.isAuthorized role (Some "delete") = Ok true ->
  plainSegment d = true -> d <> "archive" ->
  Fs.stat (Fs.tree w) (R ++ [d]) = Ok (Fs.Dir sub) ->
  Fs.stat (Fs.tree w) (R ++ ["archive"]) = Ok (Fs.Dir al) ->
  Fs.stat (Fs.tree w) (R ++ ["archive"; d]) = Throw (FsError ENOENT) ->
  exists w1,
    Model.deleteNote role d true w
    = (Ok (Some (Model.mkOutcome "Note archived" (Some ("archive/" ++ d)%string))),
       w1)
    /\ Fs.stat (Fs.tree w1) (R ++ ["archive"; d]) = Ok (Fs.Dir sub)
    /\ Fs.stat (Fs.tree w1) (R ++ [d]) = Throw (FsError ENOENT).
Proof.
  intros R Hauth Hd Hna Hdir Harch Hfree.
  rewrite stat_app in Hdir, Harch, Hfree.
  destruct (Fs.stat (Fs.tree w) R) as [[c|entries]|e] eqn:Hroot; try discriminate.
  simpl in Hdir, Harch, Hfree.
  destruct (Fs.find d entries) as [nd|] eqn:Hfd; [|discriminate].
  injection Hdir as ->.
  destruct (Fs.find "archive" entries) as [na|] eqn:Hfa; [|discriminate].
  injection Harch as ->.
  assert (Hfda : Fs.find d al = None).
  { destruct (Fs.find d al); [discriminate|reflexivity]. }
  clear Hfree.
  set (notePath := Path.join [NOTES_DIR; d]).
  assert (Hsegs : Path.segments d = [d])
    by (apply split_sepFree; now apply plainSegment_sepFree).
  assert (Hkept : Forall kept [d])
    by (constructor; [now apply plainSegment_kept|constructor]).
  assert (Hnp : FsP.abs notePath = (R ++ [d])%list)
    by now apply abs_join_segments.
  assert (Had : FsP.abs (Path.join [NOTES_DIR; "archive"]) = (R ++ ["archive"])%list).
  { apply (abs_join_segments "archive" ["archive"]); [reflexivity|].
    repeat constructor; discriminate. }
  assert (Hbase : Path.basename notePath = d)
    by (apply (basename_join_segments d [d]); [assumption..|discriminate]).
  assert (Hap : FsP.abs (Path.join [NOTES_DIR; "archive"; d])
                = (R ++ ["archive"; d])%list)
    by now apply abs_join_plain2.
  assert (Hneq : String.eqb d "archive" = false) by now apply String.eqb_neq.
  assert (Hneq' : "archive" <> d) by (intros E; now apply Hna).
  set (r1 := Fs.Dir (Fs.delEntry d entries)).
  set (r2 := Fs.Dir (Fs.setEntry "archive" (Fs.Dir (Fs.setEntry d (Fs.Dir sub) al))
                       (Fs.delEntry d entries))).
  destruct (put_root R (Fs.tree w) _ r1 Hroot) as (t1 & Hp1 & Ht1).
  destruct (put_root R t1 r1 r2 Ht1) as (t2 & Hp2 & Ht2).
  assert (Hmkdir : Fs.mkdirp (Fs.tree w) (R ++ ["archive"]) = Ok (Fs.tree w)).
  { rewrite (mkdirp_app R ["archive"] _ _ Hroot), mkdirp_step, Hfa.
    cbn [Fs.mkdirp]. rewrite (setEntry_same _ _ _ Hfa).
    now apply put_same. }
  assert (Hren : Fs.renameTree (Fs.tree w) (R ++ [d]) (R ++ ["archive"; d]) = Ok t2).
  { unfold Fs.renameTree.
    rewrite (stat_app R [d]), Hroot. cbn [Fs.stat]. rewrite Hfd.
    rewrite segs_eqb_app, isPrefix_app. cbn [Fs.segs_eqb Fs.isPrefix].
    rewrite Hneq. cbn [andb].
    rewrite (stat_app R ["archive"; d]), Hroot. cbn [Fs.stat]. rewrite Hfa, Hfda.
    unfold Fs.move.
    rewrite (remove_app R [d] ltac:(discriminate) _ _ Hroot).
    cbn [Fs.remove]. rewrite Hfd. fold r1. rewrite Hp1.
    rewrite (put_app R ["archive"; d] _ ltac:(discriminate) t1 r1 Ht1).
    unfold r1. rewrite put_step.
    rewrite (find_delEntry_other d "archive" entries Hna), Hfa.
    cbn [Fs.put]. fold r1 r2. exact Hp2. }
  exists (Fs.mkWorld t2
            (((Fs.log w ++ [Fs.Access notePath])
              ++ [Fs.Mkdir (Path.join [NOTES_DIR; "archive"])])
             ++ [Fs.Rename notePath (Path.join [NOTES_DIR; "archive"; d])])%list).
  split; [|split].
  - unfold Model.deleteNote. fold notePath.
    rewrite (authorize_when_allowed _ _ Hauth), bind_ret_l.
    rewrite (validatePath_below _ [d]) by exact Hnp.
    rewrite bind_ret_l. unfold tryCatch, bind.
    rewrite (access_ok notePath w (Fs.Dir sub))
      by (rewrite Hnp, stat_app, Hroot; cbn [Fs.stat]; now rewrite Hfd).
    rewrite Hbase.
    rewrite (mkdir_ok _ _ (Fs.tree w)) by (cbn [Fs.logged Fs.tree]; now rewrite Had).
    rewrite (rename_ok _ _ _ t2) by (cbn [Fs.tree]; now rewrite Hnp, Hap).
    unfold ret. cbn [Fs.log Fs.logged Fs.tree].
    rewrite (relative_below cwd NOTES_DIR _ ["archive"; d]);
      [reflexivity|exact Hap|discriminate].
  - cbn [Fs.tree]. rewrite stat_app, Ht2. unfold r2. cbn [Fs.stat].
    rewrite find_setEntry_same, find_setEntry_same. reflexivity.
  - cbn [Fs.tree]. rewrite stat_app, Ht2. unfold r2. cbn [Fs.stat].
    rewrite (find_setEntry_other "archive" d _ _ Hneq'), find_delEntry_same.
    reflexivity.
Qed.

End ArchiveDirectory.

Lemma archive_directory_witness :
  exists w1,
    Model.deleteNote (H := refHost) (Some "admin") "topics" true Ex.withX
    = (Ok (Some (Model.mkOutcome "Note archived" (Some "archive/topics"))), w1)
    /\ Fs.stat (Fs.tree w1) ["app"; "notes"; "archive"; "topics"]
       = Ok (Fs.Dir [("x.md", Fs.File Ex.xText)])
    /\ Fs.stat (Fs.tree w1) ["app"; "notes"; "topics"] = Throw (FsError ENOENT).
Proof.
  apply (archive_takes_a_directory (H := refHost) (Some "admin") "topics"
           [("x.md", Fs.File Ex.xText)] [] Ex.withX).
  - reflexivity.
  - reflexivity.
  - discriminate.
  - vm_compute. reflexivity.
  - vm_compute. reflexivity.
  - vm_compute. reflexivity.
Defined.

(** ** Creating a note through the handler *)

Section CreateDefaults.
Context `{Host}.

(** X18.  A request to create a note that names no category and no tags: the
    note is written in the category topics, with an empty list of tags,
    and its author is the name of the agent, or the role when the agent
    has no name.  The answer has the status 201 and the id of the note in
    topics. *)
Theorem handler_createNote_defaults
  (agent : Controller.agent) (title content : string) (w : Fs.world)
  (entries : list (string * Fs.node)) :
  let req := Controller.mkRequest agent
               (Controller.mkBody (Some title) (Some content) None None) in
  let filename := (today ++ "_" ++ Model.slugOf title ++ ".md")%string in
  let author := Str.orElse (Controller.name agent) (Controller.role agent) in
  Str.truthy title = true -> Str.truthy content = true ->
  Auth.isAuthorized (Some (Controller.role agent)) (Some "create") = Ok true ->
  sepFree today ->
  Fs.stat (Fs.tree w) (Path.resolveSegs cwd NOTES_DIR) = Ok (Fs.Dir entries) ->
  (forall c, Fs.stat (Fs.Dir entries) ["topics"] <> Ok (Fs.File c)) ->
  (forall l, Fs.stat (Fs.Dir entries) ["topics"; filename] <> Ok (Fs.Dir l)) ->
  exists w',
    Controller.createNote req w
    = (Ok (Controller.JsonCreated 201
             (Model.mkCreated ("topics/" ++ filename) title
                (Path.join [Path.join [NOTES_DIR; "topics"]; filename]) today)),
       w')
    /\ fileAt (Fs.tree w') (Path.resolveSegs cwd NOTES_DIR ++ ["topics"; filename])
       = Some (Fmt.formatNoteContent
                 (Md.mk (Some today) (Some []) (Some []) (Some author) None)
                 title content).
Proof.
  intros req filename author Ht Hc Hauth Htoday Hroot Hnofile Hnodir.
  destruct (createNote_run (Some (Controller.role agent)) title content []
              "topics" author w entries Hauth eq_refl Htoday Hroot Hnofile Hnodir)
    as (w' & Hrun & Hst).
  exists w'. split.
  - unfold Controller.createNote, tryCatch, bind. cbn [req Controller.req_body
      Controller.req_agent Controller.b_title Controller.b_content
      Controller.b_tags Controller.b_category].
    rewrite Ht, Hc. cbn [negb orb]. fold author. rewrite Hrun. reflexivity.
  - unfold fileAt. fold filename in Hst. now rewrite Hst.
Qed.

End CreateDefaults.

Lemma handler_createNote_witness :
  exists w',
    Controller.createNote (H := refHost)
      (Controller.mkRequest (Controller.mkAgent "research" None)
         (Controller.mkBody (Some "Hello World") (Some "body") None None))
      Ex.emptyNotes
    = (Ok (Controller.JsonCreated 201
             (Model.mkCreated "topics/2025-03-15_hello_world.md" "Hello World"
                "notes/topics/2025-03-15_hello_world.md" "2025-03-15")),
       w')
    /\ fileAt (Fs.tree w') ["app"; "notes"; "topics"; "2025-03-15_hello_world.md"]
       = Some (Fmt.formatNoteContent (H := refHost)
                 (Md.mk (Some "2025-03-15") (Some []) (Some []) (Some "research")
                    None)
                 "Hello World" "body").
Proof.
  apply (handler_createNote_defaults (H := refHost)
           (Controller.mkAgent "research" None) "Hello World" "body"
           Ex.emptyNotes []).
  - reflexivity.
  - reflexivity.
  - reflexivity.
  - reflexivity.
  - vm_compute. reflexivity.
  - intros c. vm_compute. discriminate.
  - intros l. vm_compute. discriminate.
Defined.

(** ** The keyword of the list and the query of the search *)

Lemma mkdirp_keeps_dirs (p : list string) :
  forall t t' q es,
    Fs.mkdirp t p = Ok t' -> Fs.stat t q = Ok (Fs.Dir es) ->
    exists es', Fs.stat t' q = Ok (Fs.Dir es').
Proof.
  induction p as [|seg rest IH]; intros t t' q es Hmk Hq.
  - simpl in Hmk. destruct t; [discriminate|]. injection Hmk as <-. eauto.
  - destruct t as [c|es0]; [discriminate|]. rewrite mkdirp_step in Hmk.
    destruct q as [|s q].
    + destruct (Fs.find seg es0) as [c|];
        [destruct (Fs.mkdirp c rest); [|discriminate]|];
        injection Hmk as <-; simpl; eauto.
    + simpl in Hq. destruct (Fs.find s es0) as [cs|] eqn:Hs; [|discriminate].
      destruct (Fs.find seg es0) as [c|] eqn:Hf.
      * destruct (Fs.mkdirp c rest) as [c'|e] eqn:Hc; [|discriminate].
        injection Hmk as <-. simpl.
        destruct (String.eqb_spec seg s) as [<-|Hne].
        -- rewrite find_setEntry_same. rewrite Hf in Hs. injection Hs as <-.
           exact (IH c c' q es Hc Hq).
        -- rewrite find_setEntry_other, Hs by assumption. eauto.
      * injection Hmk as <-. simpl. rewrite find_app, Hs. eauto.
Qed.

Lemma mkdirp_makes_dir (p : list string) :
  forall t t', Fs.mkdirp t p = Ok t' -> exists es, Fs.stat t' p = Ok (Fs.Dir es).
Proof.
  induction p as [|seg rest IH]; intros t t' Hmk.
  - simpl in Hmk. destruct t; [discriminate|]. injection Hmk as <-. simpl. eauto.
  - destruct t as [c|es0]; [discriminate|]. rewrite mkdirp_step in Hmk.
    destruct (Fs.find seg es0) as [c|] eqn:Hf.
    + destruct (Fs.mkdirp c rest) as [c'|e] eqn:Hc; [|discriminate].
      injection Hmk as <-. simpl. rewrite find_setEntry_same.
      exact (IH c c' Hc).
    + injection Hmk as <-. simpl. rewrite find_app, Hf. simpl.
      rewrite String.eqb_refl, stat_chain. eauto.
Qed.

Section SearchAndList.
Context `{Host}.

Lemma mkdir_inv (p : string) (w w' : Fs.world) :
  FsP.mkdir p w = (Ok tt, w') ->
  Fs.mkdirp (Fs.tree w) (FsP.abs p) = Ok (Fs.tree w').
Proof.
  unfold FsP.mkdir, FsP.writing.
  destruct (Fs.mkdirp (Fs.tree w) (FsP.abs p)); [|discriminate].
  now intros [= <-].
Qed.

(** Once [ensureNotesDirectory] has returned, there is a notes directory. *)
Lemma ensureNotesDirectory_ensures (w w1 : Fs.world) :
  Model.ensureNotesDirectory w = (Ok tt, w1) ->
  exists n, Fs.stat (Fs.tree w1) (Path.resolveSegs cwd NOTES_DIR) = Ok n.
Proof.
  unfold Model.ensureNotesDirectory, tryCatch.
  unfold FsP.access at 1, FsP.reading. fold (FsP.abs NOTES_DIR).
  change (FsP.abs NOTES_DIR) with (Path.resolveSegs cwd NOTES_DIR).
  destruct (Fs.stat (Fs.tree w) (Path.resolveSegs cwd NOTES_DIR)) as [n|e] eqn:Hs.
  - intros [= <-]. cbn [Fs.logged Fs.tree]. eauto.
  - unfold bind.
    destruct (FsP.mkdir NOTES_DIR _) as [[[]|e1] wa] eqn:H1; [|discriminate].
    destruct (FsP.mkdir _ wa) as [[[]|e2] wb] eqn:H2; [|discriminate].
    destruct (FsP.mkdir _ wb) as [[[]|e3] wc] eqn:H3; [|discriminate].
    destruct (FsP.mkdir _ wc) as [[[]|e4] wd] eqn:H4; [|discriminate].
    intros H5.
    apply mkdir_inv in H1, H2, H3, H4, H5.
    destruct (mkdirp_makes_dir _ _ _ H1) as (ea & Ha).
    destruct (mkdirp_keeps_dirs _ _ _ _ _ H2 Ha) as (eb & Hb).
    destruct (mkdirp_keeps_dirs _ _ _ _ _ H3 Hb) as (ec & Hc).
    destruct (mkdirp_keeps_dirs _ _ _ _ _ H4 Hc) as (ed & Hd).
    destruct (mkdirp_keeps_dirs _ _ _ _ _ H5 Hd) as (ee & He).
    eauto.
Qed.

Lemma processDirectory_tree (dirPath : string) (w w' : Fs.world) :
  Fs.tree w = Fs.tree w' ->
  fst (Model.processDirectory dirPath w) = fst (Model.processDirectory dirPath w').
Proof.
  intros Ht. unfold Model.processDirectory. rewrite Ht.
  now destruct (Fs.stat (Fs.tree w') (FsP.abs dirPath)) as [[c|l]|e].
Qed.

(** The list of all notes is the same after [ensureNotesDirectory] as
    before it. *)
Lemma getAllNotesInternal_after_ensure (w w1 : Fs.world) :
  Model.ensureNotesDirectory w = (Ok tt, w1) ->
  fst (Model.getAllNotesInternal w1) = fst (Model.getAllNotesInternal w).
Proof.
  intros Hens. destruct (ensureNotesDirectory_ensures w w1 Hens) as (n & Hn).
  unfold Model.getAllNotesInternal, bind.
  rewrite Hens, (ensureNotesDirectory_present w1 n Hn).
  pose proof (processDirectory_tree NOTES_DIR
                (Fs.logged (Fs.Access NOTES_DIR) w1) w1 eq_refl) as Hp.
  destruct (Model.processDirectory NOTES_DIR (Fs.logged (Fs.Access NOTES_DIR) w1))
    as [[l1|e1] wa];
    destruct (Model.processDirectory NOTES_DIR w1) as [[l2|e2] wb];
    cbn [fst] in Hp; try discriminate; now injection Hp as ->.
Qed.

Lemma keeps_noFilters (query : string) (n : Note.t) :
  Model.keeps query Model.noFilters n = Model.matchesText query n.
Proof.
  unfold Model.keeps, Model.matchesText, Model.noFilters.
  cbn [Model.f_tags Model.f_category Model.f_dateRange].
  rewrite orb_comm. now destruct (_ || _).
Qed.

(** X19.  The search and the list find the same notes for the same
    word: whenever [searchNotes] returns for a query, without filters,
    [getAllNotes] with that query for keyword and no other filter returns
    the same notes, in another order (the one by date, not the one by
    relevance). *)
Theorem search_finds_what_the_keyword_finds
  (role : option string) (query : string) (w : Fs.world) (results : list Note.t) :
  Str.truthy query = true ->
  fst (Model.searchNotes role query Model.noFilters w) = Ok results ->
  exists notes,
    fst (Model.getAllNotes role None None (Some query) w) = Ok notes
    /\ Permutation notes results.
Proof.
  intros Hq Hs.
  destruct (Auth.isAuthorized role (Some "read")) as [[|]|e] eqn:Hauth.
  2:{ unfold Model.searchNotes in Hs.
      rewrite (authorize_when_refused _ _ Hauth) in Hs. discriminate Hs. }
  2:{ unfold Model.searchNotes, Model.authorize, bind, lift in Hs.
      rewrite Hauth in Hs. discriminate Hs. }
  unfold Model.searchNotes in Hs.
  rewrite (authorize_when_allowed _ _ Hauth), bind_ret_l in Hs.
  unfold bind, lift in Hs.
  destruct (Model.getAllNotesInternal w) as [[allNotes|e] w2] eqn:Hall;
    [|discriminate].
  cbn [fst] in Hs.
  assert (Hens : exists w1, Model.ensureNotesDirectory w = (Ok tt, w1)).
  { unfold Model.getAllNotesInternal, bind in Hall.
    destruct (Model.ensureNotesDirectory w) as [[[]|e] w1]; [eauto|discriminate]. }
  destruct Hens as (w1 & Hens).
  pose proof (getAllNotesInternal_after_ensure w w1 Hens) as Hsame.
  rewrite Hall in Hsame. cbn [fst] in Hsame.
  exists (filter (Model.matchesText query) allNotes). split.
  - unfold Model.getAllNotes.
    rewrite (authorize_when_allowed _ _ Hauth), bind_ret_l.
    unfold bind at 1. rewrite Hens. unfold bind.
    destruct (Model.getAllNotesInternal w1) as [r w3]. cbn [fst] in Hsame.
    subst r. now rewrite Hq.
  - rewrite (filter_ext _ _ (keeps_noFilters query)) in Hs.
    unfold Model.rank in Hs.
    destruct (filter (Model.matchesText query) allNotes) as [|a [|b l]].
    + injection Hs as <-. constructor.
    + injection Hs as <-. apply Permutation_refl.
    + destruct (RegExp_g (Str.toLowerCase query)) as [re|e]; [|discriminate].
      injection Hs as <-.
      exact (sortBy_perm (Model.byRelevance re) (a :: b :: l)).
Qed.

End SearchAndList.

Lemma search_and_keyword_witness :
  exists notes,
    fst (Model.getAllNotes (H := refHost) (Some "analytics") None None
           (Some "alpha") Ex.twoDated)
    = Ok notes
    /\ Permutation notes [Ex.newNote; Ex.oldNote].
Proof.
  apply (search_finds_what_the_keyword_finds (H := refHost) (Some "analytics")
           "alpha" Ex.twoDated [Ex.newNote; Ex.oldNote]).
  - reflexivity.
  - vm_compute. reflexivity.
Defined.

(** ** Archiving what is in the archive *)

Lemma segs_eqb_refl (a : list string) : Fs.segs_eqb a a = true.
Proof.
  induction a as [|x a IH]; [reflexivity|].
  cbn [Fs.segs_eqb]. now rewrite String.eqb_refl, IH.
Qed.

Section ArchiveAgain.
Context `{Host}.

(** X20.  A note that is in the archive can be archived again: the
    answer is Note archived with the id the note has, and the tree is
    left as it is. *)
Theorem archive_again_changes_nothing
  (role : option string) (name content : string) (w : Fs.world) :
  Auth.isAuthorized role (Some "delete") = Ok true ->
  plainSegment name = true ->
  Fs.stat (Fs.tree w) (Path.resolveSegs cwd NOTES_DIR ++ ["archive"; name])
  = Ok (Fs.File content) ->
  exists w1,
    Model.deleteNote role ("archive/" ++ name) true w
    = (Ok (Some (Model.mkOutcome "Note archived" (Some ("archive/" ++ name)%string))),
       w1)
    /\ Fs.tree w1 = Fs.tree w.
Proof.
  intros Hauth Hname Hfile.
  set (R := Path.resolveSegs cwd NOTES_DIR) in *.
  set (q := ("archive/" ++ name)%string).
  set (notePath := Path.join [NOTES_DIR; q]).
  assert (Hsegs : Path.segments q = ["archive"; name]).
  { unfold q. change ("archive/" ++ name)%string
      with ("archive" ++ "/" ++ name)%string.
    rewrite segments_slash. unfold Path.segments at 2.
    now rewrite (split_sepFree name) by now apply plainSegment_sepFree. }
  assert (Hkept : Forall kept ["archive"; name]).
  { constructor; [repeat split; discriminate|].
    constructor; [now apply plainSegment_kept|constructor]. }
  assert (Hnp : FsP.abs notePath = (R ++ ["archive"; name])%list)
    by now apply abs_join_segments.
  assert (Had : FsP.abs (Path.join [NOTES_DIR; "archive"]) = (R ++ ["archive"])%list).
  { apply (abs_join_segments "archive" ["archive"]); [reflexivity|].
    repeat constructor; discriminate. }
  assert (Hbase : Path.basename notePath = name)
    by (apply (basename_join_segments q ["archive"; name]);
        [assumption..|discriminate]).
  assert (Hap : FsP.abs (Path.join [NOTES_DIR; "archive"; name])
                = (R ++ ["archive"; name])%list)
    by now apply abs_join_plain2.
  assert (Harch : exists al, Fs.stat (Fs.tree w) (R ++ ["archive"]) = Ok (Fs.Dir al)).
  { rewrite stat_app in Hfile |- *.
    destruct (Fs.stat (Fs.tree w) R) as [[c|es]|e]; try discriminate.
    simpl in Hfile |- *.
    destruct (Fs.find "archive" es) as [[c|al]|]; try discriminate. eauto. }
  destruct Harch as (al & Harch).
  assert (Hmkdir : Fs.mkdirp (Fs.tree w) (R ++ ["archive"]) = Ok (Fs.tree w)).
  { rewrite stat_app in Harch.
    destruct (Fs.stat (Fs.tree w) R) as [[c|es]|e] eqn:Hroot; try discriminate.
    simpl in Harch.
    destruct (Fs.find "archive" es) as [na|] eqn:Hfa; [|discriminate].
    injection Harch as ->.
    rewrite (mkdirp_app R ["archive"] _ _ Hroot), mkdirp_step, Hfa.
    cbn [Fs.mkdirp]. rewrite (setEntry_same _ _ _ Hfa).
    now apply put_same. }
  exists (Fs.mkWorld (Fs.tree w)
            (((Fs.log w ++ [Fs.Access notePath])
              ++ [Fs.Mkdir (Path.join [NOTES_DIR; "archive"])])
             ++ [Fs.Rename notePath (Path.join [NOTES_DIR; "archive"; name])])%list).
  split; [|reflexivity].
  unfold Model.deleteNote. fold q notePath.
  rewrite (authorize_when_allowed _ _ Hauth), bind_ret_l.
  rewrite (validatePath_below _ ["archive"; name]) by exact Hnp.
  rewrite bind_ret_l. unfold tryCatch, bind.
  rewrite (access_ok notePath w (Fs.File content)) by now rewrite Hnp.
  rewrite Hbase.
  rewrite (mkdir_ok _ _ (Fs.tree w)) by (cbn [Fs.logged Fs.tree]; now rewrite Had).
  rewrite (rename_ok _ _ _ (Fs.tree w)).
  - unfold ret. cbn [Fs.log Fs.logged Fs.tree].
    rewrite (relative_below cwd NOTES_DIR _ ["archive"; name]);
      [reflexivity|exact Hap|discriminate].
  - cbn [Fs.tree]. rewrite Hnp, Hap. unfold Fs.renameTree.
    now rewrite Hfile, segs_eqb_refl.
Qed.

End ArchiveAgain.

Lemma archive_again_witness :
  exists w1,
    Model.deleteNote (H := refHost) (Some "admin") ("archive/" ++ "x.md") true
      (snd (Model.deleteNote (H := refHost) (Some "admin") "topics/x.md" true
              Ex.withX))
    = (Ok (Some (Model.mkOutcome "Note archived" (Some ("archive/" ++ "x.md")%string))),
       w1)
    /\ Fs.tree w1
       = Fs.tree (snd (Model.deleteNote (H := refHost) (Some "admin") "topics/x.md"
                         true Ex.withX)).
Proof.
  apply (archive_again_changes_nothing (H := refHost) (Some "admin") "x.md"
           Ex.xText).
  - reflexivity.
  - reflexivity.
  - vm_compute. reflexivity.
Defined.
